(** * dnsd: DNS message codec and server facade

    A shallow embedding of the JavaScript sources of dnsd (constants,
    decode.js, encode.js, message and server modules), with the properties
    of the wire codec, the name compression, the zone lookup and the
    transport framing stated over it.

    Conventions of the embedding.
    - A [Buffer] is a [list byte]; a JavaScript number that the code uses as
      an integer is a [Z]; a string is a [string] (code units below 256).
    - An exception is a value of [error]; a function that can throw returns
      a [result].
    - An object used as a dictionary ([domains], [zones]) is the finite map
      of its own properties together with what it inherits: a key without
      an own property finds the member of [Object.prototype] of that name,
      see [getProperty]. The tables of the registry are read at the labels
      they hold; a label that names a member of [Object.prototype] is
      outside the embedding of [typeToNumber] and [classToNumber].
    - [undefined] and [null] of an optional field are [None]. *)

From Stdlib Require Import ZArith List String Ascii Lia Bool.
From Stdlib Require Import Strings.Byte.
From stdpp Require Import gmap strings list fin_maps fin_sets pretty.

Local Open Scope string_scope.
Local Open Scope list_scope.
Local Open Scope Z_scope.

(** ** Exceptions and results *)

(** The exceptions the sources throw, one constructor per [throw] site
    family; the comment gives the message of the JavaScript error. *)
Inductive error : Type :=
  | RangeError          (* Buffer access outside of the buffer (ERR_OUT_OF_RANGE) *)
  | JsTypeError         (* property access on undefined, call of a non-function *)
  | BadOffset           (* "Bad offset: " *)
  | InvalidPointer      (* "invalid out-of-bounds pointer" *)
  | PointerCycle        (* "circular pointer references discovered" *)
  | MalformedName       (* "unexpected type of label, maybe data is corrupted" *)
  | MalformedEDNS       (* "invalid EDNS: name of OPT pseudo-RR must be empty" *)
  | InvalidRecordType   (* "Invalid record type: " *)
  | InvalidRecordClass  (* "Invalid record class: " *)
  | TypeMustBeString    (* "Type must be string: " *)
  | NoSuchTypeLabel     (* "No such type label: " *)
  | NoSuchClassLabel    (* "No such class label: " *)
  | OffsetNotNatural    (* "Offset must be a natural number" *)
  | NoSuchSection       (* "No such section: " *)
  | UnknownSection      (* "Unknown section name: " *)
  | BadSectionOffset    (* "Bad offset for section" *)
  | MissingSectionName  (* "missing section name and record index ..." *)
  | UnknownClass        (* "Record # ... has unknown class #" *)
  | UnknownType         (* "Record # ... has unknown type #" *)
  | BadRDATA            (* "Bad IN A data: ", "Bad IN AAAA data: " *)
  | UnknownRecord       (* "Unknown record " *)
  | NotDNSMessage       (* "message must be instance of DNSMessage" *)
  | BadMessageBody      (* "DNSMessage must be created with raw buffer or object ..." *)
  | UnknownOpcode       (* "Unknown opcode: " *)
  | BadRecordData       (* "Bad A record data: ", "Bad AAAA record data: " *)
  | InvalidSegment      (* "invalid segment in IPv6 address" *)
  | UnsupportedType     (* "Unsupported record type: " *)
  | InvalidName         (* "domain name ... is malformed near ..." *)
  | InvalidQueryName    (* "invalid name in query" *)
  | InvalidResponse     (* "invalid response, must be Buffer" *)
  | MultipleQuestions   (* "can't handle simple answer to multiple questions" *)
  | InvalidEDNSResponse (* "invalid number or location of EDNS record(s) in response" *)
  | ResponseTooLarge    (* "TCP responses greater than 65535 bytes not supported",
                           "UDP responses greater than 512 bytes not yet implemented" *)
  | Diverged.           (* the loop of the model ran out of fuel *)

Inductive result (A : Type) : Type :=
  | Ok (a : A)
  | Err (e : error).
Arguments Ok {A} a.
Arguments Err {A} e.

Global Instance result_ret : MRet result := fun A a => Ok a.
Global Instance result_bind : MBind result := fun A B k r =>
  match r with
  | Ok a => k a
  | Err e => Err e
  end.

Global Instance result_fmap : FMap result := fun A B f r =>
  match r with
  | Ok a => Ok (f a)
  | Err e => Err e
  end.

Definition is_ok {A : Type} (r : result A) : bool :=
  match r with Ok _ => true | Err _ => false end.

(** ** JavaScript values used by the sources *)

(** Truthiness of a number and of a string. *)
Definition truthyZ (z : Z) : bool := negb (z =? 0).
Definition truthyS (s : string) : bool := negb (String.eqb s "").

Definition is_Some_b {A : Type} (o : option A) : bool :=
  match o with Some _ => true | None => false end.

(** [ToInt32]: the operand conversion of the bitwise operators. *)
Definition int32 (z : Z) : Z := (z + 2147483648) mod 4294967296 - 2147483648.

(** [a >> n], [a << n], [a & b] and [a | b] on numbers. *)
Definition js_shr (a n : Z) : Z := Z.shiftr (int32 a) n.
Definition js_shl (a n : Z) : Z := int32 (Z.shiftl (int32 a) n).
Definition js_and (a b : Z) : Z := int32 (Z.land (int32 a) (int32 b)).
Definition js_or (a b : Z) : Z := int32 (Z.lor (int32 a) (int32 b)).

(** ** Objects used as dictionaries *)

(** An object created by [{}] inherits from [Object.prototype]. A key
    under which the object has no property of its own finds the member the
    prototype has under that key: a function, or for [__proto__] the
    prototype itself, since [__proto__] is an accessor of the prototype.
    Assigning to [__proto__] creates no property: a primitive value is
    dropped, an object becomes the prototype. *)
Definition prototypeMembers : list string :=
  [ "constructor"; "__defineGetter__"; "__defineSetter__"; "hasOwnProperty";
    "__lookupGetter__"; "__lookupSetter__"; "isPrototypeOf";
    "propertyIsEnumerable"; "toString"; "valueOf"; "__proto__";
    "toLocaleString" ].

Definition inherited (key : string) : bool :=
  existsb (String.eqb key) prototypeMembers.

(** What [obj[key]] evaluates to. *)
Inductive property (V : Type) : Type :=
  | Own (v : V)   (* the property the object itself has under the key *)
  | Inherited     (* a member of the prototype chain: a function or an object *)
  | Undefined.
Arguments Own {V} v.
Arguments Inherited {V}.
Arguments Undefined {V}.

(** [obj[key]] for an object whose prototype is [Object.prototype] and
    whose own properties are [own]. *)
Definition getProperty {V : Type} (own : gmap string V) (key : string)
  : property V :=
  if String.eqb key "__proto__" then Inherited
  else match own !! key with
       | Some v => Own v
       | None => if inherited key then Inherited else Undefined
       end.

(** [obj[key] = value] for a primitive [value]. *)
Definition setPrimitive {V : Type} (own : gmap string V) (key : string)
    (value : V) : gmap string V :=
  if String.eqb key "__proto__" then own else <[key := value]> own.

(** ** Type and class registry (constants) *)

Module Constants.

(** The label tables; the entries stand in ascending key order, which is
    the order [Object.keys] enumerates integer keys in. *)
Definition TYPE_LABELS : list (Z * option string) :=
  [ (1, Some "A"); (2, Some "NS"); (3, Some "MD"); (4, Some "MF");
    (5, Some "CNAME"); (6, Some "SOA"); (7, Some "MB"); (8, Some "MG");
    (9, Some "MR"); (10, Some "NULL"); (11, Some "WKS"); (12, Some "PTR");
    (13, Some "HINFO"); (14, Some "MINFO"); (15, Some "MX"); (16, Some "TXT");
    (17, Some "RP"); (18, Some "AFSDB"); (19, Some "X25"); (20, Some "ISDN");
    (21, Some "RT"); (22, Some "NSAP"); (23, Some "NSAP-PTR"); (24, Some "SIG");
    (25, Some "KEY"); (26, Some "PX"); (27, Some "GPOS"); (28, Some "AAAA");
    (29, Some "LOC"); (30, Some "NXT"); (31, Some "EID"); (32, Some "NIMLOC");
    (33, Some "SRV"); (34, Some "ATMA"); (35, Some "NAPTR"); (36, Some "KX");
    (37, Some "CERT"); (38, Some "A6"); (39, Some "DNAME"); (40, Some "SINK");
    (41, Some "OPT"); (42, Some "APL"); (43, Some "DS"); (44, Some "SSHFP");
    (45, Some "IPSECKEY"); (46, Some "RRSIG"); (47, Some "NSEC");
    (48, Some "DNSKEY"); (49, Some "DHCID"); (50, Some "NSEC3");
    (51, Some "NSEC3PARAM"); (52, Some "TLSA");
    (55, Some "HIP"); (56, Some "NINFO"); (57, Some "RKEY");
    (58, Some "TALINK"); (59, Some "CDS");
    (99, Some "SPF"); (100, Some "UINFO"); (101, Some "UID"); (102, Some "GID");
    (103, Some "UNSPEC"); (104, Some "NID"); (105, Some "L32"); (106, Some "L64");
    (107, Some "LP");
    (249, Some "TKEY"); (250, Some "TSIG"); (251, Some "IXFR");
    (252, Some "AXFR"); (253, Some "MAILB"); (254, Some "MAILA");
    (255, Some "*"); (256, Some "URI"); (257, Some "CAA");
    (32768, Some "TA"); (32769, Some "DLV");
    (65535, Some "Reserved") ].

Definition CLASS_LABELS : list (Z * option string) :=
  [ (0, Some "reserved"); (1, Some "IN"); (2, None); (3, Some "CH");
    (4, Some "HS"); (254, Some "NONE"); (255, Some "*");
    (65535, Some "reserved") ].

(** [mapping[value]]: the property of an object literal. *)
Fixpoint get (mapping : list (Z * option string)) (value : Z)
  : option (option string) :=
  match mapping with
  | [] => None
  | (k, v) :: rest => if k =? value then Some v else get rest value
  end.

(** [mapping[value] || fallback] where the property is a string or null. *)
Definition labelOr (mapping : list (Z * option string)) (value : Z)
    (fallback : option string) : option string :=
  match get mapping value with
  | Some (Some l) => if truthyS l then Some l else fallback
  | _ => fallback
  end.

Definition typeToLabel (value : Z) : result (option string) :=
  if (value <? 1) || (value >? 65535) then Err InvalidRecordType
  else Ok (labelOr TYPE_LABELS value
             (if value >? 65279 then Some "Private use" else None)).

Definition classToLabel (value : Z) : result (option string) :=
  if (value <? 1) || (value >? 65535) then Err InvalidRecordClass
  else Ok (labelOr CLASS_LABELS value
             (if value >? 65279 then Some "Private use" else None)).

(** [transpose]: the keys are visited in order and a later key overwrites
    an earlier one that carries the same label. *)
Definition transpose (mapping : list (Z * option string)) : gmap string Z :=
  fold_left
    (fun result kv =>
       match kv.2 with
       | Some val => <[val := kv.1]> result
       | None => result
       end)
    mapping ∅.

Definition TYPE_NUMBERS : gmap string Z := transpose TYPE_LABELS.
Definition CLASS_NUMBERS : gmap string Z := transpose CLASS_LABELS.

(** [label] is [None] when the argument is not a string. The table is
    read at the labels it holds: for a label that names a member of
    [Object.prototype] the code finds that member and returns it, which
    this embedding leaves out. *)
Definition typeToNumber (label : option string) : result Z :=
  match label with
  | None => Err TypeMustBeString
  | Some l =>
      match TYPE_NUMBERS !! l with
      | Some num => if truthyZ num then Ok num else Err NoSuchTypeLabel
      | None => Err NoSuchTypeLabel
      end
  end.

Definition classToNumber (label : option string) : result Z :=
  match label with
  | None => Err TypeMustBeString
  | Some l =>
      match CLASS_NUMBERS !! l with
      | Some num => if truthyZ num then Ok num else Err NoSuchClassLabel
      | None => Err NoSuchClassLabel
      end
  end.

(** The section names in wire order; the constants module of the sources
    that exports [SECTIONS] is the later revision of the one embedded
    here, the message module declares the same list. *)
Definition SECTIONS : list string :=
  [ "question"; "answer"; "authority"; "additional" ].

End Constants.

(** ** Buffers *)

Abbreviation Buffer := (list byte).

Definition octet (b : byte) : Z := Z.of_N (Byte.to_N b).

(** Conversion of a number to an element of a [Uint8Array]: modulo 256. *)
Definition toByte (z : Z) : byte :=
  match Byte.of_N (Z.to_N (z mod 256)) with
  | Some b => b
  | None => x00
  end.

Definition len (buf : Buffer) : Z := Z.of_nat (length buf).

(** [buf.readUInt8(offset)] and its wider siblings: a read outside of the
    buffer throws. *)
Definition readUInt8 (buf : Buffer) (offset : Z) : result Z :=
  if offset <? 0 then Err RangeError
  else match buf !! Z.to_nat offset with
       | Some b => Ok (octet b)
       | None => Err RangeError
       end.

Definition readUInt16BE (buf : Buffer) (offset : Z) : result Z :=
  hi ← readUInt8 buf offset;
  lo ← readUInt8 buf (offset + 1);
  Ok (hi * 256 + lo).

Definition readUInt32BE (buf : Buffer) (offset : Z) : result Z :=
  b0 ← readUInt8 buf offset;
  b1 ← readUInt8 buf (offset + 1);
  b2 ← readUInt8 buf (offset + 2);
  b3 ← readUInt8 buf (offset + 3);
  Ok (b0 * 16777216 + b1 * 65536 + b2 * 256 + b3).

(** [buf.slice(start, end)]: a negative index counts from the end, and
    both indices are clamped to the buffer. *)
Definition clampIndex (n i : Z) : Z :=
  if i <? 0 then Z.max 0 (n + i) else Z.min i n.

Definition slice (buf : Buffer) (start stop : Z) : Buffer :=
  let s := clampIndex (len buf) start in
  let e := clampIndex (len buf) stop in
  take (Z.to_nat (e - s)) (drop (Z.to_nat s) buf).

Definition sliceFrom (buf : Buffer) (start : Z) : Buffer :=
  slice buf start (len buf).

(** [buf.toString("ascii", start, end)]: the range is clamped and the
    highest bit of every octet is cleared. *)
Definition asciiChar (b : byte) : ascii :=
  ascii_of_byte (toByte (Z.land (octet b) 127)).

Definition toStringAscii (buf : Buffer) (start stop : Z) : string :=
  let s := Z.max 0 start in
  let e := Z.min stop (len buf) in
  string_of_list_ascii
    (map asciiChar (take (Z.to_nat (e - s)) (drop (Z.to_nat s) buf))).

(** [buf.writeUInt8(value)], [writeUInt16BE], [writeUInt32BE] into a fresh
    buffer: a value outside of the range throws. *)
Definition writeUInt8 (value : Z) : result Buffer :=
  if (value <? 0) || (value >? 255) then Err RangeError
  else Ok [toByte value].

Definition writeUInt16BE (value : Z) : result Buffer :=
  if (value <? 0) || (value >? 65535) then Err RangeError
  else Ok [toByte (value / 256); toByte value].

Definition writeUInt32BE (value : Z) : result Buffer :=
  if (value <? 0) || (value >? 4294967295) then Err RangeError
  else Ok [toByte (value / 16777216); toByte (value / 65536);
           toByte (value / 256); toByte value].

(** ** Decoder (decode.js) *)

Module Decode.

(** *** Domain names *)

(** The local variables of [compileName]. *)
Record cnState : Type := mkCn {
  buffer : Buffer;
  cursor : Z;
  labelLength : Z;
  segments : list string;
  pointersCache : gset Z;
  numOctets : Z;
  metPointer : bool
}.

(** One pass through the body of the [while] loop. *)
Definition iterate (fullMessage : Buffer) (offset : Z) (st : cnState)
  : result cnState :=
  byte ← readUInt8 (buffer st) (cursor st);
  let cursor1 := cursor st + 1 in
  let kind := Z.land byte 192 in
  if kind =? 192 then
    low ← readUInt8 (buffer st) cursor1;
    let cursor2 := cursor1 + 1 in
    let pointer := Z.shiftl (Z.land byte 63) 8 + low in
    if pointer >=? len fullMessage then Err InvalidPointer
    else if bool_decide (pointer ∈ pointersCache st) then Err PointerCycle
    else Ok {| buffer := fullMessage;
               cursor := pointer;
               labelLength := labelLength st;
               segments := segments st;
               pointersCache := {[ pointer ]} ∪ pointersCache st;
               numOctets := if metPointer st then numOctets st
                            else cursor2 - offset;
               metPointer := true |}
  else if kind =? 0 then
    let labelLength := Z.land byte 63 in
    if labelLength >? 0 then
      Ok {| buffer := buffer st;
            cursor := cursor1 + labelLength;
            labelLength := labelLength;
            segments := segments st ++
              [toStringAscii (buffer st) cursor1 (cursor1 + labelLength)];
            pointersCache := pointersCache st;
            numOctets := numOctets st;
            metPointer := metPointer st |}
    else
      Ok {| buffer := buffer st;
            cursor := cursor1;
            labelLength := labelLength;
            segments := segments st;
            pointersCache := pointersCache st;
            numOctets := numOctets st;
            metPointer := metPointer st |}
  else Err MalformedName.

(** [while ( labelLength > 0 ) { ... }] *)
Fixpoint loop (fullMessage : Buffer) (offset : Z) (fuel : nat) (st : cnState)
  : result cnState :=
  if labelLength st >? 0 then
    match fuel with
    | O => Err Diverged
    | S fuel' =>
        st' ← iterate fullMessage offset st;
        loop fullMessage offset fuel' st'
    end
  else Ok st.

Definition initial (buf : Buffer) (offset : Z) : cnState :=
  {| buffer := buf; cursor := offset; labelLength := 1; segments := [];
     pointersCache := ∅; numOctets := 1; metPointer := false |}.

(** Passes that suffice for every input, see [compileName_terminates]. *)
Definition enough (fullMessage buf : Buffer) : nat :=
  Z.to_nat ((len fullMessage + 1) * (Z.max (len fullMessage) (len buf) + 65)).

(** [compileName( fullMessage, slice, offset )]: the labels of the name and
    the number of octets the name occupies at [offset]. *)
Definition compileName (fullMessage : Buffer) (slice : option Buffer)
    (offset : Z) : result (list string * Z) :=
  if (offset <? 0) || (offset >? len fullMessage) then Err BadOffset
  else
    let buf := default fullMessage slice in
    st ← loop fullMessage offset (enough fullMessage buf) (initial buf offset);
    Ok (segments st,
        if metPointer st then numOctets st else cursor st - offset).

(** [segments.join( "." )] *)
Fixpoint join (sep : string) (parts : list string) : string :=
  match parts with
  | [] => ""
  | [p] => p
  | p :: rest => p +:+ sep +:+ join sep rest
  end.

Definition uncompress (msg : Buffer) (sub : option Buffer) (offset : Z)
  : result string :=
  '(segs, _) ← compileName msg sub offset;
  Ok (join "." segs).

(** *** Header *)

Definition id (msg : Buffer) : result Z := readUInt16BE msg 0.

Definition qr (msg : Buffer) : result Z :=
  b ← readUInt8 msg 2; Ok (js_shr b 7).
Definition opcode (msg : Buffer) : result Z :=
  b ← readUInt8 msg 2; Ok (js_and (js_shr b 3) 15).
Definition aa (msg : Buffer) : result Z :=
  b ← readUInt8 msg 2; Ok (js_and (js_shr b 2) 1).
Definition tc (msg : Buffer) : result Z :=
  b ← readUInt8 msg 2; Ok (js_and (js_shr b 1) 1).
Definition rd (msg : Buffer) : result Z :=
  b ← readUInt8 msg 2; Ok (js_and b 1).
Definition ra (msg : Buffer) : result Z :=
  b ← readUInt8 msg 3; Ok (js_shr b 7).
Definition ad (msg : Buffer) : result Z :=
  b ← readUInt8 msg 3; Ok (js_and (js_shr b 5) 1).
Definition cd (msg : Buffer) : result Z :=
  b ← readUInt8 msg 3; Ok (js_and (js_shr b 4) 1).
Definition rcode (msg : Buffer) : result Z :=
  b ← readUInt8 msg 3; Ok (js_and b 15).

Definition recordCount (msg : Buffer) (name : string) : result Z :=
  if String.eqb name "question" then readUInt16BE msg 4
  else if String.eqb name "answer" then readUInt16BE msg 6
  else if String.eqb name "authority" then readUInt16BE msg 8
  else if String.eqb name "additional" then readUInt16BE msg 10
  else Err UnknownSection.

(** *** Sections *)

Record EDNSOption : Type := mkOption {
  code : Z;
  data : Buffer
}.

(** The records [sections] collects: a regular record, whose [ttl] and
    [data] are left undefined in the question section, or the fields of an
    OPT pseudo record, which gets neither [name] nor [class]. *)
Inductive RawResourceRecord : Type :=
  | RawRegular (name : string) (class type : Z)
      (ttl : option Z) (data : option Buffer)
  | RawEDNS (type udpSize extendedResult version : Z) (flagDO : bool)
      (flags : Z) (options : list EDNSOption).

Record ParsedSectionsData : Type := mkSections {
  question : list RawResourceRecord;
  answer : list RawResourceRecord;
  authority : list RawResourceRecord;
  additional : list RawResourceRecord
}.

(** [while ( offset < buffer.length ) { ... }]; every pass moves [offset]
    by four octets at least, so the length of the buffer bounds the passes. *)
Fixpoint extractEDNSOptionsFrom (fuel : nat) (buf : Buffer) (offset : Z)
  : result (list EDNSOption) :=
  if offset <? len buf then
    match fuel with
    | O => Err Diverged
    | S fuel' =>
        code ← readUInt16BE buf offset;
        let offset := offset + 2 in
        length ← readUInt16BE buf offset;
        let offset := offset + 2 in
        let data := slice buf offset (offset + length) in
        let offset := offset + length in
        rest ← extractEDNSOptionsFrom fuel' buf offset;
        Ok ({| code := code; data := data |} :: rest)
    end
  else Ok [].

Definition extractEDNSOptions (buf : Buffer) : result (list EDNSOption) :=
  extractEDNSOptionsFrom (length buf) buf 0.

(** The body of the inner [for] loop of [sections]: the record at
    [position] and the position behind it. *)
Definition sectionRecord (msg : Buffer) (sectionName : string) (position : Z)
  : result (RawResourceRecord * Z) :=
  '(segs, length) ← compileName msg None position;
  let name := join "." segs in
  let position := position + length in
  typeValue ← readUInt16BE msg position;
  classValue ← readUInt16BE msg (position + 2);
  let position := position + 4 in
  if negb (String.eqb sectionName "question") then
    ttl ← readUInt32BE msg position;
    rdataLength ← readUInt16BE msg (position + 4);
    let position := position + 6 in
    let data := slice msg position (position + rdataLength) in
    let position := position + rdataLength in
    label ← Constants.typeToLabel typeValue;
    if bool_decide (label = Some "OPT") then
      if negb (String.eqb name "") then Err MalformedEDNS
      else
        options ← extractEDNSOptions data;
        Ok (RawEDNS typeValue
              (Z.max 512 classValue)
              (js_shr ttl 24)
              (js_and (js_shr ttl 16) 255)
              (truthyZ (js_and ttl 32768))
              (js_and ttl 32767)
              options,
            position)
    else Ok (RawRegular name classValue typeValue (Some ttl) (Some data),
             position)
  else Ok (RawRegular name classValue typeValue None None, position).

Fixpoint sectionRecords (msg : Buffer) (sectionName : string)
    (numRecords : nat) (position : Z)
  : result (list RawResourceRecord * Z) :=
  match numRecords with
  | O => Ok ([], position)
  | S n =>
      '(record, position) ← sectionRecord msg sectionName position;
      '(rest, position) ← sectionRecords msg sectionName n position;
      Ok (record :: rest, position)
  end.

Definition section (msg : Buffer) (sectionName : string) (position : Z)
  : result (list RawResourceRecord * Z) :=
  numRecords ← recordCount msg sectionName;
  sectionRecords msg sectionName (Z.to_nat numRecords) position.

(** [sections( msg )]: the records of the four sections, walked in wire
    order from octet 12. *)
Definition sections (msg : Buffer) : result ParsedSectionsData :=
  '(qd, position) ← section msg "question" 12;
  '(an, position) ← section msg "answer" position;
  '(ns, position) ← section msg "authority" position;
  '(ar, position) ← section msg "additional" position;
  Ok {| question := qd; answer := an; authority := ns; additional := ar |}.

Definition sectionOf (s : ParsedSectionsData) (sectionName : string)
  : option (list RawResourceRecord) :=
  if String.eqb sectionName "question" then Some (question s)
  else if String.eqb sectionName "answer" then Some (answer s)
  else if String.eqb sectionName "authority" then Some (authority s)
  else if String.eqb sectionName "additional" then Some (additional s)
  else None.

Definition getRecord (s : ParsedSectionsData) (sectionName : string)
    (offset : Z) : result RawResourceRecord :=
  if offset <? 0 then Err OffsetNotNatural
  else match sectionOf s sectionName with
       | None => Err NoSuchSection
       | Some records =>
           match records !! Z.to_nat offset with
           | Some record => Ok record
           | None => Err BadSectionOffset
           end
       end.

(** *** Record data *)

Definition mx (msg data : Buffer) : result (Z * string) :=
  weight ← readUInt16BE data 0;
  name ← uncompress msg (Some data) 2;
  Ok (weight, name).

Definition srv (msg data : Buffer) : result (Z * Z * Z * string) :=
  priority ← readUInt16BE data 0;
  weight ← readUInt16BE data 2;
  port ← readUInt16BE data 4;
  target ← uncompress msg (Some data) 6;
  Ok (priority, weight, port, target).

Record SOAData : Type := mkSOA {
  mname : string;
  rname : string;
  serial : Z;
  refresh : Z;
  retry : Z;
  expire : Z;
  ttl : Z
}.

Definition soa (msg data : Buffer) : result SOAData :=
  '(msegs, mlen) ← compileName msg (Some data) 0;
  '(rsegs, rlen) ← compileName msg (Some data) mlen;
  let offset := mlen + rlen in
  serial ← readUInt32BE data offset;
  refresh ← readUInt32BE data (offset + 4);
  retry ← readUInt32BE data (offset + 8);
  expire ← readUInt32BE data (offset + 12);
  ttl ← readUInt32BE data (offset + 16);
  Ok {| mname := join "." msegs; rname := join "." rsegs;
        serial := serial; refresh := refresh; retry := retry;
        expire := expire; ttl := ttl |}.

(** [for ( let iter = data; iter.length; ) { ... }]; every pass drops one
    octet at least. *)
Fixpoint txtFrom (fuel : nat) (iter : Buffer) : result (list string) :=
  if len iter =? 0 then Ok []
  else match fuel with
       | O => Err Diverged
       | S fuel' =>
           n ← readUInt8 iter 0;
           let part := toStringAscii (slice iter 1 (1 + n)) 0
                         (len (slice iter 1 (1 + n))) in
           rest ← txtFrom fuel' (sliceFrom iter (1 + n));
           Ok (part :: rest)
       end.

Definition txt (msg data : Buffer) : result (list string) :=
  txtFrom (length data) data.

End Decode.

(** ** Messages and records (message module) *)

Module Message.

Record EDNS : Type := mkEDNS {
  udpSize : Z;
  extendedResult : Z;
  version : Z;
  flagDO : bool;
  flags : Z;
  options : list Decode.EDNSOption
}.

(** The in-memory forms of record data. The fields of DS data read
    beyond the end of the RDATA are [None]: [NaN] for [keyTag],
    [undefined] for the other two. *)
Inductive RData : Type :=
  | DUndefined
  | DString (s : string)
  | DArray (parts : list string)
  | DMX (weight : Z) (name : string)
  | DSRV (priority weight port : Z) (target : string)
  | DSOA (soa : Decode.SOAData)
  | DDS (keyTag algorithm digestType : option Z) (digest : Buffer)
  | DBuffer (raw : Buffer).

Record DNSRecord : Type := mkRecord {
  r_name : string;
  r_type : option string;
  r_class : option string;
  r_ttl : option Z;
  r_data : RData;
  r_edns : option EDNS
}.

Record DNSMessage : Type := mkMessage {
  m_id : option Z;
  m_type : option string;
  m_responseCode : option Z;
  m_opcode : option string;
  m_authoritative : bool;
  m_truncated : bool;
  m_recursionDesired : bool;
  m_recursionAvailable : bool;
  m_authenticated : bool;
  m_checkingDisabled : bool;
  m_question : list DNSRecord;
  m_answer : list DNSRecord;
  m_authority : list DNSRecord;
  m_additional : list DNSRecord
}.

(** [String( value )] of a label that may be [null]. *)
Definition labelText (l : option string) : string := default "null" l.

(** [DNSRecord.kind()] *)
Definition kind (r : DNSRecord) : string :=
  labelText (r_class r) +:+ " " +:+ labelText (r_type r).

(** [renderIPv4]: the first four octets in decimal, joined by dots. *)
Definition renderIPv4 (octets : Buffer) : string :=
  Decode.join "." (map (fun b => pretty (octet b)) (take 4 octets)).

Definition hexDigit (z : Z) : ascii :=
  if z <? 10 then ascii_of_N (Z.to_N (48 + z))
  else ascii_of_N (Z.to_N (87 + z)).

(** [buf.toString( "hex" )] *)
Fixpoint toStringHex (buf : Buffer) : string :=
  match buf with
  | [] => ""
  | b :: rest =>
      String (hexDigit (octet b / 16))
        (String (hexDigit (octet b mod 16)) (toStringHex rest))
  end.

(** [s.replace( /(....)/g, "$1:" )]; no character of a hex string is a
    line terminator. *)
Fixpoint colonEveryFour (s : string) : string :=
  match s with
  | String a (String b (String c (String d rest))) =>
      String a (String b (String c (String d (String ":" (colonEveryFour rest)))))
  | _ => s
  end.

(** [s.replace( /:$/, "" )] *)
Fixpoint dropFinalColon (s : string) : string :=
  match s with
  | "" => ""
  | String c "" => if Ascii.eqb c ":" then "" else s
  | String c rest => String c (dropFinalColon rest)
  end.

Definition renderIPv6 (buf : Buffer) : string :=
  dropFinalColon (colonEveryFour (toStringHex buf)).

(** [s.replace( /\./, "@" )]: the first dot only. *)
Fixpoint replaceFirstDot (s : string) : string :=
  match s with
  | "" => ""
  | String c rest =>
      if Ascii.eqb c "." then String "@" rest
      else String c (replaceFirstDot rest)
  end.

Definition byteAt (rdata : Buffer) (i : nat) : option Z :=
  octet <$> rdata !! i.

(** The [switch ( this.kind() )] of [DNSRecord.parse]. *)
Definition parseData (body rdata : Buffer) (kindOfRecord : string)
  : result RData :=
  if String.eqb kindOfRecord "IN A" then
    if negb (len rdata =? 4) then Err BadRDATA
    else Ok (DString (renderIPv4 rdata))
  else if String.eqb kindOfRecord "IN AAAA" then
    if negb (len rdata =? 16) then Err BadRDATA
    else Ok (DString (renderIPv6 rdata))
  else if String.eqb kindOfRecord "IN NS"
          || String.eqb kindOfRecord "IN CNAME"
          || String.eqb kindOfRecord "IN PTR" then
    name ← Decode.uncompress body (Some rdata) 0;
    Ok (DString name)
  else if String.eqb kindOfRecord "IN TXT" then
    parts ← Decode.txt body rdata;
    match parts with
    | [] => Ok (DString "")
    | [part] => Ok (DString part)
    | _ => Ok (DArray parts)
    end
  else if String.eqb kindOfRecord "IN MX" then
    '(weight, name) ← Decode.mx body rdata;
    Ok (DMX weight name)
  else if String.eqb kindOfRecord "IN SRV" then
    '(priority, weight, port, target) ← Decode.srv body rdata;
    Ok (DSRV priority weight port target)
  else if String.eqb kindOfRecord "IN SOA" then
    soa ← Decode.soa body rdata;
    Ok (DSOA {| Decode.mname := Decode.mname soa;
                Decode.rname := replaceFirstDot (Decode.rname soa);
                Decode.serial := Decode.serial soa;
                Decode.refresh := Decode.refresh soa;
                Decode.retry := Decode.retry soa;
                Decode.expire := Decode.expire soa;
                Decode.ttl := Decode.ttl soa |})
  else if String.eqb kindOfRecord "IN DS" then
    Ok (DDS (hi ← byteAt rdata 0; lo ← byteAt rdata 1;
             Some (js_shl hi 8 + lo))
            (byteAt rdata 2) (byteAt rdata 3) (sliceFrom rdata 4))
  else if String.eqb kindOfRecord "NONE A" then Ok (DArray [])
  else if String.eqb kindOfRecord "IN OPT" then Ok (DBuffer rdata)
  else Err UnknownRecord.

(** [DNSRecord.parse( body, sectionName, recordNum, sections )]. The test
    [this.edns] of its first branch reads a property the constructor has
    not set, so the branch is never taken; an OPT record of [sections] has
    no [class], and [classToLabel( undefined )] throws. *)
Definition parseRecord (body : Buffer) (sectionName : string) (recordNum : Z)
    (sections : Decode.ParsedSectionsData) : result DNSRecord :=
  record ← Decode.getRecord sections sectionName recordNum;
  match record with
  | Decode.RawEDNS _ _ _ _ _ _ _ => Err InvalidRecordClass
  | Decode.RawRegular name classValue typeValue ttl rdata =>
      class ← Constants.classToLabel classValue;
      type ← Constants.typeToLabel typeValue;
      if negb (truthyS (default "" class)) then Err UnknownClass
      else if negb (truthyS (default "" type)) then Err UnknownType
      else if String.eqb sectionName "question" then
        Ok {| r_name := name; r_type := type; r_class := class;
              r_ttl := None; r_data := DUndefined; r_edns := None |}
      else
        let this := {| r_name := name; r_type := type; r_class := class;
                       r_ttl := ttl; r_data := DUndefined; r_edns := None |} in
        data ← parseData body (default [] rdata) (kind this);
        Ok {| r_name := name; r_type := type; r_class := class;
              r_ttl := ttl; r_data := data; r_edns := None |}
  end.

(** [new DNSRecord( body, sectionName, recordNum, sectionsCache )] for the
    records [0 .. count-1] of one section. *)
Fixpoint parseRecords (body : Buffer) (sectionName : string)
    (sections : Decode.ParsedSectionsData) (count : nat) (i : Z)
  : result (list DNSRecord) :=
  match count with
  | O => Ok []
  | S n =>
      record ← parseRecord body sectionName i sections;
      rest ← parseRecords body sectionName sections n (i + 1);
      Ok (record :: rest)
  end.

Definition parseSection (body : Buffer) (sectionName : string)
    (sections : Decode.ParsedSectionsData) : result (list DNSRecord) :=
  count ← Decode.recordCount body sectionName;
  parseRecords body sectionName sections (Z.to_nat count) 0.

Definition opcodeNames : list (option string) :=
  [ Some "query"; Some "iquery"; Some "status"; None;
    Some "notify"; Some "update" ].

(** [DNSMessage.parse( body )] *)
Definition parse (body : Buffer) : result DNSMessage :=
  id ← Decode.id body;
  qr ← Decode.qr body;
  responseCode ← Decode.rcode body;
  opcode ← Decode.opcode body;
  aa ← Decode.aa body;
  tc ← Decode.tc body;
  rd ← Decode.rd body;
  ra ← Decode.ra body;
  ad ← Decode.ad body;
  cd ← Decode.cd body;
  sectionsCache ← Decode.sections body;
  question ← parseSection body "question" sectionsCache;
  answer ← parseSection body "answer" sectionsCache;
  authority ← parseSection body "authority" sectionsCache;
  additional ← parseSection body "additional" sectionsCache;
  Ok {| m_id := Some id;
        m_type := Some (if qr =? 0 then "request" else "response");
        m_responseCode := Some responseCode;
        m_opcode := mjoin (opcodeNames !! Z.to_nat opcode);
        m_authoritative := truthyZ aa;
        m_truncated := truthyZ tc;
        m_recursionDesired := truthyZ rd;
        m_recursionAvailable := truthyZ ra;
        m_authenticated := truthyZ ad;
        m_checkingDisabled := truthyZ cd;
        m_question := question;
        m_answer := answer;
        m_authority := authority;
        m_additional := additional |}.

(** The argument of the constructor: a buffer, an object whose
    properties are those of a message, or anything else. *)
Inductive Body : Type :=
  | OfBuffer (body : Buffer)
  | OfObject (body : DNSMessage)
  | OfOther.

(** [new DNSMessage( body )]. For an object the properties are copied and
    every section is then assigned a fresh empty array, whose (no)
    elements are wrapped as records. *)
Definition construct (body : Body) : result DNSMessage :=
  match body with
  | OfBuffer buf => parse buf
  | OfObject obj =>
      Ok {| m_id := m_id obj;
            m_type := m_type obj;
            m_responseCode := m_responseCode obj;
            m_opcode := m_opcode obj;
            m_authoritative := m_authoritative obj;
            m_truncated := m_truncated obj;
            m_recursionDesired := m_recursionDesired obj;
            m_recursionAvailable := m_recursionAvailable obj;
            m_authenticated := m_authenticated obj;
            m_checkingDisabled := m_checkingDisabled obj;
            m_question := [];
            m_answer := [];
            m_authority := [];
            m_additional := [] |}
  | OfOther => Err BadMessageBody
  end.

End Message.

(** ** Encoder (encode.js) *)

Module Encode.

Import Message.

(** *** The label pattern

    [encodeName] and [findZoneForName] split a name with one pattern,
    anchored at both ends: a first group of 1 to 63 characters that are
    neither a dot nor white space; then, optionally, a dot and a second
    group, which starts with such a character and runs to the end of the
    name over any characters but line terminators. *)

Definition charCode (c : ascii) : Z := Z.of_N (N_of_ascii c).

(** [\s] on code units below 256. *)
Definition isSpace (c : ascii) : bool :=
  let n := charCode c in
  ((9 <=? n) && (n <=? 13)) || (n =? 32) || (n =? 160).

(** [[^.\s]] *)
Definition isLabelChar (c : ascii) : bool :=
  negb (Ascii.eqb c ".") && negb (isSpace c).

(** The characters [.] does not match. *)
Definition isLineTerminator (c : ascii) : bool :=
  let n := charCode c in (n =? 10) || (n =? 13).

Fixpoint noLineTerminator (s : string) : bool :=
  match s with
  | "" => true
  | String c rest => negb (isLineTerminator c) && noLineTerminator rest
  end.

(** The longest prefix of label characters, and what follows it. *)
Fixpoint spanLabel (s : string) : string * string :=
  match s with
  | "" => ("", "")
  | String c rest =>
      if isLabelChar c then
        let '(segment, tail) := spanLabel rest in (String c segment, tail)
      else ("", s)
  end.

Definition strlen (s : string) : Z := Z.of_nat (String.length s).

(** [pattern.exec( domain )]: [None] when the pattern does not match, else
    the two groups, the second of which may be undefined. A shorter first
    group never helps the match, since it is followed by a label
    character. *)
Definition splitName (domain : string) : option (string * option string) :=
  let '(segment, tail) := spanLabel domain in
  if (1 <=? strlen segment) && (strlen segment <=? 63) then
    match tail with
    | "" => Some (segment, None)
    | String dot rest =>
        if Ascii.eqb dot "." then
          match rest with
          | String c _ =>
              if isLabelChar c && noLineTerminator rest
              then Some (segment, Some rest)
              else None
          | "" => None
          end
        else None
    end
  else None.

(** [fqdn.replace( /\.$/, "" )] *)
Fixpoint dropFinalDot (s : string) : string :=
  match s with
  | "" => ""
  | String c "" => if Ascii.eqb c "." then "" else s
  | String c rest => String c (dropFinalDot rest)
  end.

(** *** Encoder state *)

Record Encoder : Type := mkEncoder {
  header : Buffer;
  position : Z;
  question : list Buffer;
  answer : list Buffer;
  authority : list Buffer;
  additional : list Buffer;
  domains : gmap string Z
}.

(** [new Encoder()] *)
Definition create : Encoder :=
  {| header := replicate 12 x00; position := 0;
     question := []; answer := []; authority := []; additional := [];
     domains := ∅ |}.

Definition setPosition (e : Encoder) (p : Z) : Encoder :=
  {| header := header e; position := p;
     question := question e; answer := answer e;
     authority := authority e; additional := additional e;
     domains := domains e |}.

Definition setDomains (e : Encoder) (d : gmap string Z) : Encoder :=
  {| header := header e; position := position e;
     question := question e; answer := answer e;
     authority := authority e; additional := additional e;
     domains := d |}.

Definition setHeader (e : Encoder) (h : Buffer) : Encoder :=
  {| header := h; position := position e;
     question := question e; answer := answer e;
     authority := authority e; additional := additional e;
     domains := domains e |}.

(** [this[sectionName].push( chunk )] *)
Definition pushSection (e : Encoder) (sectionName : string) (chunk : Buffer)
  : result Encoder :=
  if String.eqb sectionName "question" then
    Ok {| header := header e; position := position e;
          question := question e ++ [chunk]; answer := answer e;
          authority := authority e; additional := additional e;
          domains := domains e |}
  else if String.eqb sectionName "answer" then
    Ok {| header := header e; position := position e;
          question := question e; answer := answer e ++ [chunk];
          authority := authority e; additional := additional e;
          domains := domains e |}
  else if String.eqb sectionName "authority" then
    Ok {| header := header e; position := position e;
          question := question e; answer := answer e;
          authority := authority e ++ [chunk]; additional := additional e;
          domains := domains e |}
  else if String.eqb sectionName "additional" then
    Ok {| header := header e; position := position e;
          question := question e; answer := answer e;
          authority := authority e; additional := additional e ++ [chunk];
          domains := domains e |}
  else Err JsTypeError.

(** [toBinary()] *)
Definition toBinary (e : Encoder) : Buffer :=
  header e ++ concat (question e) ++ concat (answer e)
    ++ concat (authority e) ++ concat (additional e).

(** *** Names *)

(** The octets of a string written with the "ascii" encoding. *)
Definition asciiBytes (s : string) : Buffer :=
  map byte_of_ascii (list_ascii_of_string s).

(** [pointer && compress && pointer <= 0x3fff]; a member of the prototype
    is truthy, and compared as a number it is [NaN], which is not less
    than or equal to anything. *)
Definition usable (pointer : property Z) (compress : bool) : option Z :=
  match pointer with
  | Own p => if truthyZ p && compress && (p <=? 16383) then Some p else None
  | Inherited => None
  | Undefined => None
  end.

(** The [while ( domain.length > 0 )] loop of [encodeName]; every pass
    shortens [domain], whose length so bounds the passes. *)
Fixpoint encodeNameLoop (fuel : nat) (domains : gmap string Z)
    (compress : bool) (domain : string) (position : Z)
  : result (Buffer * gmap string Z) :=
  if strlen domain >? 0 then
    match fuel with
    | O => Err Diverged
    | S fuel' =>
        match usable (getProperty domains domain) compress with
        | Some pointer =>
            Ok ([toByte (192 + js_shr pointer 8); toByte (js_and pointer 255)],
                domains)
        | None =>
            let domains := setPrimitive domains domain position in
            match splitName domain with
            | None => Err InvalidName
            | Some (segment, rest) =>
                let chunk := toByte (strlen segment) :: asciiBytes segment in
                '(tail, domains) ←
                  encodeNameLoop fuel' domains compress (default "" rest)
                    (position + len chunk);
                Ok (chunk ++ tail, domains)
            end
        end
    end
  else Ok ([x00], domains).

(** [encodeName( fqdn, shift, { compress } )]: the octets of the name and
    the encoder with the suffixes recorded. *)
Definition encodeName (e : Encoder) (fqdn : string) (shift : Z)
    (compress : bool) : result (Buffer * Encoder) :=
  let domain := dropFinalDot fqdn in
  '(buf, d) ← encodeNameLoop (String.length domain) (domains e) compress
                domain (position e + shift);
  Ok (buf, setDomains e d).

(** *** Strings of record data *)

(** [s.split( sep )] for a separator of one character. *)
Fixpoint splitOn (sep : ascii) (s : string) : list string :=
  match s with
  | "" => [""]
  | String c rest =>
      if Ascii.eqb c sep then "" :: splitOn sep rest
      else match splitOn sep rest with
           | first :: others => String c first :: others
           | [] => [String c ""]
           end
  end.

Definition isDigit (c : ascii) : bool :=
  (48 <=? charCode c) && (charCode c <=? 57).

Fixpoint allChars (p : ascii -> bool) (s : string) : bool :=
  match s with
  | "" => true
  | String c rest => p c && allChars p rest
  end.

(** The double nearest to a natural number, ties to even; a number below
    2^53 is a double. A number too large for a double gives [Infinity],
    which is written as the octet 0 and stands as 0 here. *)
Definition toDouble (n : Z) : Z :=
  if n <? 9007199254740992 then n
  else
    let e := Z.log2 n - 52 in
    let q := Z.shiftr n e in
    let r := n - Z.shiftl q e in
    let half := Z.shiftl 1 (e - 1) in
    let q := if (half <? r) || ((r =? half) && Z.odd q) then q + 1 else q in
    if 1024 <=? Z.log2 (Z.shiftl q e) then 0 else Z.shiftl q e.

(** [Number( digits )] of a string of decimal digits. *)
Definition numberOf (digits : string) : Z :=
  toDouble
    (fold_left (fun acc c => acc * 10 + (charCode c - 48))
       (list_ascii_of_string digits) 0).

(** [rdata.match( /^(\d+)\.(\d+)\.(\d+)\.(\d+)$/ )] and the four numbers. *)
Definition matchIPv4 (rdata : string) : option (list Z) :=
  match splitOn "." rdata with
  | [a; b; c; d] =>
      if forallb (fun g => negb (String.eqb g "") && allChars isDigit g)
           [a; b; c; d]
      then Some (map numberOf [a; b; c; d])
      else None
  | _ => None
  end.

Definition hexValue (c : ascii) : option Z :=
  let n := charCode c in
  if (48 <=? n) && (n <=? 57) then Some (n - 48)
  else if (97 <=? n) && (n <=? 102) then Some (n - 87)
  else if (65 <=? n) && (n <=? 70) then Some (n - 55)
  else None.

(** [( "0000" + pair ).slice( -4 )] *)
Definition lastFour (pair : string) : string :=
  let padded := "0000" +:+ pair in
  String.substring (String.length padded - 4) 4 padded.

(** One group of an IPv6 address: the padded group has to match
    [/^[0-9a-f]{4}$/i] and is read as two octets. *)
Definition hexPair (pair : string) : result (list Z) :=
  match list_ascii_of_string (lastFour pair) with
  | [a; b; c; d] =>
      match hexValue a, hexValue b, hexValue c, hexValue d with
      | Some va, Some vb, Some vc, Some vd =>
          Ok [va * 16 + vb; vc * 16 + vd]
      | _, _, _, _ => Err InvalidSegment
      end
  | _ => Err InvalidSegment
  end.

Fixpoint hexPairs (pairs : list string) : result (list Z) :=
  match pairs with
  | [] => Ok []
  | p :: rest =>
      octets ← hexPair p;
      others ← hexPairs rest;
      Ok (octets ++ others)
  end.

(** [s.replace( /\./g, "\\." )] *)
Fixpoint escapeDots (s : string) : string :=
  match s with
  | "" => ""
  | String c rest =>
      if Ascii.eqb c "." then String "\" (String "." (escapeDots rest))
      else String c (escapeDots rest)
  end.

(** The notation of the mail address of SOA data: the dots of the part
    before the first [@] are escaped and the parts are joined by dots. *)
Definition mailName (rname : string) : string :=
  match splitOn "@" rname with
  | first :: others => Decode.join "." (escapeDots first :: others)
  | [] => rname
  end.

(** [Buffer.from( text )]: UTF-8 of code units below 256. *)
Definition utf8 (text : string) : list Z :=
  flat_map
    (fun c => let n := charCode c in
              if n <? 128 then [n]
              else [192 + n / 64; 128 + n mod 64])
    (list_ascii_of_string text).

Definition octets (buf : Buffer) : list Z := map octet buf.

(** [Buffer.from( String( buffer ) )]: the octets are decoded as UTF-8
    and encoded again, which keeps a well-formed sequence and puts the
    three octets of U+FFFD for every maximal ill-formed one. *)
Definition within (z lo hi : Z) : bool := (lo <=? z) && (z <=? hi).

Definition replacement : list Z := [239; 191; 189].

Fixpoint recode (data : list Z) : list Z :=
  match data with
  | [] => []
  | b :: rest =>
      if b <? 128 then b :: recode rest
      else if within b 194 223 then
        match rest with
        | c :: rest1 =>
            if within c 128 191 then b :: c :: recode rest1
            else replacement ++ recode rest
        | [] => replacement
        end
      else if within b 224 239 then
        let lo := if b =? 224 then 160 else 128 in
        let hi := if b =? 237 then 159 else 191 in
        match rest with
        | c :: rest1 =>
            if within c lo hi then
              match rest1 with
              | d :: rest2 =>
                  if within d 128 191 then b :: c :: d :: recode rest2
                  else replacement ++ recode rest1
              | [] => replacement
              end
            else replacement ++ recode rest
        | [] => replacement
        end
      else if within b 240 244 then
        let lo := if b =? 240 then 144 else 128 in
        let hi := if b =? 244 then 143 else 191 in
        match rest with
        | c :: rest1 =>
            if within c lo hi then
              match rest1 with
              | d :: rest2 =>
                  if within d 128 191 then
                    match rest2 with
                    | f :: rest3 =>
                        if within f 128 191
                        then b :: c :: d :: f :: recode rest3
                        else replacement ++ recode rest2
                    | [] => replacement
                    end
                  else replacement ++ recode rest1
              | [] => replacement
              end
            else replacement ++ recode rest
        | [] => replacement
        end
      else replacement ++ recode rest
  end.

(** [buf16( value )] and [buf32( value )]; an undefined value is written
    as zero. *)
Definition buf16 (value : option Z) : result (list Z) :=
  octets <$> writeUInt16BE (default 0 value).
Definition buf32 (value : option Z) : result (list Z) :=
  octets <$> writeUInt32BE (default 0 value).

(** *** Records *)

(** One entry of the TXT data: its length and its octets. *)
Definition txtPart (part : string) : list Z :=
  let chunk := utf8 part in Z.of_nat (length chunk) :: chunk.

(** The [switch ( record.class + " " + record.type )] of [record]: the
    octet list of the RDATA, with the names of the data encoded against
    [e]. Data of a shape the case does not expect makes the case read
    undefined properties; [encodeName( undefined )] is a TypeError. *)
Definition rdataOf (e : Encoder) (kindOfRecord : string) (data : RData)
  : result (list Z * Encoder) :=
  if String.eqb kindOfRecord "IN A" then
    match data with
    | DUndefined | DString _ =>
        let text := match data with
                    | DString s => if truthyS s then s else "0.0.0.0"
                    | _ => "0.0.0.0"
                    end in
        match matchIPv4 text with
        | Some numbers => Ok (numbers, e)
        | None => Err BadRecordData
        end
    | _ => Err JsTypeError
    end
  else if String.eqb kindOfRecord "IN AAAA" then
    match data with
    | DUndefined | DString _ =>
        let text := match data with DString s => s | _ => "" end in
        let pairs := splitOn ":" text in
        if negb (Z.of_nat (length pairs) =? 8) then Err BadRecordData
        else rdata ← hexPairs pairs; Ok (rdata, e)
    | _ => Err JsTypeError
    end
  else if String.eqb kindOfRecord "IN MX" then
    match data with
    | DMX weight name =>
        w ← buf16 (Some weight);
        '(n, e) ← encodeName e name (2 + 2) true;
        Ok (w ++ octets n, e)
    | _ => Err JsTypeError
    end
  else if String.eqb kindOfRecord "IN SOA" then
    match data with
    | DSOA soa =>
        let mail := mailName (Decode.rname soa) in
        '(mName, e) ← encodeName e (Decode.mname soa) 2 true;
        '(rName, e) ← encodeName e mail (2 + len mName) true;
        serial ← buf32 (Some (Decode.serial soa));
        refresh ← buf32 (Some (Decode.refresh soa));
        retry ← buf32 (Some (Decode.retry soa));
        expire ← buf32 (Some (Decode.expire soa));
        ttl ← buf32 (Some (Decode.ttl soa));
        Ok (octets mName ++ octets rName ++ serial ++ refresh ++ retry
              ++ expire ++ ttl, e)
    | _ => Err JsTypeError
    end
  else if String.eqb kindOfRecord "IN NS"
          || String.eqb kindOfRecord "IN PTR"
          || String.eqb kindOfRecord "IN CNAME" then
    match data with
    | DString name =>
        '(n, e) ← encodeName e name 2 true;
        Ok (octets n, e)
    | _ => Err JsTypeError
    end
  else if String.eqb kindOfRecord "IN TXT" then
    match data with
    | DArray parts => Ok (flat_map txtPart parts, e)
    | DString part => Ok (txtPart part, e)
    | DUndefined => Ok (txtPart "undefined", e)
    | DBuffer raw =>
        let chunk := recode (octets raw) in
        Ok (Z.of_nat (length chunk) :: chunk, e)
    | _ => Ok (txtPart "[object Object]", e)
    end
  else if String.eqb kindOfRecord "IN SRV" then
    match data with
    | DSRV priority weight port target =>
        p ← buf16 (Some priority);
        w ← buf16 (Some weight);
        q ← buf16 (Some port);
        '(n, e) ← encodeName e target (2 + 6) false;
        Ok (p ++ w ++ q ++ octets n, e)
    | _ => Err JsTypeError
    end
  else if String.eqb kindOfRecord "IN DS" then
    match data with
    | DDS keyTag algorithm digestType digest =>
        k ← buf16 keyTag;
        Ok (k ++ [default 0 algorithm] ++ [default 0 digestType]
              ++ octets digest, e)
    | _ => Err JsTypeError
    end
  else if String.eqb kindOfRecord "NONE A" then Ok ([], e)
  else Err UnsupportedType.

(** [record( sectionName, record )] *)
Definition record (e : Encoder) (sectionName : string) (r : DNSRecord)
  : result Encoder :=
  '(name, e) ← encodeName e (r_name r) 0 true;
  let e := setPosition e (position e + len name) in
  type ← Constants.typeToNumber (r_type r);
  classValue ← Constants.classToNumber (r_class r);
  typeBuf ← writeUInt16BE type;
  let e := setPosition e (position e + 2) in
  classBuf ← writeUInt16BE classValue;
  let e := setPosition e (position e + 2) in
  if negb (String.eqb sectionName "question") then
    ttlBuf ← writeUInt32BE
      (match r_ttl r with Some t => if truthyZ t then t else 0 | None => 0 end);
    let e := setPosition e (position e + 4) in
    '(rdata, e) ← rdataOf e (labelText (r_class r) +:+ " " +:+ labelText (r_type r))
                    (r_data r);
    lengthBuf ← writeUInt16BE (Z.of_nat (length rdata));
    let e := setPosition e (position e + 2) in
    let e := setPosition e (position e + Z.of_nat (length rdata)) in
    pushSection e sectionName
      (name ++ typeBuf ++ classBuf ++ ttlBuf ++ lengthBuf ++ map toByte rdata)
  else
    pushSection e sectionName (name ++ typeBuf ++ classBuf).

(** The options of an OPT record: an option is written when
    [code > -1 && Buffer.isBuffer( data )], where the data of an option of
    the embedding is a buffer, and is passed over otherwise. *)
Fixpoint optionChunks (options : list Decode.EDNSOption)
  : result (Z * Buffer) :=
  match options with
  | [] => Ok (0, [])
  | o :: rest =>
      if Decode.code o >? -1 then
        code ← writeUInt16BE (Decode.code o);
        size ← writeUInt16BE (len (Decode.data o));
        '(length, chunks) ← optionChunks rest;
        Ok (4 + len (Decode.data o) + length,
            code ++ size ++ Decode.data o ++ chunks)
      else optionChunks rest
  end.

(** [ednsRecord( sectionName, record )]; [flags] is written as 16 bits at
    octet 4 of the eight octets behind the name. *)
Definition ednsRecord (e : Encoder) (sectionName : string) (edns : EDNS)
  : result Encoder :=
  '(name, e) ← encodeName e "" 0 true;
  let e := setPosition e (position e + len name) in
  let flags :=
    js_shl (js_and (extendedResult edns) 255) 24
    + js_shl (js_and (version edns) 255) 16
    + (if flagDO edns then 32768 else 0) in
  typeBuf ← writeUInt16BE 41;
  sizeBuf ← writeUInt16BE (udpSize edns);
  flagsBuf ← writeUInt16BE flags;
  let e := setPosition e (position e + 8) in
  '(length, chunks) ← optionChunks (options edns);
  optionsLength ← writeUInt16BE length;
  pushSection e sectionName
    (name ++ typeBuf ++ sizeBuf ++ flagsBuf ++ [x00; x00]
       ++ optionsLength ++ chunks).

Fixpoint records (e : Encoder) (sectionName : string) (rs : list DNSRecord)
  : result Encoder :=
  match rs with
  | [] => Ok e
  | r :: rest =>
      e ← match r_edns r with
          | Some edns => ednsRecord e sectionName edns
          | None => record e sectionName r
          end;
      records e sectionName rest
  end.

(** [opcodeNames.indexOf( msg.opcode )], with the check that the opcode is
    a string. *)
Fixpoint indexOf (names : list (option string)) (opcode : string) (i : Z)
  : option Z :=
  match names with
  | [] => None
  | n :: rest =>
      if bool_decide (n = Some opcode) then Some i
      else indexOf rest opcode (i + 1)
  end.

(** [buf.writeUInt8( value, at )] and [buf.writeUInt16BE( value, at )] on
    the header. *)
Definition patch (buf : Buffer) (at_ : nat) (octets : Buffer) : Buffer :=
  take at_ buf ++ octets ++ drop (at_ + length octets) buf.

(** [message( msg )] for an instance of [DNSMessage]. *)
Definition message (e : Encoder) (msg : DNSMessage) : result Encoder :=
  idBuf ← writeUInt16BE (default 0 (m_id msg));
  let e := setHeader e (patch (header e) 0 idBuf) in
  let byte := js_or 0 (if bool_decide (m_type msg = Some "response")
                       then 128 else 0) in
  let byte := js_or byte (if m_authoritative msg then 4 else 0) in
  let byte := js_or byte (if m_truncated msg then 2 else 0) in
  let byte := js_or byte (if m_recursionDesired msg then 1 else 0) in
  match m_opcode msg with
  | None => Err UnknownOpcode
  | Some name =>
      match indexOf opcodeNames name 0 with
      | None => Err UnknownOpcode
      | Some opcode =>
          let byte := js_or byte (js_shl (js_and opcode 15) 3) in
          flags1 ← writeUInt8 byte;
          let e := setHeader e (patch (header e) 2 flags1) in
          let byte := js_or 0 (if m_recursionAvailable msg then 128 else 0) in
          let byte := js_or byte (if m_authenticated msg then 32 else 0) in
          let byte := js_or byte (if m_checkingDisabled msg then 16 else 0) in
          let byte := js_or byte (js_and (default 0 (m_responseCode msg)) 15) in
          flags2 ← writeUInt8 byte;
          let e := setHeader e (patch (header e) 3 flags2) in
          let e := setPosition e 12 in
          e ← records e "question" (m_question msg);
          e ← records e "answer" (m_answer msg);
          e ← records e "authority" (m_authority msg);
          e ← records e "additional" (m_additional msg);
          qd ← writeUInt16BE (Z.of_nat (length (question e)));
          let e := setHeader e (patch (header e) 4 qd) in
          an ← writeUInt16BE (Z.of_nat (length (answer e)));
          let e := setHeader e (patch (header e) 6 an) in
          ns ← writeUInt16BE (Z.of_nat (length (authority e)));
          let e := setHeader e (patch (header e) 8 ns) in
          ar ← writeUInt16BE (Z.of_nat (length (additional e)));
          let e := setHeader e (patch (header e) 10 ar) in
          Ok e
      end
  end.

(** [DNSMessage.toBinary()]: [new Encoder().message( this ).toBinary()] *)
Definition messageToBinary (msg : DNSMessage) : result Buffer :=
  e ← message create msg;
  Ok (toBinary e).

End Encode.

(** ** Package interface (index) *)

Module Dnsd.

(** [decode( packet )] *)
Definition decode (packet : Buffer) : result Message.DNSMessage :=
  Message.construct (Message.OfBuffer packet).

(** The argument of [encode]: an instance of [DNSMessage], or a value the
    constructor is called with. *)
Inductive Encodable : Type :=
  | Instance (message : Message.DNSMessage)
  | Plain (body : Message.Body).

(** [encode( message )] *)
Definition encode (message : Encodable) : result Buffer :=
  msg ← match message with
        | Instance m => Ok m
        | Plain body => Message.construct body
        end;
  Encode.messageToBinary msg.

End Dnsd.


(** ** Server (server module) *)

Module Server.

Import Message.

(** *** Missing declarations *)

(** Modelled from the spec: the response codes of the constants module,
    [RCODES.FORMERR] and [RCODES.BADVERS]; the revision of the module that
    exports them is not among the sources. The spec gives BADVERS as 16
    and names FORMERR, which RFC 1035 numbers 1. *)
Definition FORMERR : Z := 1.
Definition BADVERS : Z := 16.

(** Modelled from the spec: [DNSMessage.findEDNSRecords()], which the
    message module among the sources does not define. Its callers read
    [length], [section] and [record.edns] of the result: the records that
    carry EDNS data, each with the name of its section, in section
    order. *)
Definition ednsIn (sectionName : string) (records : list DNSRecord)
  : list (string * DNSRecord) :=
  map (fun r => (sectionName, r))
    (filter (fun r => is_Some (r_edns r)) records).

Definition findEDNSRecords (msg : DNSMessage) : list (string * DNSRecord) :=
  ednsIn "question" (m_question msg) ++ ednsIn "answer" (m_answer msg)
    ++ ednsIn "authority" (m_authority msg)
    ++ ednsIn "additional" (m_additional msg).

(** *** Server and sockets *)

Inductive Transport : Type := UDP | TCP.

(** The object [zones]: the SOA records it has as own properties, under
    the names of their zones, and its prototype, which is
    [Object.prototype] ([None]) until a zone named [__proto__] is added,
    whose record then is the prototype. *)
Record Zones : Type := mkZones {
  own : gmap string DNSRecord;
  proto : option DNSRecord
}.

(** [ttl] is [options.ttl]. *)
Record DNSServer : Type := mkServer {
  zones : Zones;
  ttl : Z
}.

(** What [zones[name]] evaluates to, as far as [findZoneForName] and
    [end] tell values apart: the record of a zone, another truthy value,
    which is no record, or a falsy value. *)
Inductive ZoneProperty : Type :=
  | ZoneRecord (soaRecord : DNSRecord)
  | Foreign
  | Missing.

(** The properties a record made by [zone] has of its own, all of them
    truthy, and the methods of [DNSRecord.prototype]; the [ttl] that [end]
    gives a record it sends is not written back to the record of the
    zone. *)
Definition recordMembers : list string :=
  [ "name"; "type"; "class"; "data";
    "constructor"; "parse"; "kind"; "toString" ].

(** [zones[name]]: an own property; else what the chain of prototypes
    has, which ends in [Object.prototype]. *)
Definition zoneAt (zones : Zones) (name : string) : ZoneProperty :=
  if String.eqb name "__proto__" then
    match proto zones with
    | Some record => ZoneRecord record
    | None => Foreign
    end
  else
    match own zones !! name with
    | Some record => ZoneRecord record
    | None =>
        if inherited name then Foreign
        else match proto zones with
             | Some _ =>
                 if existsb (String.eqb name) recordMembers then Foreign
                 else Missing
             | None => Missing
             end
    end.

(** [createServer( handler, options )] with [options.ttl] defaulting to
    3600. *)
Definition createServer (optionsTtl : option Z) : DNSServer :=
  {| zones := {| own := ∅; proto := None |}; ttl := default 3600 optionsTtl |}.

(** [zone( ... )], the serial and the durations given as numbers. *)
Definition zone (server : DNSServer) (domainName primaryNameServer
    adminAddress : string) (serial refresh retry expire negTtl : Z)
  : DNSServer :=
  let record :=
    {| r_name := domainName; r_type := Some "SOA"; r_class := Some "IN";
       r_ttl := None;
       r_data := DSOA {| Decode.mname := primaryNameServer;
                         Decode.rname := adminAddress;
                         Decode.serial := serial;
                         Decode.refresh := refresh;
                         Decode.retry := retry;
                         Decode.expire := expire;
                         Decode.ttl := negTtl |};
       r_edns := None |} in
  {| zones :=
       if String.eqb (r_name record) "__proto__" then
         {| own := own (zones server); proto := Some record |}
       else
         {| own := <[r_name record := record]> (own (zones server));
            proto := proto (zones server) |};
     ttl := ttl server |}.

(** What a socket does for the server. *)
Inductive SocketAction : Type :=
  | Datagram (payload : Buffer)          (* udp.send( payload ) *)
  | EndConnection (data : option Buffer). (* connection.end( data ) *)

(** [socket.send( response )]: the actions taken, or the error the
    returned promise is rejected with. *)
Definition send (transport : Transport) (response : option Buffer)
  : result (list SocketAction) :=
  match transport, response with
  | UDP, None => Ok []
  | UDP, Some payload =>
      if len payload >? 512 then Err ResponseTooLarge
      else Ok [Datagram payload]
  | TCP, None => Ok [EndConnection None]
  | TCP, Some payload =>
      let length := len payload in
      if length >? 65535 then Err ResponseTooLarge
      else Ok [EndConnection
                 (Some ([toByte (js_shr length 8); toByte (js_and length 255)]
                          ++ payload))]
  end.

(** The octets a list of socket actions puts on the wire. *)
Definition transmitted (actions : list SocketAction) : list Buffer :=
  omap (fun a => match a with
                 | Datagram payload => Some payload
                 | EndConnection data => data
                 end) actions.

(** *** Zone lookup *)

(** The [while ( name.length > 0 )] loop of [findZoneForName]: the first
    truthy value found is returned, [Missing] stands for the [null]
    returned behind the loop. *)
Fixpoint findZoneLoop (fuel : nat) (zones : Zones) (name : string)
  : result ZoneProperty :=
  if Encode.strlen name >? 0 then
    match fuel with
    | O => Err Diverged
    | S fuel' =>
        match zoneAt zones name with
        | ZoneRecord soaRecord => Ok (ZoneRecord soaRecord)
        | Foreign => Ok Foreign
        | Missing =>
            match Encode.splitName name with
            | None => Err InvalidQueryName
            | Some (_, rest) => findZoneLoop fuel' zones (default "" rest)
            end
        end
    end
  else Ok Missing.

(** [findZoneForName( name )] *)
Definition findZoneForName (server : DNSServer) (name : string)
  : result ZoneProperty :=
  findZoneLoop (String.length name) (zones server) name.

(** The walk of the older revision of [end] (server.js), which strips a
    label before it looks a name up: [soaRecord] behind the loop. *)
Fixpoint findZoneInline (fuel : nat) (zones : Zones) (name : string)
  : result ZoneProperty :=
  if Encode.strlen name >? 0 then
    match fuel with
    | O => Err Diverged
    | S fuel' =>
        match Encode.splitName name with
        | None => Err InvalidQueryName
        | Some (_, rest) =>
            let name := default "" rest in
            match zoneAt zones name with
            | ZoneRecord soaRecord => Ok (ZoneRecord soaRecord)
            | Foreign => Ok Foreign
            | Missing => findZoneInline fuel' zones name
            end
        end
    end
  else Ok Missing.

(** *** Requests and responses *)

Record DNSResponse : Type := mkResponse {
  message : DNSMessage;
  requestorEDNS : option EDNS
}.

(** [new DNSRequest( query, connection )] *)
Definition newRequest (query : Body) : result DNSMessage :=
  construct query.

Definition setType (msg : DNSMessage) (t : option string) : DNSMessage :=
  {| m_id := m_id msg; m_type := t;
     m_responseCode := m_responseCode msg; m_opcode := m_opcode msg;
     m_authoritative := m_authoritative msg; m_truncated := m_truncated msg;
     m_recursionDesired := m_recursionDesired msg;
     m_recursionAvailable := m_recursionAvailable msg;
     m_authenticated := m_authenticated msg;
     m_checkingDisabled := m_checkingDisabled msg;
     m_question := m_question msg; m_answer := m_answer msg;
     m_authority := m_authority msg; m_additional := m_additional msg |}.

(** [new DNSResponse( data, connection )]. With one EDNS record, found in
    the additional section, the constructor reads [ednsRecords.record],
    a property an array does not have, and [undefined.edns] throws. *)
Definition newResponse (data : Body) : result DNSResponse :=
  msg ← construct data;
  requestor ←
    match findEDNSRecords msg with
    | [(sectionName, _)] =>
        if String.eqb sectionName "additional" then Err JsTypeError
        else Ok None
    | _ => Ok None
    end;
  Ok {| message := setType msg (Some "response"); requestorEDNS := requestor |}.

Definition setSections (msg : DNSMessage)
    (answer authority additional : list DNSRecord) : DNSMessage :=
  {| m_id := m_id msg; m_type := m_type msg;
     m_responseCode := m_responseCode msg; m_opcode := m_opcode msg;
     m_authoritative := m_authoritative msg; m_truncated := m_truncated msg;
     m_recursionDesired := m_recursionDesired msg;
     m_recursionAvailable := m_recursionAvailable msg;
     m_authenticated := m_authenticated msg;
     m_checkingDisabled := m_checkingDisabled msg;
     m_question := m_question msg; m_answer := answer;
     m_authority := authority; m_additional := additional |}.

Definition pushAnswer (r : DNSRecord) (msg : DNSMessage) : DNSMessage :=
  setSections msg (m_answer msg ++ [r]) (m_authority msg) (m_additional msg).
Definition pushAuthority (r : DNSRecord) (msg : DNSMessage) : DNSMessage :=
  setSections msg (m_answer msg) (m_authority msg ++ [r]) (m_additional msg).
Definition pushAdditional (r : DNSRecord) (msg : DNSMessage) : DNSMessage :=
  setSections msg (m_answer msg) (m_authority msg) (m_additional msg ++ [r]).

(** [that.recursionAvailable = false; that.authoritative = true] *)
Definition markAuthoritative (msg : DNSMessage) : DNSMessage :=
  {| m_id := m_id msg; m_type := m_type msg;
     m_responseCode := m_responseCode msg; m_opcode := m_opcode msg;
     m_authoritative := true; m_truncated := m_truncated msg;
     m_recursionDesired := m_recursionDesired msg;
     m_recursionAvailable := false;
     m_authenticated := m_authenticated msg;
     m_checkingDisabled := m_checkingDisabled msg;
     m_question := m_question msg; m_answer := m_answer msg;
     m_authority := m_authority msg; m_additional := m_additional msg |}.

Definition setResponseCode (code : Z) (msg : DNSMessage) : DNSMessage :=
  {| m_id := m_id msg; m_type := m_type msg;
     m_responseCode := Some code; m_opcode := m_opcode msg;
     m_authoritative := m_authoritative msg; m_truncated := m_truncated msg;
     m_recursionDesired := m_recursionDesired msg;
     m_recursionAvailable := m_recursionAvailable msg;
     m_authenticated := m_authenticated msg;
     m_checkingDisabled := m_checkingDisabled msg;
     m_question := m_question msg; m_answer := m_answer msg;
     m_authority := m_authority msg; m_additional := m_additional msg |}.

Definition onMessage (f : DNSMessage -> DNSMessage) (r : DNSResponse)
  : DNSResponse :=
  {| message := f (message r); requestorEDNS := requestorEDNS r |}.

(** [addEDNSReply( response, requestorEDNS )] *)
Definition ednsReply (requestor : option EDNS) : DNSRecord :=
  {| r_name := ""; r_type := Some "OPT"; r_class := Some "IN";
     r_ttl := None; r_data := DUndefined;
     r_edns := Some
       {| udpSize :=
            Z.max (match requestor with
                   | Some edns => if truthyZ (udpSize edns) then udpSize edns
                                  else 512
                   | None => 512
                   end) 512;
          extendedResult := 0; version := 0; flagDO := false; flags := 0;
          options := [] |} |}.

Definition addEDNSReply (response : DNSResponse) (requestor : option EDNS)
  : DNSResponse :=
  onMessage (pushAdditional (ednsReply requestor)) response.

(** *** [DNSResponse.end] *)

(** The argument of [end]. *)
Inductive EndValue : Type :=
  | VUndefined
  | VArray (records : list DNSRecord)
  | VObject (body : Body)
  | VString (text : string).

(** The response [end] is called on and the response it sends, which are
    one object ([same]) unless [end] got an object to adopt. *)
Record Responses : Type := mkResponses {
  same : bool;
  this : DNSResponse;
  that : DNSResponse
}.

Definition onThat (f : DNSMessage -> DNSMessage) (st : Responses)
  : Responses :=
  if same st then
    {| same := true; this := onMessage f (this st);
       that := onMessage f (this st) |}
  else
    {| same := false; this := this st; that := onMessage f (that st) |}.

Definition onThis (f : DNSResponse -> DNSResponse) (st : Responses)
  : Responses :=
  if same st then
    {| same := true; this := f (this st); that := f (this st) |}
  else
    {| same := false; this := f (this st); that := that st |}.

(** [wellFormedRecord( record, minTTL )] *)
Definition wellFormedRecord (minTTL : Z) (r : DNSRecord) : DNSRecord :=
  {| r_name := r_name r; r_type := r_type r;
     r_class := if truthyS (default "" (r_class r)) then r_class r
                else Some "IN";
     r_ttl := if negb (truthyZ (default 0 (r_ttl r))) && negb (is_Some_b (r_edns r))
              then Some minTTL else r_ttl r;
     r_data := r_data r; r_edns := r_edns r |}.

Definition wellFormed (minTTL : Z) (msg : DNSMessage) : DNSMessage :=
  setSections msg (map (wellFormedRecord minTTL) (m_answer msg))
    (map (wellFormedRecord minTTL) (m_authority msg))
    (map (wellFormedRecord minTTL) (m_additional msg)).

(** [soaRecord.data.ttl] *)
Definition soaTtl (soaRecord : DNSRecord) : result (option Z) :=
  match r_data soaRecord with
  | DUndefined => Err JsTypeError
  | DSOA soa => Ok (Some (Decode.ttl soa))
  | _ => Ok None
  end.

(** The first steps of [end]: an array is appended to [this.answer], an
    object is adopted as the response to send; what is left of [value]
    is a string or nothing. *)
Definition adopt (r : DNSResponse) (value : EndValue)
  : result (Responses * option string) :=
  match value with
  | VArray records =>
      let r := onMessage
                 (fun m => setSections m (m_answer m ++ records)
                             (m_authority m) (m_additional m)) r in
      Ok ({| same := true; this := r; that := r |}, None)
  | VObject body =>
      fresh ← newResponse body;
      Ok ({| same := false; this := r; that := fresh |}, None)
  | VString text => Ok ({| same := true; this := r; that := r |}, Some text)
  | VUndefined => Ok ({| same := true; this := r; that := r |}, None)
  end.

(** A pass of the loop over the questions either goes on with the
    responses or makes [end] return a rejected promise. *)
Inductive Pass : Type :=
  | Continue (st : Responses)
  | Reject (e : error).

(** The body of [for ( const question of questions )]. *)
Definition perQuestion (server : DNSServer) (value : option string)
    (numQuestions : nat) (st : Responses) (question : DNSRecord)
  : result Pass :=
  found ← findZoneForName server (r_name question);
  match found with
  | Missing => Ok (Continue st)
  | Foreign =>
      (* a member of the prototype chain has no [data], so that reading
         [soaRecord.data.ttl] throws, unless the pass has returned before *)
      if String.eqb (kind question) "IN A" && is_Some_b value
         && bool_decide (m_answer (message (that st)) = [])
         && (1 <? numQuestions)%nat
      then Ok (Reject MultipleQuestions)
      else Err JsTypeError
  | ZoneRecord soaRecord =>
      let answerEmpty st := bool_decide (m_answer (message (that st)) = []) in
      let authorityEmpty st :=
        bool_decide (m_authority (message (that st)) = []) in
      let switched :=
        if String.eqb (kind question) "IN A" then
          match value with
          | Some text =>
              if answerEmpty st then
                if (1 <? numQuestions)%nat then Reject MultipleQuestions
                else Continue
                  (onThat (pushAnswer
                     {| r_name := r_name question; r_type := Some "A";
                        r_class := Some "IN"; r_ttl := None;
                        r_data := DString text; r_edns := None |}) st)
              else Continue st
          | None => Continue st
          end
        else if String.eqb (kind question) "IN SOA" then
          if (numQuestions =? 1)%nat && answerEmpty st
             && String.eqb (r_name soaRecord) (r_name question)
          then Continue (onThat (pushAnswer soaRecord) st)
          else Continue st
        else Continue st in
      match switched with
      | Reject e => Ok (Reject e)
      | Continue st =>
          let st :=
            if (numQuestions =? 1)%nat && answerEmpty st && authorityEmpty st
            then onThat (pushAuthority soaRecord) st else st in
          soaTtl ← soaTtl soaRecord;
          let minTTL :=
            Z.max (if truthyZ (default 0 soaTtl) then default 0 soaTtl else 1)
              1 in
          Ok (Continue (onThat (wellFormed minTTL) st))
      end
  end.

Fixpoint perQuestions (server : DNSServer) (value : option string)
    (numQuestions : nat) (st : Responses) (questions : list DNSRecord)
  : result Pass :=
  match questions with
  | [] => Ok (Continue st)
  | question :: rest =>
      pass ← perQuestion server value numQuestions st question;
      match pass with
      | Reject e => Ok (Reject e)
      | Continue st => perQuestions server value numQuestions st rest
      end
  end.

(** [ednsResponse.edns.extendedResult = ...] on the first record of the
    message that carries EDNS data. *)
Definition setExtendedResult (x : Z) (r : DNSRecord) : DNSRecord :=
  {| r_name := r_name r; r_type := r_type r; r_class := r_class r;
     r_ttl := r_ttl r; r_data := r_data r;
     r_edns := (fun e => {| udpSize := udpSize e; extendedResult := x;
                            version := version e; flagDO := flagDO e;
                            flags := flags e; options := options e |})
               <$> r_edns r |}.

Fixpoint onFirstEDNS (f : DNSRecord -> DNSRecord) (records : list DNSRecord)
  : option (list DNSRecord) :=
  match records with
  | [] => None
  | r :: rest =>
      if is_Some_b (r_edns r) then Some (f r :: rest)
      else (fun rest' => r :: rest') <$> onFirstEDNS f rest
  end.

Definition onFirstEDNSOf (f : DNSRecord -> DNSRecord) (msg : DNSMessage)
  : DNSMessage :=
  let with_ q an ns ar :=
    {| m_id := m_id msg; m_type := m_type msg;
       m_responseCode := m_responseCode msg; m_opcode := m_opcode msg;
       m_authoritative := m_authoritative msg; m_truncated := m_truncated msg;
       m_recursionDesired := m_recursionDesired msg;
       m_recursionAvailable := m_recursionAvailable msg;
       m_authenticated := m_authenticated msg;
       m_checkingDisabled := m_checkingDisabled msg;
       m_question := q; m_answer := an;
       m_authority := ns; m_additional := ar |} in
  match onFirstEDNS f (m_question msg) with
  | Some q => with_ q (m_answer msg) (m_authority msg) (m_additional msg)
  | None =>
  match onFirstEDNS f (m_answer msg) with
  | Some an => with_ (m_question msg) an (m_authority msg) (m_additional msg)
  | None =>
  match onFirstEDNS f (m_authority msg) with
  | Some ns => with_ (m_question msg) (m_answer msg) ns (m_additional msg)
  | None =>
  match onFirstEDNS f (m_additional msg) with
  | Some ar => with_ (m_question msg) (m_answer msg) (m_authority msg) ar
  | None => msg
  end end end end.

(** The EDNS part of [end], which works on [this]: a second rejection
    site, the reply record, and the upper bits of the response code. *)
Definition ensureEDNS (st : Responses) : Pass :=
  let ednsRecords := findEDNSRecords (message (this st)) in
  let code := default 0 (m_responseCode (message (this st))) in
  let wanted := is_Some_b (requestorEDNS (this st)) || (code >? 15) in
  if wanted && (1 <? length ednsRecords)%nat then Reject InvalidEDNSResponse
  else
    let st :=
      if wanted && bool_decide (ednsRecords = []) then
        onThis (fun r => addEDNSReply r (requestorEDNS r)) st
      else st in
    if code >? 15 then
      Continue
        (onThis (onMessage
           (onFirstEDNSOf (setExtendedResult (js_shr (js_and code 4080) 4))))
           st)
    else Continue st.

(** What [end] leaves behind: the responses as they stand and the promise
    it returns, resolved with the actions of the socket or rejected. *)
Record Ended : Type := mkEnded {
  responses : Responses;
  promise : result (list SocketAction)
}.

(** [that.answer.length > 0 || this.authority.length > 0] *)
Definition hasPayload (st : Responses) : bool :=
  negb (bool_decide (m_answer (message (that st)) = []))
  || negb (bool_decide (m_authority (message (this st)) = [])).

(** [response.end( value )] on a response of [server] that arrived over
    [transport]; an [Err] is an exception [end] throws. *)
Definition end_ (server : DNSServer) (transport : Transport)
    (r : DNSResponse) (value : EndValue) : result Ended :=
  '(st, text) ← adopt r value;
  let st := onThat markAuthoritative st in
  let questions := m_question (message (that st)) in
  pass ← perQuestions server text (length questions) st questions;
  match pass with
  | Reject e => Ok {| responses := st; promise := Err e |}
  | Continue st =>
      match ensureEDNS st with
      | Reject e => Ok {| responses := st; promise := Err e |}
      | Continue st =>
          payload ←
            (if hasPayload st
             then Some <$> Encode.messageToBinary (message (that st))
             else Ok None);
          Ok {| responses := st; promise := send transport payload |}
      end
  end.

(** *** Dispatch *)

(** What the server does on incoming data: it emits a request event,
    which runs the handler, it has a socket act, or it logs the error of
    a rejected promise. *)
Inductive Event : Type :=
  | Request (request : DNSMessage) (response : DNSResponse)
  | Socket (action : SocketAction)
  | ConsoleError (e : error).

(** [respondOnInvalidEDNS( response, requestorEDNS, resultCode )] *)
Definition respondOnInvalidEDNS (server : DNSServer) (transport : Transport)
    (response : DNSResponse) (requestor : option EDNS) (resultCode : Z)
  : result (list Event) :=
  let response := addEDNSReply response requestor in
  let response := onMessage (setResponseCode resultCode) response in
  ended ← end_ server transport response VUndefined;
  match promise ended with
  | Ok actions => Ok (map Socket actions)
  | Err e => Ok [ConsoleError e]
  end.

(** [isValidEDNS( request, response )]: whether the handler may run, and
    what the server did itself. *)
Definition isValidEDNS (server : DNSServer) (transport : Transport)
    (request : DNSMessage) (response : DNSResponse)
  : result (bool * list Event) :=
  match findEDNSRecords request with
  | [] => Ok (true, [])
  | [(sectionName, record)] =>
      if negb (String.eqb sectionName "additional") then
        events ← respondOnInvalidEDNS server transport response None FORMERR;
        Ok (false, events)
      else
        match r_edns record with
        | Some edns =>
            if version edns >? 0 then
              events ← respondOnInvalidEDNS server transport response
                         (Some edns) BADVERS;
              Ok (false, events)
            else Ok (true, [])
        | None => Ok (true, [])
        end
  | _ :: _ :: _ =>
      events ← respondOnInvalidEDNS server transport response None FORMERR;
      Ok (false, events)
  end.

(** The request and the response of a received message, and the
    dispatch of the two: the common part of [onUdp] and of the data
    handler of [onTcpConnection]. *)
Definition dispatch (server : DNSServer) (transport : Transport)
    (query : Buffer) : result (list Event) :=
  request ← newRequest (OfBuffer query);
  response ← newResponse (OfBuffer query);
  '(valid, events) ← isValidEDNS server transport request response;
  Ok (events ++ (if valid : bool then [Request request response] else [])).

(** [onUdp( query, info )] *)
Definition onUdp (server : DNSServer) (query : Buffer) : result (list Event) :=
  dispatch server UDP query.

(** The variables the data handler of a TCP connection closes over. *)
Record Connection : Type := mkConnection {
  expecting : Z;
  received : Z;
  chunks : list Buffer
}.

(** [onTcpConnection( connection )]: the state of a new connection. *)
Definition onTcpConnection : Connection :=
  {| expecting := -1; received := 0; chunks := [] |}.

(** [while ( chunks[0].length < 2 ) chunks.splice( 0, 2, Buffer.concat(
    chunks.slice( 0, 2 ) ) )]: a pass with two chunks or more leaves one
    chunk less; with a single short chunk the loop never ends. *)
Fixpoint joinHead (fuel : nat) (chunks : list Buffer) : result (list Buffer) :=
  match chunks with
  | [] => Err JsTypeError
  | first :: rest =>
      if len first <? 2 then
        match fuel with
        | O => Err Diverged
        | S fuel' =>
            joinHead fuel'
              match rest with
              | [] => [first]
              | second :: others => (first ++ second) :: others
              end
        end
      else Ok chunks
  end.

(** The handler of the [data] event: the connection afterwards and the
    events, or the exception the handler throws, in which case the
    assignments made before it stand. *)
Definition onData (server : DNSServer) (c : Connection) (chunk : Buffer)
  : Connection * result (list Event) :=
  let chunks := chunks c ++ [chunk] in
  let received := received c + len chunk in
  let c := {| expecting := expecting c; received := received;
              chunks := chunks |} in
  let measured :=
    if (expecting c <? 0) && (received >=? 2) then
      match joinHead (length chunks) chunks with
      | Err e => (c, Err e)
      | Ok chunks =>
          let c := {| expecting := expecting c; received := received;
                      chunks := chunks |} in
          match readUInt16BE (default [] (head chunks)) 0 with
          | Err e => (c, Err e)
          | Ok expecting =>
              ({| expecting := expecting; received := received;
                  chunks := chunks |}, Ok tt)
          end
      end
    else (c, Ok tt) in
  match measured with
  | (c, Err e) => (c, Err e)
  | (c, Ok _) =>
      if (expecting c >? -1) && (received >=? 2 + expecting c) then
        let buf := sliceFrom (concat (Server.chunks c)) 2 in
        let message := slice buf 0 (expecting c) in
        match dispatch server TCP message with
        | Err e => (c, Err e)
        | Ok events =>
            let expecting := -1 in
            let received := len buf - expecting in
            let chunks :=
              if received >? 0 then [sliceFrom buf expecting] else [] in
            ({| expecting := expecting; received := received;
                chunks := chunks |}, Ok events)
        end
      else (c, Ok [])
  end.

(** The data events of one connection, one after the other; an exception
    ends the run. *)
Fixpoint onDataEvents (server : DNSServer) (c : Connection)
    (events : list Buffer) : Connection * result (list Event) :=
  match events with
  | [] => (c, Ok [])
  | chunk :: rest =>
      match onData server c chunk with
      | (c, Err e) => (c, Err e)
      | (c, Ok first) =>
          match onDataEvents server c rest with
          | (c, Err e) => (c, Err e)
          | (c, Ok others) => (c, Ok (first ++ others))
          end
      end
  end.

End Server.

(** * Vocabulary of the statements *)

(** ** Name decoding *)

(** The pointer that stands at [at_] in [buf], when the two octets there
    are a pointer: the target a pass of [compileName] would follow. *)
Definition pointerAt (buf : Buffer) (at_ : Z) : option Z :=
  match readUInt8 buf at_, readUInt8 buf (at_ + 1) with
  | Ok byte, Ok low =>
      if Z.land byte 192 =? 192
      then Some (Z.shiftl (Z.land byte 63) 8 + low) else None
  | _, _ => None
  end.

(** [follows fullMessage offset st targets st']: the loop of
    [compileName] gets from [st] to [st'], and [targets] are the targets of
    the pointers it follows on the way, in order. *)
Inductive follows (fullMessage : Buffer) (offset : Z)
  : Decode.cnState -> list Z -> Decode.cnState -> Prop :=
  | follows_here st : follows fullMessage offset st [] st
  | follows_pass st st' targets st'' :
      Decode.labelLength st > 0 ->
      Decode.iterate fullMessage offset st = Ok st' ->
      follows fullMessage offset st' targets st'' ->
      follows fullMessage offset st
        (option_list (pointerAt (Decode.buffer st) (Decode.cursor st))
           ++ targets) st''.

(** The octets a name occupies in the stream it starts in, in the words
    of the decoder contract: the labels up to the zero label that ends the
    name, or up to the first pointer, whose two octets count; [None] when
    the stream ends early or a label has a reserved type. *)
Fixpoint octetsOfName (fuel : nat) (stream : Buffer) : option Z :=
  match fuel, stream with
  | S fuel', b :: rest =>
      if Z.land (octet b) 192 =? 192 then Some 2
      else if octet b =? 0 then Some 1
      else if octet b <? 64 then
        n ← octetsOfName fuel' (drop (Z.to_nat (octet b)) rest);
        Some (1 + octet b + n)
      else None
  | _, _ => None
  end.

(** The bound the cursor and the cache of [compileName] respect, and the
    measure every pass lowers. *)
Definition bounded (fullMessage : Buffer) (bound : Z) (st : Decode.cnState)
  : Prop :=
  len (Decode.buffer st) <= bound /\
  0 <= Decode.cursor st <= bound + 64 /\
  (forall p, p ∈ Decode.pointersCache st -> 0 <= p < len fullMessage).

Definition measure (fullMessage : Buffer) (bound : Z) (st : Decode.cnState)
  : Z :=
  (len fullMessage - Z.of_nat (size (Decode.pointersCache st))) * (bound + 65)
  + (bound + 64 - Decode.cursor st).

(** ** Names that [decode] decodes *)

(** The position at which the walk of [sections] enters a section: octet
    12, or the position behind the last record of the section before. *)
Definition sectionStart (msg : Buffer) (sectionName : string) : result Z :=
  if String.eqb sectionName "question" then Ok 12
  else if String.eqb sectionName "answer" then
    snd <$> Decode.section msg "question" 12
  else if String.eqb sectionName "authority" then
    '(_, position) ← Decode.section msg "question" 12;
    snd <$> Decode.section msg "answer" position
  else if String.eqb sectionName "additional" then
    '(_, position) ← Decode.section msg "question" 12;
    '(_, position) ← Decode.section msg "answer" position;
    snd <$> Decode.section msg "authority" position
  else Err UnknownSection.

(** The records of the sections in front of [sectionName] are parsed
    without an exception. *)
Definition parsedBefore (msg : Buffer) (s : Decode.ParsedSectionsData)
    (sectionName : string) : bool :=
  if String.eqb sectionName "question" then true
  else if String.eqb sectionName "answer" then
    is_ok (Message.parseSection msg "question" s)
  else if String.eqb sectionName "authority" then
    is_ok (Message.parseSection msg "question" s)
    && is_ok (Message.parseSection msg "answer" s)
  else if String.eqb sectionName "additional" then
    is_ok (Message.parseSection msg "question" s)
    && is_ok (Message.parseSection msg "answer" s)
    && is_ok (Message.parseSection msg "authority" s)
  else false.

(** The offsets in the RDATA of a record of kind [kindOfRecord] at which
    a name is decoded: the name of NS, CNAME and PTR data; the name behind
    the preference of MX data; the target behind priority, weight and port
    of SRV data; the two names of SOA data, the second behind the octets
    of the first. *)
Definition rdataNames (msg rdata : Buffer) (kindOfRecord : string) : list Z :=
  if String.eqb kindOfRecord "IN NS" || String.eqb kindOfRecord "IN CNAME"
     || String.eqb kindOfRecord "IN PTR" then [0]
  else if String.eqb kindOfRecord "IN MX" then
    if is_ok (readUInt16BE rdata 0) then [2] else []
  else if String.eqb kindOfRecord "IN SRV" then
    if is_ok (readUInt16BE rdata 0) && is_ok (readUInt16BE rdata 2)
       && is_ok (readUInt16BE rdata 4)
    then [6] else []
  else if String.eqb kindOfRecord "IN SOA" then
    0 :: match Decode.compileName msg (Some rdata) 0 with
         | Ok (_, mlen) => [mlen]
         | Err _ => []
         end
  else [].

(** [nameDecoded msg slice offset]: [decode], run on [msg], gets to decode
    the name at [offset] of [slice], or of [msg] itself. That is the owner
    name of a record when the walk of [sections] has passed the records in
    front of it, and a name in the RDATA of a record behind the question
    section when [sections] has returned and the records in front of it
    are parsed. *)
Inductive nameDecoded (msg : Buffer) : option Buffer -> Z -> Prop :=
  | owner_decoded sectionName start count k records position :
      sectionStart msg sectionName = Ok start ->
      Decode.recordCount msg sectionName = Ok count ->
      Z.of_nat k < count ->
      Decode.sectionRecords msg sectionName k start = Ok (records, position) ->
      nameDecoded msg None position
  | rdata_decoded sectionName s count k prior name class type ttl rdata
      classLabel typeLabel offset :
      Decode.sections msg = Ok s ->
      parsedBefore msg s sectionName = true ->
      String.eqb sectionName "question" = false ->
      Decode.recordCount msg sectionName = Ok count ->
      Z.of_nat k < count ->
      Message.parseRecords msg sectionName s k 0 = Ok prior ->
      Decode.getRecord s sectionName (Z.of_nat k)
      = Ok (Decode.RawRegular name class type ttl (Some rdata)) ->
      Constants.classToLabel class = Ok (Some classLabel) ->
      Constants.typeToLabel type = Ok (Some typeLabel) ->
      classLabel <> "" -> typeLabel <> "" ->
      In offset (rdataNames msg rdata (classLabel +:+ " " +:+ typeLabel)) ->
      nameDecoded msg (Some rdata) offset.

(** ** Registry *)

(** Every label of [mapping] whose code lies between 1 and 65535 is what
    [toLabel] gives for the code, and [toNumber] gives the code back. *)
Definition roundtrips (mapping : list (Z * option string))
    (toLabel : Z -> result (option string))
    (toNumber : option string -> result Z) : bool :=
  forallb
    (fun kv =>
       match kv.2 with
       | Some l =>
           if (1 <=? kv.1) && (kv.1 <=? 65535) then
             match toLabel kv.1 with
             | Ok (Some l') => String.eqb l' l
             | _ => false
             end
             && match toNumber (Some l) with
                | Ok n => n =? kv.1
                | Err _ => false
                end
           else true
       | None => true
       end)
    mapping.

(** ** Name encoding *)

(** A label as the label pattern accepts it: 1 to 63 characters, none a
    dot or white space. *)
Definition isLabel (l : string) : Prop :=
  1 <= Encode.strlen l <= 63 /\ Encode.allChars Encode.isLabelChar l = true.

(** What may follow a label and a dot: a name that starts with a label
    character and holds no line terminator. *)
Definition isTail (rest : string) : Prop :=
  (exists c rest', rest = String c rest' /\ Encode.isLabelChar c = true)
  /\ Encode.noLineTerminator rest = true.

(** [labels] in front of [suffix], each followed by a dot. *)
Fixpoint prepend (labels : list string) (suffix : string) : string :=
  match labels with
  | [] => suffix
  | l :: rest => l +:+ "." +:+ prepend rest suffix
  end.

(** The octet of value [n], for [n] from 0 to 255. *)
Definition octetOf (n : Z) : byte := default x00 (Byte.of_N (Z.to_N n)).

(** A label on the wire: the octet of its length and the octets of the
    codes of its characters. *)
Definition labelOctets (l : string) : Buffer :=
  octetOf (Z.of_nat (String.length l))
    :: map (fun c => octetOf (Z.of_N (N_of_ascii c))) (list_ascii_of_string l).



(** The encoder while it encodes a message: it writes behind the header,
    and what it has recorded lies behind the header. *)
Definition inMessage (e : Encode.Encoder) : Prop :=
  12 <= Encode.position e /\
  map_Forall (fun _ offset => 12 <= offset) (Encode.domains e).

(** ** Record kinds *)

(** The combinations of class and type named as supported. *)
Definition supportedKinds : list string :=
  [ "IN A"; "IN AAAA"; "IN NS"; "IN CNAME"; "IN PTR"; "IN TXT"; "IN MX";
    "IN SRV"; "IN SOA"; "IN DS"; "IN OPT"; "NONE A" ].

(** The sections behind the question section. *)
Definition recordSections : list string :=
  [ "answer"; "authority"; "additional" ].

(** ** Transport *)

(** A message as it stands in a TCP stream: its length in two octets,
    big endian, and the message. *)
Definition frame (message : Buffer) : Buffer :=
  [toByte (len message / 256); toByte (len message)] ++ message.

(** The request events among the events of the server. *)
Definition requests (events : list Server.Event) : list Message.DNSMessage :=
  omap (fun ev => match ev with
                  | Server.Request request _ => Some request
                  | _ => None
                  end) events.

(** What the events of the server put on the wire. *)
Definition sent (events : list Server.Event) : list Buffer :=
  Server.transmitted
    (omap (fun ev => match ev with
                     | Server.Socket action => Some action
                     | _ => None
                     end) events).

(** The ids of the requests a run of the server dispatches, in order. *)
Definition requestIds (run : result (list Server.Event))
  : result (list (option Z)) :=
  match run with
  | Ok events => Ok (map Message.m_id (requests events))
  | Err e => Err e
  end.

(** * Properties *)

(** ** Registry round trip *)

Lemma get_In mapping v o :
  Constants.get mapping v = Some o -> In (v, o) mapping.
Proof.
  induction mapping as [|[k w] rest IH]; simpl; [discriminate|].
  destruct (Z.eqb_spec k v) as [->|_].
  - intros [= <-]. now left.
  - intros H. right. now apply IH.
Qed.

Lemma roundtrips_sound mapping toLabel toNumber v l :
  roundtrips mapping toLabel toNumber = true ->
  1 <= v <= 65535 ->
  Constants.get mapping v = Some (Some l) ->
  toLabel v = Ok (Some l) /\ toNumber (Some l) = Ok v.
Proof.
  intros Hall Hv Hget. apply get_In in Hget.
  unfold roundtrips in Hall. rewrite forallb_forall in Hall.
  specialize (Hall _ Hget). simpl in Hall.
  destruct (Z.leb_spec 1 v); [|lia].
  destruct (Z.leb_spec v 65535); [|lia]. simpl in Hall.
  destruct (toLabel v) as [[l'|]|]; try discriminate.
  destruct (toNumber (Some l)) as [n|]; [|now rewrite andb_false_r in Hall].
  apply andb_true_iff in Hall as [Hl Hn].
  apply String.eqb_eq in Hl. apply Z.eqb_eq in Hn. now subst.
Qed.

(** C10. A type code or class code between 1 and 65535 that the registry
    gives a label of its own (a string of the table, neither [null] nor
    the computed "Private use") is mapped to that label, and the label is
    mapped back to the code. *)
Theorem registry_roundtrip (v : Z) (label : string) :
  1 <= v <= 65535 ->
  (Constants.get Constants.TYPE_LABELS v = Some (Some label) ->
   Constants.typeToLabel v = Ok (Some label)
   /\ Constants.typeToNumber (Some label) = Ok v)
  /\ (Constants.get Constants.CLASS_LABELS v = Some (Some label) ->
      Constants.classToLabel v = Ok (Some label)
      /\ Constants.classToNumber (Some label) = Ok v).
Proof.
  intros Hv. split; intros Hget.
  - apply (roundtrips_sound Constants.TYPE_LABELS);
      [vm_compute; reflexivity|assumption|assumption].
  - apply (roundtrips_sound Constants.CLASS_LABELS);
      [vm_compute; reflexivity|assumption|assumption].
Qed.

Lemma registry_roundtrip_witness :
  (Constants.typeToLabel 28 = Ok (Some "AAAA")
   /\ Constants.typeToNumber (Some "AAAA") = Ok 28)
  /\ (Constants.classToLabel 65535 = Ok (Some "reserved")
      /\ Constants.classToNumber (Some "reserved") = Ok 65535).
Proof.
  split.
  - apply (registry_roundtrip 28 "AAAA"); [lia|reflexivity].
  - apply (registry_roundtrip 65535 "reserved"); [lia|reflexivity].
Defined.

(** ** Buffer reads *)

Lemma octet_range b : 0 <= octet b < 256.
Proof.
  unfold octet. pose proof (Byte.to_N_bounded b). lia.
Qed.

Lemma readUInt8_Ok buf i v :
  readUInt8 buf i = Ok v -> 0 <= i < len buf /\ 0 <= v < 256.
Proof.
  unfold readUInt8, len. destruct (i <? 0) eqn:Hi; [discriminate|].
  apply Z.ltb_ge in Hi.
  destruct (buf !! Z.to_nat i) as [b|] eqn:Hb; [|discriminate].
  intros [= <-]. apply lookup_lt_Some in Hb.
  split; [lia | apply octet_range].
Qed.

Lemma readUInt8_Err buf i e : readUInt8 buf i = Err e -> e = RangeError.
Proof.
  unfold readUInt8. destruct (i <? 0); [congruence|].
  destruct (buf !! Z.to_nat i); congruence.
Qed.

(** ** The name decoder terminates *)

Section CompileName.
Import Decode.
Variable fullMessage : Buffer.
Variable offset : Z.

Abbreviation iterate := (Decode.iterate fullMessage offset).
Abbreviation loop := (Decode.loop fullMessage offset).

Lemma pointerAt_range buf at_ p :
  pointerAt buf at_ = Some p -> 0 <= p < 16384.
Proof.
  unfold pointerAt.
  destruct (readUInt8 buf at_) as [byte|] eqn:H1; [|discriminate].
  destruct (readUInt8 buf (at_ + 1)) as [low|] eqn:H2; [|discriminate].
  destruct (Z.land byte 192 =? 192); [|discriminate]. intros [= <-].
  apply readUInt8_Ok in H2 as [_ Hlow].
  assert (0 <= Z.land byte 63 < 64).
  { change 63 with (Z.ones 6). rewrite Z.land_ones by lia.
    apply Z.mod_pos_bound. lia. }
  rewrite Z.shiftl_mul_pow2 by lia. change (2 ^ 8) with 256. lia.
Qed.

Lemma iterate_pointer st p :
  pointerAt (buffer st) (cursor st) = Some p ->
  iterate st =
    if p >=? len fullMessage then Err InvalidPointer
    else if bool_decide (p ∈ pointersCache st) then Err PointerCycle
    else Ok {| buffer := fullMessage; cursor := p;
               labelLength := labelLength st; segments := segments st;
               pointersCache := {[ p ]} ∪ pointersCache st;
               numOctets := if metPointer st then numOctets st
                            else cursor st + 1 + 1 - offset;
               metPointer := true |}.
Proof.
  unfold pointerAt, Decode.iterate.
  destruct (readUInt8 (buffer st) (cursor st)) as [byte|]; [|discriminate].
  destruct (readUInt8 (buffer st) (cursor st + 1)) as [low|]; [|discriminate].
  simpl. destruct (Z.land byte 192 =? 192); [|discriminate].
  now intros [= <-].
Qed.

Lemma iterate_not_diverged st : iterate st <> Err Diverged.
Proof.
  unfold Decode.iterate.
  destruct (readUInt8 (buffer st) (cursor st)) as [byte|e] eqn:H1; simpl.
  2:{ apply readUInt8_Err in H1. congruence. }
  destruct (Z.land byte 192 =? 192).
  - destruct (readUInt8 (buffer st) (cursor st + 1)) as [low|e] eqn:H2; simpl.
    2:{ apply readUInt8_Err in H2. congruence. }
    repeat case_match; congruence.
  - repeat case_match; congruence.
Qed.

(** The bound the cursor and the cache respect, and the measure that
    every pass lowers. *)
Variable bound : Z.
Hypothesis bound_full : len fullMessage <= bound.

Lemma cache_size (X : gset Z) :
  (forall p, p ∈ X -> 0 <= p < len fullMessage) ->
  Z.of_nat (size X) <= len fullMessage.
Proof.
  intros HX.
  assert (X ⊆ list_to_set (seqZ 0 (len fullMessage))) as Hsub.
  { intros p Hp. apply elem_of_list_to_set, elem_of_seqZ.
    specialize (HX p Hp). lia. }
  apply (subseteq_size (C := gset Z)) in Hsub.
  rewrite size_list_to_set in Hsub by apply NoDup_seqZ.
  rewrite length_seqZ in Hsub. unfold len in *. lia.
Qed.

Lemma measure_nonneg st : bounded fullMessage bound st -> 0 <= measure fullMessage bound st.
Proof.
  intros (Hb & Hc & Hp). unfold measure.
  pose proof (cache_size _ Hp). unfold len in *. nia.
Qed.

Lemma iterate_bounded st st' :
  bounded fullMessage bound st -> iterate st = Ok st' ->
  bounded fullMessage bound st' /\ measure fullMessage bound st' < measure fullMessage bound st.
Proof.
  intros (Hb & Hc & Hp) Hit. unfold Decode.iterate in Hit.
  destruct (readUInt8 (buffer st) (cursor st)) as [byte|] eqn:H1;
    [|discriminate]. simpl in Hit.
  apply readUInt8_Ok in H1 as [Hcur Hbyte].
  assert (0 <= Z.land byte 63 < 64) as H63.
  { change 63 with (Z.ones 6). rewrite Z.land_ones by lia.
    apply Z.mod_pos_bound. lia. }
  pose proof (cache_size _ Hp) as Hsize.
  destruct (Z.land byte 192 =? 192).
  - destruct (readUInt8 (buffer st) (cursor st + 1)) as [low|] eqn:H2;
      [|discriminate]. simpl in Hit.
    apply readUInt8_Ok in H2 as [_ Hlow].
    set (p := Z.shiftl (Z.land byte 63) 8 + low) in *.
    assert (0 <= p).
    { subst p. rewrite Z.shiftl_mul_pow2 by lia. lia. }
    destruct (p >=? len fullMessage) eqn:Hge; [discriminate|].
    rewrite Z.geb_leb in Hge. apply Z.leb_gt in Hge.
    case_bool_decide as Hin; [discriminate|].
    injection Hit as <-.
    assert (forall q, q ∈ ({[p]} ∪ pointersCache st : gset Z) ->
                      0 <= q < len fullMessage) as Hp'.
    { intros q [->%elem_of_singleton|Hq]%elem_of_union; [lia|auto]. }
    pose proof (cache_size _ Hp') as Hsize'.
    rewrite size_union in Hsize' by set_solver.
    rewrite size_singleton in Hsize'.
    split.
    + unfold bounded; simpl. split; [|split]; [lia|lia|exact Hp'].
    + unfold measure; simpl.
      rewrite size_union by set_solver. rewrite size_singleton.
      clearbody p. rewrite Nat2Z.inj_add.
      set (n := Z.of_nat (size (pointersCache st))) in *.
      replace ((len fullMessage - (Z.of_nat 1 + n)) * (bound + 65))
        with ((len fullMessage - n) * (bound + 65) - (bound + 65)) by ring.
      lia.
  - destruct (Z.land byte 192 =? 0); [|discriminate].
    destruct (Z.land byte 63 >? 0) eqn:Hpos; injection Hit as <-;
      unfold bounded, measure; cbn [buffer cursor pointersCache];
      (split; [split; [|split]; [lia|lia|exact Hp]|lia]).
Qed.

Lemma loop_terminates fuel st :
  bounded fullMessage bound st -> measure fullMessage bound st < Z.of_nat fuel -> loop fuel st <> Err Diverged.
Proof.
  revert st. induction fuel as [|fuel IH]; intros st Hb Hm.
  - pose proof (measure_nonneg st Hb). lia.
  - simpl. destruct (labelLength st >? 0); [|congruence].
    destruct (iterate st) as [st'|e] eqn:Hit; simpl.
    + destruct (iterate_bounded _ _ Hb Hit) as [Hb' Hm'].
      apply IH; [assumption|lia].
    + intros [= ->]. now apply (iterate_not_diverged st).
Qed.


(** *** Runs of the loop *)

Lemma iterate_label st st' :
  pointerAt (buffer st) (cursor st) = None ->
  iterate st = Ok st' ->
  pointersCache st' = pointersCache st /\
  metPointer st' = metPointer st /\ numOctets st' = numOctets st.
Proof.
  unfold pointerAt, Decode.iterate.
  destruct (readUInt8 (buffer st) (cursor st)) as [byte|]; [|discriminate].
  simpl. destruct (Z.land byte 192 =? 192).
  - destruct (readUInt8 (buffer st) (cursor st + 1)); discriminate.
  - intros _. destruct (Z.land byte 192 =? 0); [|discriminate].
    destruct (Z.land byte 63 >? 0); intros [= <-]; auto.
Qed.

Lemma follows_cache st targets st' :
  follows fullMessage offset st targets st' ->
  (forall p, p ∈ pointersCache st' <-> p ∈ targets \/ p ∈ pointersCache st)
  /\ (forall p, p ∈ targets -> p < len fullMessage).
Proof.
  induction 1 as [st|st st1 targets st2 Hpos Hit Hrun [IHc IHt]].
  - split; [intros p; rewrite elem_of_nil; tauto|intros p []%elem_of_nil].
  - destruct (pointerAt (buffer st) (cursor st)) as [q|] eqn:Hq; simpl.
    + rewrite (iterate_pointer _ _ Hq) in Hit.
      destruct (q >=? len fullMessage) eqn:Hge; [discriminate|].
      rewrite Z.geb_leb in Hge. apply Z.leb_gt in Hge.
      case_bool_decide; [discriminate|]. injection Hit as <-.
      simpl in IHc. split.
      * intros p. rewrite IHc, elem_of_cons, elem_of_union, elem_of_singleton.
        tauto.
      * intros p [->|Hp]%elem_of_cons; auto.
    + destruct (iterate_label _ _ Hq Hit) as (Hc & _ & _).
      rewrite Hc in IHc. split; assumption.
Qed.

Lemma loop_follows fuel st targets st' :
  follows fullMessage offset st targets st' ->
  loop fuel st <> Err Diverged ->
  exists fuel', loop fuel st = loop fuel' st' /\ loop fuel' st' <> Err Diverged.
Proof.
  intros Hrun. revert fuel.
  induction Hrun as [st|st st1 targets st2 Hpos Hit Hrun IH]; intros fuel Hd.
  - eauto.
  - destruct fuel as [|fuel]; simpl in *;
      destruct (Z.gtb_spec (labelLength st) 0); try lia; try congruence.
    rewrite Hit in *. simpl in *. apply IH. exact Hd.
Qed.

Lemma loop_fails fuel st targets st' e :
  follows fullMessage offset st targets st' ->
  loop fuel st <> Err Diverged ->
  labelLength st' > 0 ->
  iterate st' = Err e ->
  loop fuel st = Err e.
Proof.
  intros Hrun Hd Hpos Hit.
  destruct (loop_follows _ _ _ _ Hrun Hd) as (fuel' & -> & Hd').
  destruct fuel' as [|fuel']; simpl in *;
    destruct (Z.gtb_spec (labelLength st') 0); try lia; try congruence.
  now rewrite Hit.
Qed.

End CompileName.

Lemma initial_loop_terminates fullMessage slice offset :
  0 <= offset <= len fullMessage ->
  let buf := default fullMessage slice in
  Decode.loop fullMessage offset (Decode.enough fullMessage buf)
    (Decode.initial buf offset) <> Err Diverged.
Proof.
  intros Hoff buf.
  set (bound := Z.max (len fullMessage) (len buf)).
  apply (loop_terminates fullMessage offset bound); [lia| |].
  - unfold bounded; simpl. split; [lia|]. split; [lia|].
    intros p []%elem_of_empty.
  - unfold measure, Decode.enough. cbn [Decode.initial Decode.pointersCache Decode.cursor].
    fold buf. fold bound.
    rewrite size_empty.
    assert (0 <= len fullMessage) by (unfold len; lia).
    rewrite Z2Nat.id by nia. nia.
Qed.

Lemma compileName_valid fullMessage slice offset :
  0 <= offset <= len fullMessage ->
  Decode.compileName fullMessage slice offset =
    (st ← Decode.loop fullMessage offset
            (Decode.enough fullMessage (default fullMessage slice))
            (Decode.initial (default fullMessage slice) offset);
     Ok (Decode.segments st,
         if Decode.metPointer st then Decode.numOctets st
         else Decode.cursor st - offset)).
Proof.
  intros Hoff. unfold Decode.compileName.
  destruct (Z.ltb_spec offset 0); [lia|].
  destruct (Z.gtb_spec offset (len fullMessage)); [lia|]. reflexivity.
Qed.

(** The model of [compileName] never runs out of passes: the loop of the
    source ends on every input. *)
Lemma compileName_terminates fullMessage slice offset :
  Decode.compileName fullMessage slice offset <> Err Diverged.
Proof.
  destruct (decide (0 <= offset <= len fullMessage)) as [Hoff|Hoff].
  - rewrite compileName_valid by assumption.
    pose proof (initial_loop_terminates fullMessage slice offset Hoff) as Hd.
    simpl in Hd. destruct (Decode.loop _ _ _ _); simpl; congruence.
  - unfold Decode.compileName.
    destruct (Z.ltb_spec offset 0); simpl; [congruence|].
    destruct (Z.gtb_spec offset (len fullMessage)); [congruence|lia].
Qed.

Lemma compileName_fails fullMessage slice offset targets st e :
  0 <= offset <= len fullMessage ->
  follows fullMessage offset
    (Decode.initial (default fullMessage slice) offset) targets st ->
  Decode.labelLength st > 0 ->
  Decode.iterate fullMessage offset st = Err e ->
  Decode.compileName fullMessage slice offset = Err e.
Proof.
  intros Hoff Hrun Hpos Hit.
  rewrite compileName_valid by assumption.
  rewrite (loop_fails fullMessage offset _ _ _ _ e Hrun); auto.
  now apply initial_loop_terminates.
Qed.

Lemma readUInt8_within buf i :
  0 <= i < len buf -> exists v, readUInt8 buf i = Ok v.
Proof.
  intros Hi. unfold readUInt8.
  destruct (Z.ltb_spec i 0); [lia|].
  destruct (buf !! Z.to_nat i) eqn:E; [eauto|].
  apply lookup_ge_None in E. unfold len in Hi. lia.
Qed.

Lemma readUInt16BE_within buf i :
  0 <= i -> i + 1 < len buf -> exists v, readUInt16BE buf i = Ok v.
Proof.
  intros H0 Hi. unfold readUInt16BE.
  destruct (readUInt8_within buf i) as [hi ->]; [lia|].
  destruct (readUInt8_within buf (i + 1)) as [lo ->]; [lia|].
  simpl. eauto.
Qed.

(** The header of a message of twelve octets or more is read without an
    exception, so [parse] fails as [sections] does. *)
Lemma parse_sections_fail msg e :
  12 <= len msg ->
  Decode.sections msg = Err e ->
  Message.parse msg = Err e.
Proof.
  intros Hlen Hs. unfold Message.parse.
  unfold Decode.id, Decode.qr, Decode.rcode, Decode.opcode, Decode.aa,
    Decode.tc, Decode.rd, Decode.ra, Decode.ad, Decode.cd.
  destruct (readUInt16BE_within msg 0) as [v0 ->]; [lia|lia|].
  destruct (readUInt8_within msg 2) as [v2 ->]; [lia|].
  destruct (readUInt8_within msg 3) as [v3 ->]; [lia|].
  simpl. now rewrite Hs.
Qed.

(** A message whose first question fails in [compileName] fails in
    [decode] with the same error. *)
Lemma decode_first_name msg e :
  12 <= len msg ->
  (exists n, Decode.recordCount msg "question" = Ok n /\ 0 < n) ->
  Decode.compileName msg None 12 = Err e ->
  Dnsd.decode msg = Err e.
Proof.
  intros Hlen (n & Hn & Hpos) Hname.
  unfold Dnsd.decode, Message.construct.
  apply parse_sections_fail; [assumption|].
  unfold Decode.sections, Decode.section. rewrite Hn. simpl.
  destruct (Z.to_nat n) as [|k] eqn:Hk; [lia|]. simpl.
  unfold Decode.sectionRecord. rewrite Hname. reflexivity.
Qed.

Lemma pointerAt_within buf at_ p :
  pointerAt buf at_ = Some p -> 0 <= at_ /\ at_ + 1 < len buf.
Proof.
  unfold pointerAt.
  destruct (readUInt8 buf at_) as [byte|] eqn:H1; [|discriminate].
  destruct (readUInt8 buf (at_ + 1)) as [low|] eqn:H2; [|discriminate].
  intros _. apply readUInt8_Ok in H1, H2. lia.
Qed.

Lemma pointer_rejected fullMessage slice offset targets st p :
  0 <= offset <= len fullMessage ->
  follows fullMessage offset
    (Decode.initial (default fullMessage slice) offset) targets st ->
  Decode.labelLength st > 0 ->
  pointerAt (Decode.buffer st) (Decode.cursor st) = Some p ->
  (len fullMessage <= p ->
   Decode.compileName fullMessage slice offset = Err InvalidPointer)
  /\ (p ∈ targets ->
      Decode.compileName fullMessage slice offset = Err PointerCycle).
Proof.
  intros Hoff Hrun Hpos Hp.
  pose proof (iterate_pointer fullMessage offset st p Hp) as Hit.
  destruct (follows_cache _ _ _ _ _ Hrun) as [Hcache Htargets].
  split; intros H; apply (compileName_fails _ _ _ targets st); auto.
  - rewrite Hit. destruct (Z.geb_spec p (len fullMessage)); [reflexivity|lia].
  - rewrite Hit. pose proof (Htargets p H).
    destruct (Z.geb_spec p (len fullMessage)); [lia|].
    rewrite bool_decide_eq_true_2; [reflexivity|]. apply Hcache. now left.
Qed.

Lemma mutual_pointers_rejected fullMessage a b :
  pointerAt fullMessage a = Some b ->
  pointerAt fullMessage b = Some a ->
  Decode.compileName fullMessage None a = Err PointerCycle.
Proof.
  intros Hab Hba.
  pose proof (pointerAt_within _ _ _ Hab) as Ha.
  pose proof (pointerAt_within _ _ _ Hba) as Hb.
  assert (0 <= a <= len fullMessage) as Hoff by lia.
  set (st0 := Decode.initial fullMessage a).
  pose proof (iterate_pointer fullMessage a st0 b Hab) as H0.
  destruct (Z.geb_spec b (len fullMessage)); [lia|].
  rewrite bool_decide_eq_false_2 in H0 by set_solver.
  match type of H0 with _ = Ok ?s => set (st1 := s) in * end.
  assert (follows fullMessage a st0 [b] st1) as Hrun1.
  { change [b] with (option_list (Some b) ++ []).
    rewrite <- Hab. eapply follows_pass; [simpl; lia|exact H0|constructor]. }
  destruct (decide (a = b)) as [->|Hne].
  - eapply (pointer_rejected fullMessage None b [b] st1); simpl; eauto; try lia.
    set_solver.
  - pose proof (iterate_pointer fullMessage a st1 a Hba) as H1.
    destruct (Z.geb_spec a (len fullMessage)); [lia|].
    rewrite bool_decide_eq_false_2 in H1 by (simpl; set_solver).
    match type of H1 with _ = Ok ?s => set (st2 := s) in * end.
    assert (follows fullMessage a st0 [b; a] st2) as Hrun2.
    { change [b; a] with (option_list (Some b) ++ option_list (Some a) ++ []).
      rewrite <- Hab at 1.
      eapply follows_pass; [simpl; lia|exact H0|].
      change (Some a) with (Some a : option Z). rewrite <- Hba.
      eapply (follows_pass _ _ st1); [simpl; lia|exact H1|constructor]. }
    eapply (pointer_rejected fullMessage None a [b; a] st2); simpl; eauto;
      try lia.
    set_solver.
Qed.

(** *** Every name [decode] decodes *)

Lemma readUInt16BE_Ok buf i v :
  readUInt16BE buf i = Ok v -> 0 <= i /\ i + 1 < len buf.
Proof.
  unfold readUInt16BE.
  destruct (readUInt8 buf i) as [hi|] eqn:Hhi; [|discriminate].
  destruct (readUInt8 buf (i + 1)) as [lo|] eqn:Hlo; [|discriminate].
  apply readUInt8_Ok in Hhi, Hlo. lia.
Qed.

Lemma recordCount_header msg sectionName count :
  Decode.recordCount msg sectionName = Ok count -> 6 <= len msg.
Proof.
  unfold Decode.recordCount.
  repeat (destruct (String.eqb sectionName _);
          [intros H; apply readUInt16BE_Ok in H; lia|]).
  discriminate.
Qed.

(** The flags of a message of four octets or more are read without an
    exception. *)
Lemma parse_header msg :
  4 <= len msg ->
  Message.parse msg
  = (sectionsCache ← Decode.sections msg;
     id ← Decode.id msg;
     qr ← Decode.qr msg;
     responseCode ← Decode.rcode msg;
     opcode ← Decode.opcode msg;
     aa ← Decode.aa msg;
     tc ← Decode.tc msg;
     rd ← Decode.rd msg;
     ra ← Decode.ra msg;
     ad ← Decode.ad msg;
     cd ← Decode.cd msg;
     question ← Message.parseSection msg "question" sectionsCache;
     answer ← Message.parseSection msg "answer" sectionsCache;
     authority ← Message.parseSection msg "authority" sectionsCache;
     additional ← Message.parseSection msg "additional" sectionsCache;
     Ok {| Message.m_id := Some id;
           Message.m_type := Some (if qr =? 0 then "request" else "response");
           Message.m_responseCode := Some responseCode;
           Message.m_opcode :=
             mjoin (Message.opcodeNames !! Z.to_nat opcode);
           Message.m_authoritative := truthyZ aa;
           Message.m_truncated := truthyZ tc;
           Message.m_recursionDesired := truthyZ rd;
           Message.m_recursionAvailable := truthyZ ra;
           Message.m_authenticated := truthyZ ad;
           Message.m_checkingDisabled := truthyZ cd;
           Message.m_question := question;
           Message.m_answer := answer;
           Message.m_authority := authority;
           Message.m_additional := additional |}).
Proof.
  intros Hlen. unfold Message.parse.
  unfold Decode.id, Decode.qr, Decode.rcode, Decode.opcode, Decode.aa,
    Decode.tc, Decode.rd, Decode.ra, Decode.ad, Decode.cd.
  destruct (readUInt16BE_within msg 0) as [v0 ->]; [lia|lia|].
  destruct (readUInt8_within msg 2) as [v2 ->]; [lia|].
  destruct (readUInt8_within msg 3) as [v3 ->]; [lia|].
  cbn [mbind result_bind].
  destruct (Decode.sections msg); reflexivity.
Qed.

(** The walk of a section fails as the owner name it has got to. *)
Lemma sectionRecords_fail msg sectionName e :
  forall k n start records position,
    Decode.sectionRecords msg sectionName k start = Ok (records, position) ->
    Decode.compileName msg None position = Err e ->
    (k < n)%nat ->
    Decode.sectionRecords msg sectionName n start = Err e.
Proof.
  induction k as [|k IH]; intros n start records position Hk Hname Hlt.
  - injection Hk as <- <-. destruct n as [|n]; [lia|].
    cbn [Decode.sectionRecords]. unfold Decode.sectionRecord.
    rewrite Hname. reflexivity.
  - destruct n as [|n]; [lia|]. cbn [Decode.sectionRecords] in Hk |- *.
    destruct (Decode.sectionRecord msg sectionName start) as [[r p]|];
      [|discriminate Hk].
    cbn [mbind result_bind] in Hk |- *.
    destruct (Decode.sectionRecords msg sectionName k p) as [[rs p']|]
      eqn:Hrest; [|discriminate Hk].
    cbn [mbind result_bind] in Hk. injection Hk as _ Hp. subst p'.
    rewrite (IH n p rs position Hrest Hname) by lia. reflexivity.
Qed.

Lemma sections_fail msg sectionName start e :
  sectionStart msg sectionName = Ok start ->
  Decode.section msg sectionName start = Err e ->
  Decode.sections msg = Err e.
Proof.
  unfold sectionStart, Decode.sections.
  destruct (String.eqb_spec sectionName "question") as [->|_].
  { intros [= <-] ->. reflexivity. }
  destruct (Decode.section msg "question" 12) as [[qd p1]|];
    [|repeat (destruct (String.eqb sectionName _)); discriminate].
  cbn [mbind result_bind fmap result_fmap snd].
  destruct (String.eqb_spec sectionName "answer") as [->|_].
  { intros [= <-] ->. reflexivity. }
  destruct (Decode.section msg "answer" p1) as [[an p2]|];
    [|repeat (destruct (String.eqb sectionName _)); discriminate].
  cbn [mbind result_bind fmap result_fmap snd].
  destruct (String.eqb_spec sectionName "authority") as [->|_].
  { intros [= <-] ->. reflexivity. }
  destruct (Decode.section msg "authority" p2) as [[ns p3]|];
    [|repeat (destruct (String.eqb sectionName _)); discriminate].
  cbn [mbind result_bind fmap result_fmap snd].
  destruct (String.eqb_spec sectionName "additional") as [->|_];
    [|discriminate].
  intros [= <-] ->. reflexivity.
Qed.

Lemma owner_fails msg position e :
  forall sectionName start count k records,
    sectionStart msg sectionName = Ok start ->
    Decode.recordCount msg sectionName = Ok count ->
    Z.of_nat k < count ->
    Decode.sectionRecords msg sectionName k start = Ok (records, position) ->
    Decode.compileName msg None position = Err e ->
    Dnsd.decode msg = Err e.
Proof.
  intros sectionName start count k records Hstart Hcount Hk Hwalk Hname.
  unfold Dnsd.decode, Message.construct.
  pose proof (recordCount_header _ _ _ Hcount).
  rewrite parse_header by lia.
  rewrite (sections_fail msg sectionName start e Hstart); [reflexivity|].
  unfold Decode.section. rewrite Hcount. cbn [mbind result_bind].
  apply (sectionRecords_fail msg sectionName e k _ start records position);
    [assumption|assumption|lia].
Qed.

(** The parser of a section fails as the record it has got to. *)
Lemma parseRecords_fail_at msg sectionName s e :
  forall k n i prior,
    Message.parseRecords msg sectionName s k i = Ok prior ->
    Message.parseRecord msg sectionName (i + Z.of_nat k) s = Err e ->
    (k < n)%nat ->
    Message.parseRecords msg sectionName s n i = Err e.
Proof.
  induction k as [|k IH]; intros n i prior Hk Hrecord Hlt.
  - destruct n as [|n]; [lia|]. cbn [Message.parseRecords].
    rewrite Z.add_0_r in Hrecord. rewrite Hrecord. reflexivity.
  - destruct n as [|n]; [lia|]. cbn [Message.parseRecords] in Hk |- *.
    destruct (Message.parseRecord msg sectionName i s) as [r|];
      [|discriminate Hk].
    cbn [mbind result_bind] in Hk |- *.
    destruct (Message.parseRecords msg sectionName s k (i + 1)) as [rs|]
      eqn:Hrest; [|discriminate Hk].
    rewrite (IH n (i + 1) rs Hrest); [reflexivity| |lia].
    rewrite <- Hrecord. f_equal. lia.
Qed.

Lemma parseData_fails msg rdata kindOfRecord offset e :
  In offset (rdataNames msg rdata kindOfRecord) ->
  Decode.compileName msg (Some rdata) offset = Err e ->
  Message.parseData msg rdata kindOfRecord = Err e.
Proof.
  unfold rdataNames, Message.parseData. intros Hin Hname.
  destruct (String.eqb_spec kindOfRecord "IN A") as [->|_];
    [contradiction Hin|].
  destruct (String.eqb_spec kindOfRecord "IN AAAA") as [->|_];
    [contradiction Hin|].
  destruct (String.eqb kindOfRecord "IN NS" || String.eqb kindOfRecord "IN CNAME"
            || String.eqb kindOfRecord "IN PTR").
  { destruct Hin as [<-|[]]. unfold Decode.uncompress. rewrite Hname.
    reflexivity. }
  destruct (String.eqb_spec kindOfRecord "IN TXT") as [->|_];
    [contradiction Hin|].
  destruct (String.eqb kindOfRecord "IN MX").
  { unfold Decode.mx.
    destruct (readUInt16BE rdata 0); [|contradiction Hin].
    destruct Hin as [<-|[]]. cbn [mbind result_bind].
    unfold Decode.uncompress. rewrite Hname. reflexivity. }
  destruct (String.eqb kindOfRecord "IN SRV").
  { unfold Decode.srv.
    destruct (readUInt16BE rdata 0); [|contradiction Hin].
    destruct (readUInt16BE rdata 2); [|contradiction Hin].
    destruct (readUInt16BE rdata 4); [|contradiction Hin].
    destruct Hin as [<-|[]]. cbn [mbind result_bind].
    unfold Decode.uncompress. rewrite Hname. reflexivity. }
  destruct (String.eqb kindOfRecord "IN SOA"); [|contradiction Hin].
  unfold Decode.soa.
  destruct Hin as [<-|Hin]; [rewrite Hname; reflexivity|].
  destruct (Decode.compileName msg (Some rdata) 0) as [[msegs mlen]|];
    [|contradiction Hin].
  destruct Hin as [<-|[]]. cbn [mbind result_bind].
  rewrite Hname. reflexivity.
Qed.

Lemma truthyS_nonempty l : l <> "" -> truthyS l = true.
Proof. intros H. unfold truthyS. now destruct (String.eqb_spec l ""). Qed.

Lemma sections_header msg s : Decode.sections msg = Ok s -> 6 <= len msg.
Proof.
  unfold Decode.sections.
  destruct (Decode.section msg "question" 12) as [[qd p]|] eqn:Hq;
    [|discriminate].
  intros _. unfold Decode.section in Hq.
  destruct (Decode.recordCount msg "question") as [count|] eqn:Hcount;
    [|discriminate Hq].
  now apply recordCount_header in Hcount.
Qed.

Lemma parseSection_fail_at msg s sectionName e :
  Decode.sections msg = Ok s ->
  parsedBefore msg s sectionName = true ->
  Message.parseSection msg sectionName s = Err e ->
  Dnsd.decode msg = Err e.
Proof.
  intros Hs Hbefore Hsection.
  unfold Dnsd.decode, Message.construct.
  pose proof (sections_header _ _ Hs).
  rewrite parse_header by lia. rewrite Hs. cbn [mbind result_bind].
  unfold Decode.id, Decode.qr, Decode.rcode, Decode.opcode, Decode.aa,
    Decode.tc, Decode.rd, Decode.ra, Decode.ad, Decode.cd.
  destruct (readUInt16BE_within msg 0) as [v0 ->]; [lia|lia|].
  destruct (readUInt8_within msg 2) as [v2 ->]; [lia|].
  destruct (readUInt8_within msg 3) as [v3 ->]; [lia|].
  cbn [mbind result_bind].
  unfold parsedBefore in Hbefore.
  destruct (String.eqb_spec sectionName "question") as [->|_].
  { now rewrite Hsection. }
  destruct (Message.parseSection msg "question" s) as [qd|];
    [|repeat (destruct (String.eqb sectionName _)); discriminate Hbefore].
  cbn [mbind result_bind is_ok andb] in Hbefore |- *.
  destruct (String.eqb_spec sectionName "answer") as [->|_].
  { now rewrite Hsection. }
  destruct (Message.parseSection msg "answer" s) as [an|];
    [|repeat (destruct (String.eqb sectionName _)); discriminate Hbefore].
  cbn [mbind result_bind is_ok andb] in Hbefore |- *.
  destruct (String.eqb_spec sectionName "authority") as [->|_].
  { now rewrite Hsection. }
  destruct (Message.parseSection msg "authority" s) as [ns|];
    [|repeat (destruct (String.eqb sectionName _)); discriminate Hbefore].
  cbn [mbind result_bind is_ok andb] in Hbefore |- *.
  destruct (String.eqb_spec sectionName "additional") as [->|_];
    [|discriminate Hbefore].
  now rewrite Hsection.
Qed.

Lemma rdata_fails msg rdata offset e :
  forall sectionName s count k prior name class type ttl classLabel typeLabel,
    Decode.sections msg = Ok s ->
    parsedBefore msg s sectionName = true ->
    String.eqb sectionName "question" = false ->
    Decode.recordCount msg sectionName = Ok count ->
    Z.of_nat k < count ->
    Message.parseRecords msg sectionName s k 0 = Ok prior ->
    Decode.getRecord s sectionName (Z.of_nat k)
    = Ok (Decode.RawRegular name class type ttl (Some rdata)) ->
    Constants.classToLabel class = Ok (Some classLabel) ->
    Constants.typeToLabel type = Ok (Some typeLabel) ->
    classLabel <> "" -> typeLabel <> "" ->
    In offset (rdataNames msg rdata (classLabel +:+ " " +:+ typeLabel)) ->
    Decode.compileName msg (Some rdata) offset = Err e ->
    Dnsd.decode msg = Err e.
Proof.
  intros sectionName s count k prior name class type ttl classLabel typeLabel
    Hs Hbefore Hsection Hcount Hk Hprior Hrecord Hclass Htype Hc Ht Hin Hname.
  apply (parseSection_fail_at msg s sectionName e Hs Hbefore).
  unfold Message.parseSection. rewrite Hcount. cbn [mbind result_bind].
  apply (parseRecords_fail_at msg sectionName s e k _ 0 prior);
    [assumption| |lia].
  unfold Message.parseRecord. rewrite Z.add_0_l, Hrecord.
  cbn [mbind result_bind]. rewrite Hclass, Htype. cbn [mbind result_bind].
  cbn [default from_option id]. rewrite !truthyS_nonempty by assumption.
  cbn [negb]. rewrite Hsection.
  unfold Message.kind, Message.labelText.
  cbn [Message.r_class Message.r_type default from_option id].
  rewrite (parseData_fails msg rdata _ offset e Hin Hname). reflexivity.
Qed.

(** [decode] fails as the name it has got to. *)
Lemma nameDecoded_fails msg slice offset e :
  nameDecoded msg slice offset ->
  Decode.compileName msg slice offset = Err e ->
  Dnsd.decode msg = Err e.
Proof.
  intros Hsite Hname. destruct Hsite.
  - eapply owner_fails; eassumption.
  - eapply rdata_fails; eassumption.
Qed.

(** C1. A pointer the name decoder is about to follow is rejected:
    with [InvalidPointer] when its 14-bit offset is the length of the
    message or more, with [PointerCycle] when its target is one of the
    targets followed before while this name is decoded. So two pointers
    that reference each other's offset end in [PointerCycle], and [decode]
    fails as the decoding of the first owner name does. The same holds
    of every name [decode] gets to decode, the owner name of a record of
    any section and the names in the RDATA of a record: when the decoding
    of the name meets such a pointer, [decode] fails with that error. *)
Theorem pointer_anomalies_rejected :
  (forall fullMessage slice offset targets st p,
     0 <= offset <= len fullMessage ->
     follows fullMessage offset
       (Decode.initial (default fullMessage slice) offset) targets st ->
     Decode.labelLength st > 0 ->
     pointerAt (Decode.buffer st) (Decode.cursor st) = Some p ->
     (len fullMessage <= p ->
      Decode.compileName fullMessage slice offset = Err InvalidPointer)
     /\ (p ∈ targets ->
         Decode.compileName fullMessage slice offset = Err PointerCycle))
  /\ (forall fullMessage a b,
        pointerAt fullMessage a = Some b ->
        pointerAt fullMessage b = Some a ->
        Decode.compileName fullMessage None a = Err PointerCycle)
  /\ (forall msg e,
        12 <= len msg ->
        (exists n, Decode.recordCount msg "question" = Ok n /\ 0 < n) ->
        Decode.compileName msg None 12 = Err e ->
        Dnsd.decode msg = Err e)
  /\ (forall msg slice offset targets st p,
        nameDecoded msg slice offset ->
        0 <= offset <= len msg ->
        follows msg offset
          (Decode.initial (default msg slice) offset) targets st ->
        Decode.labelLength st > 0 ->
        pointerAt (Decode.buffer st) (Decode.cursor st) = Some p ->
        (len msg <= p -> Dnsd.decode msg = Err InvalidPointer)
        /\ (p ∈ targets -> Dnsd.decode msg = Err PointerCycle))
  /\ (forall msg a b,
        nameDecoded msg None a ->
        pointerAt msg a = Some b ->
        pointerAt msg b = Some a ->
        Dnsd.decode msg = Err PointerCycle).
Proof.
  split; [|split; [|split; [|split]]].
  - apply pointer_rejected.
  - apply mutual_pointers_rejected.
  - apply decode_first_name.
  - intros msg slice offset targets st p Hsite Hoff Hrun Hpos Hp.
    destruct (pointer_rejected msg slice offset targets st p Hoff Hrun Hpos Hp)
      as [Hstray Hcycle].
    split; intros H; apply (nameDecoded_fails msg slice offset); auto.
  - intros msg a b Hsite Hab Hba.
    apply (nameDecoded_fails msg None a); [assumption|].
    now apply (mutual_pointers_rejected msg a b).
Qed.

(** A query whose owner name is a pointer to a pointer back to it, and one
    whose owner name points behind the end of the message. *)
Definition cyclicQuery : Buffer :=
  [x00; x01; x01; x00; x00; x01; x00; x00; x00; x00; x00; x00;
   xc0; x0e; xc0; x0c; x00; x01; x00; x01].
Definition strayQuery : Buffer :=
  [x00; x01; x01; x00; x00; x01; x00; x00; x00; x00; x00; x00;
   xc0; x14; x00; x01; x00; x01].

(** A response whose answer is an NS record for [com] with a pointer
    behind the end of the message as its RDATA, and a query whose second
    question has a pointer to a pointer back to it as its owner name. *)
Definition strayData : Buffer :=
  [x00; x01; x84; x00; x00; x00; x00; x01; x00; x00; x00; x00;
   x03; x63; x6f; x6d; x00; x00; x02; x00; x01; x00; x00; x00; x3c;
   x00; x02; xc0; xff].
Definition cyclicSecond : Buffer :=
  [x00; x01; x01; x00; x00; x02; x00; x00; x00; x00; x00; x00;
   x03; x63; x6f; x6d; x00; x00; x01; x00; x01;
   xc0; x17; xc0; x15; x00; x01; x00; x01].

Lemma pointer_anomalies_rejected_witness :
  Dnsd.decode cyclicQuery = Err PointerCycle
  /\ Dnsd.decode strayQuery = Err InvalidPointer
  /\ Dnsd.decode strayData = Err InvalidPointer
  /\ Dnsd.decode cyclicSecond = Err PointerCycle.
Proof.
  destruct pointer_anomalies_rejected
    as (Hgeneral & Hmutual & Hdecode & Hevery & Hcycle).
  split; [|split; [|split]]; cycle 2.
  { apply (Hevery strayData (Some [xc0; xff]) 0 []
             (Decode.initial [xc0; xff] 0) 255).
    - eapply (rdata_decoded strayData "answer" _ 1 0 [] "com" 1 2 (Some 60)
                [xc0; xff] "IN" "NS" 0);
        try (vm_compute; reflexivity); try discriminate.
      left. reflexivity.
    - vm_compute. split; discriminate.
    - constructor.
    - simpl. lia.
    - reflexivity.
    - vm_compute. discriminate. }
  { apply (Hcycle cyclicSecond 21 23); [|reflexivity|reflexivity].
    eapply (owner_decoded cyclicSecond "question" 12 2 1);
      try (vm_compute; reflexivity). }
  - apply Hdecode.
    + vm_compute. discriminate.
    + exists 1. split; [reflexivity|lia].
    + apply (Hmutual cyclicQuery 12 14); reflexivity.
  - apply Hdecode.
    + vm_compute. discriminate.
    + exists 1. split; [reflexivity|lia].
    + apply (Hgeneral strayQuery None 12 [] (Decode.initial strayQuery 12) 20).
      * vm_compute. split; discriminate.
      * constructor.
      * simpl. lia.
      * reflexivity.
      * vm_compute. discriminate.
Defined.

(** ** The octets a decoded name accounts for *)

Lemma label_octet (b : byte) :
  Z.land (octet b) 192 = 0 ->
  Z.land (octet b) 63 = octet b /\ octet b < 64.
Proof.
  destruct b; vm_compute; intros H; try discriminate H; split; reflexivity.
Qed.

Lemma readUInt8_drop buf i v :
  readUInt8 buf i = Ok v ->
  0 <= i /\ exists b, v = octet b /\
    drop (Z.to_nat i) buf = b :: drop (S (Z.to_nat i)) buf.
Proof.
  unfold readUInt8. destruct (Z.ltb_spec i 0); [discriminate|].
  destruct (buf !! Z.to_nat i) as [b|] eqn:Hb; [|discriminate].
  intros [= <-]. split; [assumption|]. exists b. split; [reflexivity|].
  now apply drop_S.
Qed.

Section Octets.
Variable fullMessage : Buffer.
Variable offset : Z.

Lemma loop_after_pointer fuel st st' :
  Decode.loop fullMessage offset fuel st = Ok st' ->
  Decode.metPointer st = true ->
  Decode.metPointer st' = true /\ Decode.numOctets st' = Decode.numOctets st.
Proof.
  revert st. induction fuel as [|fuel IH]; intros st; simpl;
    destruct (Z.gtb_spec (Decode.labelLength st) 0);
    try discriminate; try (intros [= <-]; auto; fail).
  destruct (Decode.iterate fullMessage offset st) as [st1|] eqn:Hit;
    [|discriminate].
  simpl. intros Hloop Hmet.
  assert (Decode.metPointer st1 = true /\
          Decode.numOctets st1 = Decode.numOctets st) as [Hm1 Hn1].
  { destruct (pointerAt (Decode.buffer st) (Decode.cursor st)) as [p|] eqn:Hp.
    - rewrite (iterate_pointer _ _ _ _ Hp) in Hit.
      destruct (p >=? len fullMessage); [discriminate|].
      destruct (bool_decide (p ∈ Decode.pointersCache st)); [discriminate|].
      injection Hit as <-. simpl. now rewrite Hmet.
    - destruct (iterate_label _ _ _ _ Hp Hit) as (_ & -> & ->). auto. }
  destruct (IH st1 Hloop Hm1) as [-> ->]. auto.
Qed.

Lemma loop_octets fuel st st' :
  Decode.loop fullMessage offset fuel st = Ok st' ->
  Decode.metPointer st = false ->
  Decode.labelLength st > 0 ->
  forall k,
    (length (drop (Z.to_nat (Decode.cursor st)) (Decode.buffer st)) <= k)%nat ->
    exists n,
      octetsOfName k (drop (Z.to_nat (Decode.cursor st)) (Decode.buffer st))
        = Some n
      /\ (if Decode.metPointer st' then Decode.numOctets st'
          else Decode.cursor st' - offset)
         = Decode.cursor st - offset + n.
Proof.
  revert st. induction fuel as [|fuel IH]; intros st; simpl;
    destruct (Z.gtb_spec (Decode.labelLength st) 0); try discriminate;
    try lia.
  destruct (Decode.iterate fullMessage offset st) as [st1|] eqn:Hit;
    [|discriminate].
  simpl. intros Hloop Hmet _ k Hk.
  unfold Decode.iterate in Hit.
  destruct (readUInt8 (Decode.buffer st) (Decode.cursor st)) as [byte|] eqn:H1;
    [|discriminate]. simpl in Hit.
  apply readUInt8_drop in H1 as (Hcur & b & -> & Hdrop).
  rewrite Hdrop in *. destruct k as [|k]; [simpl in Hk; lia|].
  cbn [octetsOfName].
  destruct (Z.eqb_spec (Z.land (octet b) 192) 192) as [E192|E192].
  - destruct (readUInt8 (Decode.buffer st) (Decode.cursor st + 1));
      [|discriminate]. simpl in Hit.
    destruct (_ >=? len fullMessage); [discriminate|].
    destruct (bool_decide _); [discriminate|].
    injection Hit as <-.
    apply loop_after_pointer in Hloop as [-> ->]; [|reflexivity].
    simpl. rewrite Hmet. exists 2. split; [reflexivity|lia].
  - destruct (Z.eqb_spec (Z.land (octet b) 192) 0) as [E0|E0]; [|discriminate].
    destruct (label_octet b E0) as [E63 Hlt]. rewrite E63 in Hit.
    destruct (Z.gtb_spec (octet b) 0) as [Hpos|Hzero]; injection Hit as <-.
    + destruct (Z.eqb_spec (octet b) 0) as [|_]; [lia|].
      destruct (Z.ltb_spec (octet b) 64) as [_|]; [|lia].
      destruct (IH _ Hloop Hmet) with (k := k) as (m & Hn & Hfinal);
        [simpl; lia| |].
      { simpl in *. rewrite length_drop in *. lia. }
      simpl in Hn, Hfinal.
      rewrite drop_drop.
      replace (S (Z.to_nat (Decode.cursor st)) + Z.to_nat (octet b))%nat
        with (Z.to_nat (Decode.cursor st + 1 + octet b)) by lia.
      rewrite Hn. simpl. eexists. split; [reflexivity|lia].
    + pose proof (octet_range b).
      destruct (Z.eqb_spec (octet b) 0) as [Hb0|]; [|lia].
      rewrite Hb0 in Hloop.
      destruct fuel; simpl in Hloop; injection Hloop as <-; simpl;
        rewrite Hmet; exists 1; (split; [reflexivity|lia]).
Qed.

End Octets.

(** C4. The octet count of a decoded name is the extent of the name in
    the stream it starts in: the labels up to and including the zero
    label, or up to and including the two octets of the first pointer;
    what the pointer leads to does not count. *)
Theorem name_octets_counted fullMessage slice offset labels count :
  Decode.compileName fullMessage slice offset = Ok (labels, count) ->
  let stream := default fullMessage slice in
  octetsOfName (length stream) (drop (Z.to_nat offset) stream) = Some count.
Proof.
  intros Hname stream.
  assert (0 <= offset <= len fullMessage) as Hoff.
  { unfold Decode.compileName in Hname.
    destruct (Z.ltb_spec offset 0); [discriminate|].
    destruct (Z.gtb_spec offset (len fullMessage)); [discriminate|]. lia. }
  rewrite compileName_valid in Hname by assumption. fold stream in Hname.
  destruct (Decode.loop _ _ _ _) as [st'|] eqn:Hloop; [|discriminate].
  simpl in Hname. injection Hname as _ Hcount.
  destruct (loop_octets _ _ _ _ _ Hloop) with (k := length stream)
    as (n & Hn & Hfinal); [reflexivity|simpl; lia| |].
  { simpl. rewrite length_drop. lia. }
  simpl in Hn, Hfinal. rewrite Hn. f_equal. lia.
Qed.

(** A question for [example.com] followed by the name [www] and a pointer
    to the question's owner. *)
Definition compressedName : Buffer :=
  [x00; x7b; x01; x00; x00; x01; x00; x00; x00; x00; x00; x00;
   x07; x65; x78; x61; x6d; x70; x6c; x65; x03; x63; x6f; x6d; x00;
   x00; x10; x00; x01;
   x03; x77; x77; x77; xc0; x0c].

Lemma name_octets_counted_witness :
  Decode.compileName compressedName None 29
    = Ok (["www"; "example"; "com"], 6)
  /\ octetsOfName (length compressedName) (drop 29 compressedName) = Some 6
  /\ octetsOfName (length compressedName) (drop 12 compressedName) = Some 13.
Proof.
  split; [reflexivity|]. split.
  - apply (name_octets_counted compressedName None 29 ["www"; "example"; "com"] 6).
    reflexivity.
  - apply (name_octets_counted compressedName None 12 ["example"; "com"] 13).
    reflexivity.
Defined.

(** ** The TXT query of the documentation *)

(** The message of the example: a recursive query for the TXT records of
    [example.com], id 123. *)
Definition txtQuery : Message.DNSMessage :=
  {| Message.m_id := Some 123; Message.m_type := None;
     Message.m_responseCode := None; Message.m_opcode := Some "query";
     Message.m_authoritative := false; Message.m_truncated := false;
     Message.m_recursionDesired := true;
     Message.m_recursionAvailable := false;
     Message.m_authenticated := false; Message.m_checkingDisabled := false;
     Message.m_question :=
       [ {| Message.r_name := "example.com"; Message.r_type := Some "TXT";
            Message.r_class := Some "IN"; Message.r_ttl := None;
            Message.r_data := Message.DUndefined;
            Message.r_edns := None |} ];
     Message.m_answer := []; Message.m_authority := [];
     Message.m_additional := [] |}.

(** C2 on the code. [encode] of the plain object constructs a message
    first, and the constructor replaces every section by an empty array:
    the question is lost, and the result is a header of twelve octets with
    a question count of zero. The encoder itself, given the message with
    its question, writes the 29 octets of the example. *)
Theorem plain_query_loses_question :
  Dnsd.encode (Dnsd.Plain (Message.OfObject txtQuery))
    = Ok [x00; x7b; x01; x00; x00; x00; x00; x00; x00; x00; x00; x00]
  /\ Message.m_question
       <$> Message.construct (Message.OfObject txtQuery) = Ok []
  /\ Dnsd.encode (Dnsd.Instance txtQuery)
     = Ok [x00; x7b; x01; x00; x00; x01; x00; x00; x00; x00; x00; x00;
           x07; x65; x78; x61; x6d; x70; x6c; x65; x03; x63; x6f; x6d; x00;
           x00; x10; x00; x01].
Proof. repeat split; vm_compute; reflexivity. Qed.

(** ** Name compression *)

Lemma length_append a b :
  String.length (a +:+ b) = (String.length a + String.length b)%nat.
Proof. induction a as [|c a IH]; simpl; [reflexivity|]. now rewrite IH. Qed.

Lemma strlen_append a b :
  Encode.strlen (a +:+ b) = Encode.strlen a + Encode.strlen b.
Proof. unfold Encode.strlen. rewrite length_append. lia. Qed.

Lemma length_asciiBytes s :
  length (Encode.asciiBytes s) = String.length s.
Proof.
  unfold Encode.asciiBytes. rewrite length_map.
  induction s as [|c s IH]; simpl; [reflexivity|]. now rewrite IH.
Qed.

Lemma strlen_nonneg s : 0 <= Encode.strlen s.
Proof. unfold Encode.strlen. lia. Qed.

Lemma dot_not_label : Encode.isLabelChar "." = false.
Proof. reflexivity. Qed.

Lemma spanLabel_label l rest :
  Encode.allChars Encode.isLabelChar l = true ->
  Encode.spanLabel (l +:+ "." +:+ rest) = (l, "." +:+ rest).
Proof.
  induction l as [|c l IH]; simpl; intros H; [reflexivity|].
  apply andb_true_iff in H as [Hc Hl]. rewrite Hc.
  simpl in IH. now rewrite (IH Hl).
Qed.

Lemma splitName_prepend l rest :
  isLabel l -> isTail rest ->
  Encode.splitName (l +:+ "." +:+ rest) = Some (l, Some rest).
Proof.
  intros [Hlen Hchars] [(c & rest' & -> & Hc) Hnl].
  unfold Encode.splitName. rewrite spanLabel_label by assumption.
  destruct (Z.leb_spec 1 (Encode.strlen l)); [|lia].
  destruct (Z.leb_spec (Encode.strlen l) 63); [|lia].
  simpl. simpl in Hnl. rewrite Hc. simpl.
  apply andb_true_iff in Hnl as [H1 H2]. now rewrite H1, H2.
Qed.

Lemma isTail_prepend labels suffix :
  Forall isLabel labels -> isTail suffix -> isTail (prepend labels suffix).
Proof.
  induction 1 as [|l labels [Hlen Hchars] Hall IH]; intros Hs; [assumption|].
  specialize (IH Hs). simpl. split.
  - destruct l as [|c l]; [unfold Encode.strlen in Hlen; simpl in Hlen; lia|].
    simpl in Hchars. apply andb_true_iff in Hchars as [Hc _].
    simpl. eauto.
  - destruct IH as [_ IHnl]. clear Hlen.
    induction l as [|c l IHl]; simpl in *; [assumption|].
    apply andb_true_iff in Hchars as [Hc Hl].
    rewrite (IHl Hl), andb_true_r.
    unfold Encode.isLabelChar, Encode.isSpace, Encode.isLineTerminator in *.
    destruct (Ascii.eqb c "."); [discriminate|]. simpl in Hc.
    apply negb_true_iff in Hc.
    repeat (apply orb_false_iff in Hc as [Hc ?]).
    destruct (Z.eqb_spec (Encode.charCode c) 10) as [E|_];
      [rewrite E in Hc; discriminate|].
    destruct (Z.eqb_spec (Encode.charCode c) 13) as [E|_];
      [rewrite E in Hc; discriminate|].
    reflexivity.
Qed.

Lemma strlen_prepend_lt l labels suffix :
  Encode.strlen (prepend labels suffix)
  < Encode.strlen (prepend (l :: labels) suffix).
Proof.
  simpl. rewrite !strlen_append. pose proof (strlen_nonneg l).
  change (Encode.strlen ".") with 1. lia.
Qed.

Lemma strlen_prepend_drop k labels suffix :
  (0 < k <= length labels)%nat ->
  Encode.strlen (prepend (drop k labels) suffix)
  < Encode.strlen (prepend labels suffix).
Proof.
  revert k. induction labels as [|l labels IH]; intros k Hk;
    [simpl in Hk; lia|].
  destruct k as [|k]; [lia|]. simpl drop.
  pose proof (strlen_prepend_lt l labels suffix).
  destruct k as [|k]; [rewrite drop_0; lia|].
  simpl in Hk. specialize (IH (S k) ltac:(lia)). lia.
Qed.

Lemma isTail_nonempty rest : isTail rest -> Encode.strlen rest > 0.
Proof.
  intros [(c & rest' & -> & _) _]. unfold Encode.strlen. simpl. lia.
Qed.

Lemma toByte_octetOf z : 0 <= z < 256 -> toByte z = octetOf z.
Proof. intros Hz. unfold toByte, octetOf. now rewrite Z.mod_small. Qed.

Lemma asciiBytes_octets s :
  Encode.asciiBytes s
  = map (fun c => octetOf (Z.of_N (N_of_ascii c))) (list_ascii_of_string s).
Proof.
  unfold Encode.asciiBytes. apply map_ext. intros c.
  unfold octetOf. rewrite N2Z.id, <- byte_of_ascii_via_N. reflexivity.
Qed.

Lemma chunk_written l :
  Encode.strlen l <= 63 ->
  toByte (Encode.strlen l) :: Encode.asciiBytes l = labelOctets l.
Proof.
  intros Hl. unfold labelOctets. rewrite asciiBytes_octets.
  rewrite toByte_octetOf by (unfold Encode.strlen in *; lia). reflexivity.
Qed.




Lemma getProperty_set_ne {V} (own : gmap string V) k k' v :
  k <> k' -> getProperty (setPrimitive own k v) k' = getProperty own k'.
Proof.
  intros Hne. unfold getProperty, setPrimitive.
  destruct (String.eqb k' "__proto__"); [reflexivity|].
  destruct (String.eqb k "__proto__"); [reflexivity|].
  now rewrite lookup_insert_ne.
Qed.








(** What [encodeName] records lies where it writes. *)
Lemma encodeNameLoop_offsets fuel (bound : Z) :
  forall domains c domain position buf domains',
  Encode.encodeNameLoop fuel domains c domain position = Ok (buf, domains') ->
  bound <= position ->
  map_Forall (fun _ offset => bound <= offset) domains ->
  map_Forall (fun _ offset => bound <= offset) domains'.
Proof.
  induction fuel as [|fuel IH]; intros domains c domain position buf domains';
    simpl; destruct (Z.gtb_spec (Encode.strlen domain) 0);
    try discriminate; try (intros [= _ <-]; auto; fail).
  destruct (Encode.usable (getProperty domains domain) c) as [p|];
    [intros [= _ <-]; auto|].
  destruct (Encode.splitName domain) as [[segment rest]|]; [|discriminate].
  destruct (Encode.encodeNameLoop fuel _ c _ _) as [[tail d]|] eqn:Hloop;
    [|discriminate].
  simpl. intros [= _ <-] Hpos Hall.
  apply (IH _ _ _ _ _ _ Hloop).
  - unfold len. lia.
  - unfold setPrimitive. destruct (String.eqb domain "__proto__");
      [assumption|]. apply map_Forall_insert_2; assumption.
Qed.

Lemma encodeName_inMessage e fqdn shift c buf e' :
  Encode.encodeName e fqdn shift c = Ok (buf, e') ->
  0 <= shift -> inMessage e ->
  inMessage e' /\ Encode.position e' = Encode.position e.
Proof.
  unfold Encode.encodeName.
  destruct (Encode.encodeNameLoop _ _ _ _ _) as [[b d]|] eqn:Hloop;
    [|discriminate].
  simpl. intros [= _ <-] Hshift [Hpos Hall]. split; [|reflexivity].
  split; [assumption|]. simpl.
  apply (encodeNameLoop_offsets _ 12 _ _ _ _ _ _ Hloop); [lia|assumption].
Qed.



(** *** The encoder stays behind the header *)

Lemma setPosition_inMessage e p :
  inMessage e -> Encode.position e <= p -> inMessage (Encode.setPosition e p).
Proof. intros [Hpos Hall] Hp. split; simpl; [lia|assumption]. Qed.

Ltac name_step H :=
  match type of H with
  | context [Encode.encodeName ?e ?n ?s ?c] =>
      let buf := fresh "buf" in
      let e' := fresh "e" in
      let Hn := fresh "Hname" in
      destruct (Encode.encodeName e n s c) as [[buf e']|] eqn:Hn;
      [|discriminate H];
      apply encodeName_inMessage in Hn as [? ?];
      [|unfold len; lia|assumption];
      simpl in H
  end.

Ltac positions :=
  repeat match goal with
         | |- inMessage (Encode.setPosition _ _) =>
             apply setPosition_inMessage; [|simpl; lia]
         end;
  try assumption.

Ltac write_step H :=
  match type of H with
  | context [Encode.buf16 ?v] =>
      destruct (Encode.buf16 v); [|discriminate H]; simpl in H
  | context [Encode.buf32 ?v] =>
      destruct (Encode.buf32 v); [|discriminate H]; simpl in H
  | context [writeUInt16BE ?v] =>
      destruct (writeUInt16BE v); [|discriminate H]; simpl in H
  | context [writeUInt32BE ?v] =>
      destruct (writeUInt32BE v); [|discriminate H]; simpl in H
  | context [Encode.hexPairs ?v] =>
      destruct (Encode.hexPairs v); [|discriminate H]; simpl in H
  end.

Lemma rdataOf_inMessage e kindOfRecord data rdata e' :
  Encode.rdataOf e kindOfRecord data = Ok (rdata, e') ->
  inMessage e ->
  inMessage e' /\ Encode.position e' = Encode.position e.
Proof.
  unfold Encode.rdataOf. intros H Hin.
  repeat (match type of H with
          | context [if ?b then _ else _] => destruct b
          end);
    destruct data; try discriminate H;
    repeat first [name_step H | write_step H];
    repeat (match type of H with
            | context [match ?x with _ => _ end] =>
                destruct x; try discriminate H; simpl in H
            end);
    try (injection H as _ <-); auto;
    try (split; [assumption|congruence]).
Qed.

Lemma pushSection_inMessage e sectionName chunk e' :
  Encode.pushSection e sectionName chunk = Ok e' ->
  inMessage e ->
  inMessage e' /\ Encode.position e' = Encode.position e.
Proof.
  unfold Encode.pushSection. intros H Hin.
  repeat (match type of H with
          | context [if ?b then _ else _] => destruct b
          end); try discriminate H; injection H as <-; auto.
Qed.

Lemma record_inMessage e sectionName r e' :
  Encode.record e sectionName r = Ok e' ->
  inMessage e ->
  inMessage e' /\ Encode.position e <= Encode.position e'.
Proof.
  unfold Encode.record. intros H Hin.
  destruct (Encode.encodeName e (Message.r_name r) 0 true)
    as [[name e1]|] eqn:Hname; [|discriminate H].
  apply encodeName_inMessage in Hname as [Hin1 Hp1]; [|lia|assumption].
  simpl in H.
  destruct (Constants.typeToNumber _); [|discriminate H]. simpl in H.
  destruct (Constants.classToNumber _); [|discriminate H]. simpl in H.
  do 2 write_step H.
  assert (0 <= len name) by (unfold len; lia).
  destruct (negb _).
  - write_step H.
    destruct (Encode.rdataOf _ _ _) as [[rdata e2]|] eqn:Hrdata;
      [|discriminate H].
    apply rdataOf_inMessage in Hrdata as [Hin2 Hp2].
    2:{ positions. }
    simpl in H, Hp2. write_step H.
    apply pushSection_inMessage in H as [Hin3 Hp3].
    + simpl in Hp3. split; [assumption|lia].
    + positions.
  - apply pushSection_inMessage in H as [Hin3 Hp3].
    + simpl in Hp3. split; [assumption|lia].
    + positions.
Qed.

Lemma ednsRecord_inMessage e sectionName edns e' :
  Encode.ednsRecord e sectionName edns = Ok e' ->
  inMessage e ->
  inMessage e' /\ Encode.position e <= Encode.position e'.
Proof.
  unfold Encode.ednsRecord. intros H Hin.
  destruct (Encode.encodeName e "" 0 true) as [[name e1]|] eqn:Hname;
    [|discriminate H].
  apply encodeName_inMessage in Hname as [Hin1 Hp1]; [|lia|assumption].
  simpl in H. do 2 write_step H.
  destruct (Encode.optionChunks _) as [[length chunks]|]; [|discriminate H].
  simpl in H. write_step H.
  assert (0 <= len name) by (unfold len; lia).
  apply pushSection_inMessage in H as [Hin3 Hp3].
  - simpl in Hp3. split; [assumption|lia].
  - positions.
Qed.

(** Every record of a message is encoded by an encoder that writes, and
    has only recorded, behind the header. *)
Lemma records_inMessage sectionName rs : forall e e',
  Encode.records e sectionName rs = Ok e' ->
  inMessage e ->
  inMessage e' /\ Encode.position e <= Encode.position e'.
Proof.
  induction rs as [|r rs IH]; intros e e'; simpl.
  - intros [= <-] Hin. split; [assumption|lia].
  - intros H Hin.
    destruct (match Message.r_edns r with
              | Some edns => Encode.ednsRecord e sectionName edns
              | None => Encode.record e sectionName r
              end) as [e1|] eqn:Hfirst; [|discriminate H].
    simpl in H.
    assert (inMessage e1 /\ Encode.position e <= Encode.position e1)
      as [Hin1 Hp1].
    { destruct (Message.r_edns r).
      - now apply (ednsRecord_inMessage _ _ _ _ Hfirst).
      - now apply (record_inMessage _ _ _ _ Hfirst). }
    destruct (IH _ _ H Hin1). split; [assumption|lia].
Qed.

Lemma message_starts_inMessage h :
  inMessage (Encode.setPosition (Encode.setHeader Encode.create h) 12).
Proof. split; simpl; [lia|]. apply map_Forall_empty. Qed.

Lemma length_prepend labels suffix :
  isTail suffix ->
  (length labels < String.length (prepend labels suffix))%nat.
Proof.
  intros Htail. induction labels as [|l labels IH]; simpl.
  - apply isTail_nonempty in Htail. unfold Encode.strlen in Htail. lia.
  - rewrite !length_append. simpl. lia.
Qed.


(** A response whose answer and whose authority section both hold a record
    for [example.com]. *)
Definition sharedOwner : Message.DNSMessage :=
  {| Message.m_id := Some 1; Message.m_type := Some "response";
     Message.m_responseCode := Some 0; Message.m_opcode := Some "query";
     Message.m_authoritative := true; Message.m_truncated := false;
     Message.m_recursionDesired := true;
     Message.m_recursionAvailable := false;
     Message.m_authenticated := false; Message.m_checkingDisabled := false;
     Message.m_question := [];
     Message.m_answer :=
       [ {| Message.r_name := "example.com"; Message.r_type := Some "A";
            Message.r_class := Some "IN"; Message.r_ttl := Some 60;
            Message.r_data := Message.DString "1.2.3.4";
            Message.r_edns := None |} ];
     Message.m_authority :=
       [ {| Message.r_name := "example.com"; Message.r_type := Some "NS";
            Message.r_class := Some "IN"; Message.r_ttl := Some 60;
            Message.r_data := Message.DString "ns1.example.com";
            Message.r_edns := None |} ];
     Message.m_additional := [] |}.



(** ** Records of an unsupported kind *)

Lemma eqb_unsupported kindOfRecord supported :
  kindOfRecord ∉ supportedKinds ->
  supported ∈ supportedKinds ->
  String.eqb kindOfRecord supported = false.
Proof.
  intros Hnot Hin. apply String.eqb_neq. intros ->. contradiction.
Qed.

Ltac unsupported H :=
  repeat (rewrite (eqb_unsupported _ _ H)
            by (unfold supportedKinds; set_solver)); simpl.

Lemma parseData_unsupported body rdata kindOfRecord :
  kindOfRecord ∉ supportedKinds ->
  Message.parseData body rdata kindOfRecord = Err UnknownRecord.
Proof. intros H. unfold Message.parseData. unsupported H. reflexivity. Qed.

Lemma rdataOf_unsupported e kindOfRecord data :
  kindOfRecord ∉ supportedKinds ->
  Encode.rdataOf e kindOfRecord data = Err UnsupportedType.
Proof. intros H. unfold Encode.rdataOf. unsupported H. reflexivity. Qed.

Lemma sectionName_not_question sectionName :
  sectionName ∈ recordSections -> String.eqb sectionName "question" = false.
Proof.
  intros H. apply String.eqb_neq. intros ->.
  unfold recordSections in H. set_solver.
Qed.

(** The record parser on a regular record behind the question section
    whose kind is not supported. *)
Lemma parseRecord_unsupported body sectionName i sections name class type
    ttl rdata :
  sectionName ∈ recordSections ->
  Decode.getRecord sections sectionName i
    = Ok (Decode.RawRegular name class type ttl rdata) ->
  (forall c t,
     Constants.classToLabel class = Ok (Some c) ->
     Constants.typeToLabel type = Ok (Some t) ->
     c +:+ " " +:+ t ∉ supportedKinds) ->
  exists e, Message.parseRecord body sectionName i sections = Err e.
Proof.
  intros Hsec Hget Hkind. unfold Message.parseRecord. rewrite Hget. simpl.
  destruct (Constants.classToLabel class) as [[c|]|]; simpl; eauto;
    destruct (Constants.typeToLabel type) as [[t|]|]; simpl; eauto.
  - destruct (truthyS c); simpl; eauto.
    destruct (truthyS t); simpl; eauto.
    rewrite (sectionName_not_question _ Hsec).
    unfold Message.kind. simpl.
    rewrite parseData_unsupported by (apply Hkind; reflexivity).
    simpl. eauto.
  - destruct (truthyS c); simpl; eauto.
Qed.

Lemma parseRecords_fail body sectionName sections count :
  forall i j e,
    (j < count)%nat ->
    Message.parseRecord body sectionName (i + Z.of_nat j) sections = Err e ->
    exists e', Message.parseRecords body sectionName sections count i = Err e'.
Proof.
  induction count as [|count IH]; intros i j e Hj Hfail; [lia|].
  simpl.
  destruct (Message.parseRecord body sectionName i sections) as [r|e0] eqn:H0;
    simpl; eauto.
  destruct j as [|j].
  - rewrite Z.add_0_r in Hfail. congruence.
  - destruct (IH (i + 1) j e) as [e' ->]; [lia| |simpl; eauto].
    rewrite <- Hfail. f_equal. lia.
Qed.

Lemma sectionRecords_length msg sectionName n : forall position records position',
  Decode.sectionRecords msg sectionName n position = Ok (records, position') ->
  length records = n.
Proof.
  induction n as [|n IH]; intros position records position'; simpl.
  - now intros [= <- _].
  - destruct (Decode.sectionRecord msg sectionName position) as [[r p]|];
      [|discriminate]. simpl.
    destruct (Decode.sectionRecords msg sectionName n p) as [[rs p']|] eqn:Hrs;
      [|discriminate]. simpl.
    intros [= <- _]. simpl. f_equal. eapply IH. eassumption.
Qed.

Lemma section_length msg sectionName position records position' :
  Decode.section msg sectionName position = Ok (records, position') ->
  exists count,
    Decode.recordCount msg sectionName = Ok count
    /\ length records = Z.to_nat count.
Proof.
  unfold Decode.section.
  destruct (Decode.recordCount msg sectionName) as [count|]; [|discriminate].
  simpl. intros H. exists count. split; [reflexivity|].
  eapply sectionRecords_length. eassumption.
Qed.

(** The lists [sections] collects are as long as the header says. *)
Lemma sections_length msg s sectionName records :
  Decode.sections msg = Ok s ->
  Decode.sectionOf s sectionName = Some records ->
  exists count,
    Decode.recordCount msg sectionName = Ok count
    /\ length records = Z.to_nat count.
Proof.
  unfold Decode.sections.
  destruct (Decode.section msg "question" 12) as [[qd p1]|] eqn:H1;
    [|discriminate]. simpl.
  destruct (Decode.section msg "answer" p1) as [[an p2]|] eqn:H2;
    [|discriminate]. simpl.
  destruct (Decode.section msg "authority" p2) as [[ns p3]|] eqn:H3;
    [|discriminate]. simpl.
  destruct (Decode.section msg "additional" p3) as [[ar p4]|] eqn:H4;
    [|discriminate]. simpl.
  intros [= <-]. unfold Decode.sectionOf. simpl.
  destruct (String.eqb_spec sectionName "question") as [->|_].
  { intros [= <-]. eapply section_length; eassumption. }
  destruct (String.eqb_spec sectionName "answer") as [->|_].
  { intros [= <-]. eapply section_length; eassumption. }
  destruct (String.eqb_spec sectionName "authority") as [->|_].
  { intros [= <-]. eapply section_length; eassumption. }
  destruct (String.eqb_spec sectionName "additional") as [->|_].
  { intros [= <-]. eapply section_length; eassumption. }
  discriminate.
Qed.

Lemma parseSection_fail body sectionName sections count j e :
  Decode.recordCount body sectionName = Ok count ->
  (j < Z.to_nat count)%nat ->
  Message.parseRecord body sectionName (Z.of_nat j) sections = Err e ->
  exists e', Message.parseSection body sectionName sections = Err e'.
Proof.
  intros Hcount Hj Hfail. unfold Message.parseSection. rewrite Hcount. simpl.
  eapply (parseRecords_fail _ _ _ _ 0 j); eauto.
Qed.

(** [decode] fails on a message one of whose records behind the question
    section has an unsupported kind. *)
Lemma decode_unsupported msg s sectionName records i name class type ttl rdata :
  Decode.sections msg = Ok s ->
  sectionName ∈ recordSections ->
  Decode.sectionOf s sectionName = Some records ->
  records !! i = Some (Decode.RawRegular name class type ttl rdata) ->
  (forall c t,
     Constants.classToLabel class = Ok (Some c) ->
     Constants.typeToLabel type = Ok (Some t) ->
     c +:+ " " +:+ t ∉ supportedKinds) ->
  exists e, Dnsd.decode msg = Err e.
Proof.
  intros Hs Hsec Hof Hi Hkind.
  destruct (sections_length _ _ _ _ Hs Hof) as (count & Hcount & Hlen).
  assert (exists e, Message.parseSection msg sectionName s = Err e)
    as [e He].
  { destruct (parseRecord_unsupported msg sectionName (Z.of_nat i) s name class
                type ttl rdata Hsec) as [e He]; [|assumption|].
    - unfold Decode.getRecord. destruct (Z.ltb_spec (Z.of_nat i) 0); [lia|].
      rewrite Hof, Nat2Z.id, Hi. reflexivity.
    - eapply parseSection_fail; eauto.
      apply lookup_lt_Some in Hi. lia. }
  unfold Dnsd.decode, Message.construct, Message.parse.
  rewrite Hs.
  unfold recordSections in Hsec.
  repeat (match goal with
          | |- exists _, (?c ≫= _) = _ =>
              let E := fresh in destruct c eqn:E; simpl; [|eauto]
          end).
  apply elem_of_cons in Hsec as [->|Hsec]; [congruence|].
  apply elem_of_cons in Hsec as [->|Hsec]; [congruence|].
  apply elem_of_cons in Hsec as [->|Hsec]; [congruence|].
  now apply elem_of_nil in Hsec.
Qed.

Lemma registered_numbers :
  map_Forall (fun _ n => 0 <= n <= 65535) Constants.TYPE_NUMBERS
  /\ map_Forall (fun _ n => 0 <= n <= 65535) Constants.CLASS_NUMBERS.
Proof.
  split; apply (bool_decide_unpack _); vm_compute; exact I.
Qed.

Lemma typeToNumber_range l n :
  Constants.typeToNumber l = Ok n -> 0 <= n <= 65535.
Proof.
  unfold Constants.typeToNumber. destruct l as [l|]; [|discriminate].
  destruct (Constants.TYPE_NUMBERS !! l) as [m|] eqn:Hm; [|discriminate].
  destruct (truthyZ m); [|discriminate]. intros [= <-].
  exact (proj1 registered_numbers _ _ Hm).
Qed.

Lemma classToNumber_range l n :
  Constants.classToNumber l = Ok n -> 0 <= n <= 65535.
Proof.
  unfold Constants.classToNumber. destruct l as [l|]; [|discriminate].
  destruct (Constants.CLASS_NUMBERS !! l) as [m|] eqn:Hm; [|discriminate].
  destruct (truthyZ m); [|discriminate]. intros [= <-].
  exact (proj2 registered_numbers _ _ Hm).
Qed.

Lemma writeUInt16BE_within v :
  0 <= v <= 65535 -> exists buf, writeUInt16BE v = Ok buf.
Proof.
  intros Hv. unfold writeUInt16BE.
  destruct (Z.ltb_spec v 0); [lia|].
  destruct (Z.gtb_spec v 65535); [lia|]. simpl. eauto.
Qed.

(** [record] on a record of an unsupported kind: the name, the type, the
    class and the TTL are written, and the [switch] throws. *)
Lemma record_unsupported e sectionName r name e1 :
  sectionName ∈ recordSections ->
  Message.kind r ∉ supportedKinds ->
  Encode.encodeName e (Message.r_name r) 0 true = Ok (name, e1) ->
  is_ok (Constants.typeToNumber (Message.r_type r)) = true ->
  is_ok (Constants.classToNumber (Message.r_class r)) = true ->
  0 <= default 0 (Message.r_ttl r) <= 4294967295 ->
  Encode.record e sectionName r = Err UnsupportedType.
Proof.
  intros Hsec Hkind Hname Htype Hclass Httl. unfold Encode.record.
  rewrite Hname. simpl.
  destruct (Constants.typeToNumber _) as [t|] eqn:Ht; [|discriminate].
  destruct (Constants.classToNumber _) as [c|] eqn:Hc; [|discriminate].
  simpl.
  destruct (writeUInt16BE_within t (typeToNumber_range _ _ Ht)) as [tb ->].
  destruct (writeUInt16BE_within c (classToNumber_range _ _ Hc)) as [cb ->].
  simpl. rewrite (sectionName_not_question _ Hsec). simpl.
  assert (exists buf,
            writeUInt32BE
              match Message.r_ttl r with
              | Some t0 => if truthyZ t0 then t0 else 0
              | None => 0
              end = Ok buf) as [ttlBuf ->].
  { unfold writeUInt32BE, truthyZ.
    destruct (Message.r_ttl r) as [t0|]; simpl in *.
    - destruct (Z.eqb_spec t0 0); simpl; [eauto|].
      destruct (Z.ltb_spec t0 0); [lia|].
      destruct (Z.gtb_spec t0 4294967295); [lia|]. simpl. eauto.
    - eauto. }
  simpl. fold (Message.kind r). now rewrite rdataOf_unsupported.
Qed.

Ltac fail_step :=
  match goal with
  | |- exists _, (?c ≫= _) = _ => destruct c as [?|?]; simpl; [|eauto]
  end.

Lemma record_unsupported_fails e sectionName r :
  sectionName ∈ recordSections ->
  Message.kind r ∉ supportedKinds ->
  exists err, Encode.record e sectionName r = Err err.
Proof.
  intros Hsec Hkind. unfold Encode.record.
  destruct (Encode.encodeName _ _ _ _) as [[name e1]|]; simpl; [|eauto].
  do 4 fail_step.
  rewrite (sectionName_not_question _ Hsec). simpl.
  fail_step.
  fold (Message.kind r). rewrite rdataOf_unsupported by assumption.
  simpl. eauto.
Qed.

Lemma records_unsupported_fail sectionName rs r :
  sectionName ∈ recordSections ->
  r ∈ rs ->
  Message.r_edns r = None ->
  Message.kind r ∉ supportedKinds ->
  forall e, exists err, Encode.records e sectionName rs = Err err.
Proof.
  intros Hsec Hin Hedns Hkind.
  induction rs as [|r0 rs IH]; intros e; [now apply elem_of_nil in Hin|].
  simpl. apply elem_of_cons in Hin as [<-|Hin].
  - rewrite Hedns.
    destruct (record_unsupported_fails e sectionName r Hsec Hkind) as [err ->].
    simpl. eauto.
  - destruct (match Message.r_edns r0 with
              | Some edns => Encode.ednsRecord e sectionName edns
              | None => Encode.record e sectionName r0
              end) as [e1|]; simpl; [|eauto].
    apply IH. assumption.
Qed.

Ltac bind_step :=
  match goal with
  | |- exists _, (?c ≫= _) = _ =>
      destruct c as [?|?]; cbn [mbind result_bind]; [|eauto]
  end.

(** [message] fails on a message that holds a record of an unsupported
    kind behind the question section, whatever the encoder holds. *)
Lemma message_unsupported e msg r :
  r ∈ Message.m_answer msg ++ Message.m_authority msg
        ++ Message.m_additional msg ->
  Message.r_edns r = None ->
  Message.kind r ∉ supportedKinds ->
  exists err, Encode.message e msg = Err err.
Proof.
  intros Hin Hedns Hkind.
  assert (forall s, s ∈ recordSections ->
            forall rs, r ∈ rs ->
            forall e, exists err, Encode.records e s rs = Err err) as Hfail.
  { intros s Hs rs Hrs. eapply records_unsupported_fail; eauto. }
  unfold Encode.message. bind_step.
  destruct (Message.m_opcode msg) as [name|]; [|eauto].
  destruct (Encode.indexOf _ name 0) as [opcode|]; [|eauto].
  do 3 bind_step.
  apply elem_of_app in Hin as [Hin|Hin].
  { match goal with
    | |- context [Encode.records ?e "answer" _] =>
        destruct (Hfail "answer" ltac:(unfold recordSections; set_solver)
                    _ Hin e) as [err ->]
    end. cbn [mbind result_bind]. eauto. }
  bind_step.
  apply elem_of_app in Hin as [Hin|Hin].
  { match goal with
    | |- context [Encode.records ?e "authority" _] =>
        destruct (Hfail "authority" ltac:(unfold recordSections; set_solver)
                    _ Hin e) as [err ->]
    end. cbn [mbind result_bind]. eauto. }
  bind_step.
  match goal with
  | |- context [Encode.records ?e "additional" _] =>
      destruct (Hfail "additional" ltac:(unfold recordSections; set_solver)
                  _ Hin e) as [err ->]
  end. cbn [mbind result_bind]. eauto.
Qed.

(** [encode] fails on such a message. *)
Lemma encode_unsupported msg r :
  r ∈ Message.m_answer msg ++ Message.m_authority msg
        ++ Message.m_additional msg ->
  Message.r_edns r = None ->
  Message.kind r ∉ supportedKinds ->
  exists err, Dnsd.encode (Dnsd.Instance msg) = Err err.
Proof.
  intros Hin Hedns Hkind.
  destruct (message_unsupported Encode.create msg r Hin Hedns Hkind)
    as [err Herr].
  exists err. unfold Dnsd.encode, Encode.messageToBinary.
  cbn [mbind result_bind]. rewrite Herr. reflexivity.
Qed.

(** A response whose answer is an [IN HINFO] record, on the wire and as a
    message. *)
Definition hinfoResponse : Buffer :=
  [x00; x01; x84; x00; x00; x00; x00; x01; x00; x00; x00; x00;
   x07; x65; x78; x61; x6d; x70; x6c; x65; x03; x63; x6f; x6d; x00;
   x00; x0d; x00; x01; x00; x00; x00; x3c; x00; x04;
   x01; x61; x01; x62].

Definition hinfoRecord : Message.DNSRecord :=
  {| Message.r_name := "example.com"; Message.r_type := Some "HINFO";
     Message.r_class := Some "IN"; Message.r_ttl := Some 60;
     Message.r_data := Message.DBuffer [x01; x61; x01; x62];
     Message.r_edns := None |}.

Definition hinfoMessage : Message.DNSMessage :=
  {| Message.m_id := Some 1; Message.m_type := Some "response";
     Message.m_responseCode := Some 0; Message.m_opcode := Some "query";
     Message.m_authoritative := true; Message.m_truncated := false;
     Message.m_recursionDesired := false;
     Message.m_recursionAvailable := false;
     Message.m_authenticated := false; Message.m_checkingDisabled := false;
     Message.m_question := []; Message.m_answer := [hinfoRecord];
     Message.m_authority := []; Message.m_additional := [] |}.

Lemma hinfo_unsupported : "IN HINFO" ∉ supportedKinds.
Proof.
  unfold supportedKinds. intros H.
  repeat (apply elem_of_cons in H as [H|H]; [discriminate H|]).
  now apply elem_of_nil in H.
Qed.

(** C5, as stated, fails: the answer of [hinfoResponse] is a record of
    class IN and type HINFO (13), which is not a supported kind, and
    [decode] does not succeed on the message. *)
Lemma unsupported_record_not_decoded :
  Decode.sections hinfoResponse
    = Ok {| Decode.question := [];
            Decode.answer :=
              [Decode.RawRegular "example.com" 1 13 (Some 60)
                 (Some [x01; x61; x01; x62])];
            Decode.authority := []; Decode.additional := [] |}
  /\ Constants.typeToLabel 13 = Ok (Some "HINFO")
  /\ "IN HINFO" ∉ supportedKinds
  /\ Dnsd.decode hinfoResponse = Err UnknownRecord.
Proof.
  split; [reflexivity|]. split; [reflexivity|]. split; [|reflexivity].
  exact hinfo_unsupported.
Qed.

(** C5, amended. Neither direction of the codec takes a record of an
    unsupported kind behind the question section: [decode] fails on a
    message that holds one, [record] throws [UnsupportedType] once the
    name, the type, the class and the TTL of one are written, and so
    [encode] fails on a message that holds one. *)
Theorem unsupported_records_rejected :
  (forall msg s sectionName records i name class type ttl rdata,
     Decode.sections msg = Ok s ->
     sectionName ∈ recordSections ->
     Decode.sectionOf s sectionName = Some records ->
     records !! i = Some (Decode.RawRegular name class type ttl rdata) ->
     (forall c t,
        Constants.classToLabel class = Ok (Some c) ->
        Constants.typeToLabel type = Ok (Some t) ->
        c +:+ " " +:+ t ∉ supportedKinds) ->
     exists e, Dnsd.decode msg = Err e)
  /\ (forall e sectionName r name e1,
        sectionName ∈ recordSections ->
        Message.kind r ∉ supportedKinds ->
        Encode.encodeName e (Message.r_name r) 0 true = Ok (name, e1) ->
        is_ok (Constants.typeToNumber (Message.r_type r)) = true ->
        is_ok (Constants.classToNumber (Message.r_class r)) = true ->
        0 <= default 0 (Message.r_ttl r) <= 4294967295 ->
        Encode.record e sectionName r = Err UnsupportedType)
  /\ (forall msg r,
        r ∈ Message.m_answer msg ++ Message.m_authority msg
              ++ Message.m_additional msg ->
        Message.r_edns r = None ->
        Message.kind r ∉ supportedKinds ->
        exists err, Dnsd.encode (Dnsd.Instance msg) = Err err).
Proof.
  split; [|split].
  - apply decode_unsupported.
  - apply record_unsupported.
  - apply encode_unsupported.
Qed.

Lemma unsupported_records_rejected_witness :
  (exists e, Dnsd.decode hinfoResponse = Err e)
  /\ Encode.record (Encode.setPosition Encode.create 12) "answer" hinfoRecord
     = Err UnsupportedType
  /\ (exists err, Dnsd.encode (Dnsd.Instance hinfoMessage) = Err err).
Proof.
  destruct unsupported_records_rejected as (Hdecode & Hrecord & Hencode).
  split; [|split].
  - eapply (Hdecode hinfoResponse _ "answer" _ 0%nat).
    + reflexivity.
    + unfold recordSections. apply elem_of_cons. now left.
    + reflexivity.
    + reflexivity.
    + intros c t [= <-] [= <-]. exact hinfo_unsupported.
  - eapply (Hrecord _ "answer" hinfoRecord).
    + unfold recordSections. apply elem_of_cons. now left.
    + exact hinfo_unsupported.
    + reflexivity.
    + reflexivity.
    + reflexivity.
    + simpl. lia.
  - apply (Hencode hinfoMessage hinfoRecord).
    + simpl. apply elem_of_cons. now left.
    + reflexivity.
    + exact hinfo_unsupported.
Defined.

(** ** Zone lookup *)

Lemma spanLabel_whole l :
  Encode.allChars Encode.isLabelChar l = true ->
  Encode.spanLabel l = (l, "").
Proof.
  induction l as [|c l IH]; simpl; intros H; [reflexivity|].
  apply andb_true_iff in H as [Hc Hl]. now rewrite Hc, (IH Hl).
Qed.

Lemma splitName_label l :
  isLabel l -> Encode.splitName l = Some (l, None).
Proof.
  intros [Hlen Hchars]. unfold Encode.splitName.
  rewrite spanLabel_whole by assumption.
  destruct (Z.leb_spec 1 (Encode.strlen l)); [|lia].
  destruct (Z.leb_spec (Encode.strlen l) 63); [|lia]. reflexivity.
Qed.

Lemma label_noLineTerminator l :
  Encode.allChars Encode.isLabelChar l = true ->
  Encode.noLineTerminator l = true.
Proof.
  induction l as [|c l IH]; simpl; intros H; [reflexivity|].
  apply andb_true_iff in H as [Hc Hl]. rewrite (IH Hl), andb_true_r.
  unfold Encode.isLabelChar, Encode.isSpace, Encode.isLineTerminator in *.
  destruct (Ascii.eqb c "."); [discriminate|]. simpl in Hc.
  apply negb_true_iff in Hc.
  repeat (apply orb_false_iff in Hc as [Hc ?]).
  destruct (Z.eqb_spec (Encode.charCode c) 10) as [E|_];
    [rewrite E in Hc; discriminate|].
  destruct (Z.eqb_spec (Encode.charCode c) 13) as [E|_];
    [rewrite E in Hc; discriminate|].
  reflexivity.
Qed.

Lemma isLabel_isTail l : isLabel l -> isTail l.
Proof.
  intros [Hlen Hchars]. split.
  - destruct l as [|c l]; [unfold Encode.strlen in Hlen; simpl in Hlen; lia|].
    simpl in Hchars. apply andb_true_iff in Hchars as [Hc _]. eauto.
  - now apply label_noLineTerminator.
Qed.

(** The loop of [findZoneForName] on a name with a suffix that finds
    something in [zones]. *)
Lemma findZoneLoop_suffix zones labels : forall fuel suffix,
  Forall isLabel labels ->
  isTail suffix ->
  Server.zoneAt zones suffix <> Server.Missing ->
  (forall k, (k < length labels)%nat ->
     Server.zoneAt zones (prepend (drop k labels) suffix) = Server.Missing) ->
  (length labels < fuel)%nat ->
  Server.findZoneLoop fuel zones (prepend labels suffix)
  = Ok (Server.zoneAt zones suffix).
Proof.
  induction labels as [|l labels IH];
    intros fuel suffix Hlabels Htail Hzone Hlonger Hfuel.
  - destruct fuel as [|fuel]; [simpl in Hfuel; lia|]. simpl.
    pose proof (isTail_nonempty _ Htail).
    destruct (Z.gtb_spec (Encode.strlen suffix) 0); [|lia].
    destruct (Server.zoneAt zones suffix); [reflexivity|reflexivity|].
    now contradiction Hzone.
  - destruct fuel as [|fuel]; [simpl in Hfuel; lia|].
    inversion Hlabels as [|? ? Hl Hrest]; subst.
    pose proof (isTail_prepend _ _ Hrest Htail) as Htail'.
    pose proof (isTail_nonempty _ (isTail_prepend _ _ Hlabels Htail)).
    cbn [Server.findZoneLoop].
    destruct (Z.gtb_spec (Encode.strlen (prepend (l :: labels) suffix)) 0);
      [|lia].
    pose proof (Hlonger 0%nat ltac:(simpl; lia)) as Hfirst.
    rewrite drop_0 in Hfirst. rewrite Hfirst.
    cbn [prepend]. rewrite (splitName_prepend l _ Hl Htail'). simpl default.
    apply IH; try assumption; [|simpl in Hfuel; lia].
    intros k Hk. apply (Hlonger (S k)). simpl. lia.
Qed.

(** The loop on a name none of whose suffixes finds anything. *)
Lemma findZoneLoop_none zones labels : forall fuel last,
  Forall isLabel labels ->
  isLabel last ->
  (forall k, (k <= length labels)%nat ->
     Server.zoneAt zones (prepend (drop k labels) last) = Server.Missing) ->
  (length labels < fuel)%nat ->
  Server.findZoneLoop fuel zones (prepend labels last) = Ok Server.Missing.
Proof.
  induction labels as [|l labels IH];
    intros fuel last Hlabels Hlast Hnone Hfuel.
  - destruct fuel as [|fuel]; [simpl in Hfuel; lia|]. simpl.
    pose proof (isTail_nonempty _ (isLabel_isTail _ Hlast)).
    destruct (Z.gtb_spec (Encode.strlen last) 0); [|lia].
    pose proof (Hnone 0%nat ltac:(simpl; lia)) as Hfirst.
    simpl in Hfirst. rewrite Hfirst.
    rewrite (splitName_label _ Hlast). destruct fuel; reflexivity.
  - destruct fuel as [|fuel]; [simpl in Hfuel; lia|].
    inversion Hlabels as [|? ? Hl Hrest]; subst.
    pose proof (isTail_prepend _ _ Hrest (isLabel_isTail _ Hlast)) as Htail'.
    pose proof (isTail_nonempty _
                  (isTail_prepend _ _ Hlabels (isLabel_isTail _ Hlast))).
    cbn [Server.findZoneLoop].
    destruct (Z.gtb_spec (Encode.strlen (prepend (l :: labels) last)) 0);
      [|lia].
    pose proof (Hnone 0%nat ltac:(simpl; lia)) as Hfirst.
    rewrite drop_0 in Hfirst. rewrite Hfirst.
    cbn [prepend]. rewrite (splitName_prepend l _ Hl Htail'). simpl default.
    apply IH; try assumption; [|simpl in Hfuel; lia].
    intros k Hk. apply (Hnone (S k)). simpl. lia.
Qed.

(** A name that is the name of a member of [Object.prototype] finds
    something in every [zones]. *)
Lemma zoneAt_member zones key :
  In key prototypeMembers -> Server.zoneAt zones key <> Server.Missing.
Proof.
  intros Hkey. unfold Server.zoneAt.
  destruct (String.eqb key "__proto__");
    [destruct (Server.proto zones); discriminate|].
  destruct (Server.own zones !! key); [discriminate|].
  replace (inherited key) with true; [discriminate|].
  symmetry. unfold inherited. apply existsb_exists. exists key.
  split; [assumption|apply String.eqb_refl].
Qed.

Lemma findZoneForName_member server key :
  In key prototypeMembers ->
  Server.findZoneForName server key
  = Ok (Server.zoneAt (Server.zones server) key).
Proof.
  intros Hkey. unfold Server.findZoneForName.
  pose proof (zoneAt_member (Server.zones server) key Hkey) as Hhit.
  assert (String.length key <> 0%nat) as Hlen.
  { simpl in Hkey.
    repeat (destruct Hkey as [<-|Hkey]; [discriminate|]). contradiction. }
  destruct (String.length key) as [|fuel] eqn:Hfuel; [contradiction|].
  simpl. unfold Encode.strlen. rewrite Hfuel.
  destruct (Server.zoneAt (Server.zones server) key);
    [reflexivity|reflexivity|]. now contradiction Hhit.
Qed.

(** A server with the zone [example.com] and nothing else. *)
Definition exampleServer : Server.DNSServer :=
  Server.zone (Server.createServer None) "example.com" "ns1.example.com"
    "us@example.com" 1 7200 1800 1209600 600.

Definition exampleSOA : Message.DNSRecord :=
  {| Message.r_name := "example.com"; Message.r_type := Some "SOA";
     Message.r_class := Some "IN"; Message.r_ttl := None;
     Message.r_data :=
       Message.DSOA {| Decode.mname := "ns1.example.com";
                       Decode.rname := "us@example.com";
                       Decode.serial := 1; Decode.refresh := 7200;
                       Decode.retry := 1800; Decode.expire := 1209600;
                       Decode.ttl := 600 |};
     Message.r_edns := None |}.

Lemma label_checked l :
  (1 <=? Encode.strlen l) && (Encode.strlen l <=? 63)
    && Encode.allChars Encode.isLabelChar l = true ->
  isLabel l.
Proof.
  intros H. apply andb_true_iff in H as [H Hchars].
  apply andb_true_iff in H as [H1 H2].
  apply Z.leb_le in H1, H2. split; [lia|assumption].
Qed.

(** A query for the A records of the name [constructor], id 123. *)
Definition memberQuery : Buffer :=
  [x00; x7b; x01; x00; x00; x01; x00; x00; x00; x00; x00; x00;
   x0b; x63; x6f; x6e; x73; x74; x72; x75; x63; x74; x6f; x72; x00;
   x00; x01; x00; x01].

(** C8 on the code. With the zone [example.com] registered, the lookup of
    [findZoneForName] gives the record of the zone for
    [foo.bar.example.com] and for [example.com], and nothing for
    [example.org]. But [zones] is an object, not a map of the registered
    zones only: a name that is the name of a member of [Object.prototype]
    finds that member, whatever zones are registered, and the lookup
    returns it as if it were a record; [end] then throws where it reads
    the data of the record. A name with a label the pattern does not
    accept makes the lookup throw, although a registered zone is a suffix
    of it. The walk of the older revision of [end] strips a label before
    every lookup, the first one included: it never finds the zone a
    question names in full. *)
Theorem zone_lookup_finds_prototype_members :
  (Server.findZoneForName exampleServer "foo.bar.example.com"
     = Ok (Server.ZoneRecord exampleSOA)
   /\ Server.findZoneForName exampleServer "example.com"
      = Ok (Server.ZoneRecord exampleSOA)
   /\ Server.findZoneForName exampleServer "example.org" = Ok Server.Missing)
  /\ (forall server key,
        In key prototypeMembers ->
        exists found,
          Server.findZoneForName server key = Ok found
          /\ found <> Server.Missing)
  /\ (Server.findZoneForName (Server.createServer None) "constructor"
        = Ok Server.Foreign
      /\ Server.findZoneForName exampleServer "www.toString"
         = Ok Server.Foreign
      /\ (Message.m_question <$> Dnsd.decode memberQuery)
         = Ok [ {| Message.r_name := "constructor";
                   Message.r_type := Some "A";
                   Message.r_class := Some "IN"; Message.r_ttl := None;
                   Message.r_data := Message.DUndefined;
                   Message.r_edns := None |} ]
      /\ (response ← Server.newResponse (Message.OfBuffer memberQuery);
          Server.promise
            <$> Server.end_ exampleServer Server.UDP response
                  (Server.VString "192.0.2.1"))
         = Err JsTypeError)
  /\ Server.findZoneForName exampleServer "foo bar.example.com"
     = Err InvalidQueryName
  /\ (Server.findZoneInline (String.length "example.com")
        (Server.zones exampleServer) "example.com" = Ok Server.Missing
      /\ Server.findZoneInline (String.length "foo.bar.example.com")
           (Server.zones exampleServer) "foo.bar.example.com"
         = Ok (Server.ZoneRecord exampleSOA)).
Proof.
  split; [repeat split; vm_compute; reflexivity|].
  split.
  { intros server key Hkey. eexists. split.
    - now apply findZoneForName_member.
    - now apply zoneAt_member. }
  repeat split; vm_compute; reflexivity.
Qed.

(** ** TCP framing *)

Lemma octet_toByte z : octet (toByte z) = z mod 256.
Proof.
  unfold octet, toByte.
  pose proof (Z.mod_pos_bound z 256 ltac:(lia)) as Hz.
  destruct (Byte.of_N (Z.to_N (z mod 256))) as [b|] eqn:Hb.
  - apply Byte.to_of_N in Hb. rewrite Hb. lia.
  - apply Byte.of_N_None_iff in Hb. lia.
Qed.

Lemma len_app (a b : Buffer) : len (a ++ b) = len a + len b.
Proof. unfold len. rewrite length_app. lia. Qed.

Lemma len_nonneg (a : Buffer) : 0 <= len a.
Proof. unfold len. lia. Qed.

Lemma readUInt16BE_frame message rest :
  len message <= 65535 ->
  readUInt16BE (frame message ++ rest) 0 = Ok (len message).
Proof.
  intros Hlen. pose proof (len_nonneg message).
  unfold frame, readUInt16BE, readUInt8. simpl.
  rewrite !octet_toByte. f_equal.
  rewrite (Z.mod_small (len message / 256)).
  - pose proof (Z.div_mod (len message) 256 ltac:(lia)). lia.
  - split; [apply Z.div_pos; lia|].
    apply Z.div_lt_upper_bound; lia.
Qed.

Lemma sliceFrom_frame message rest :
  sliceFrom (frame message ++ rest) 2 = message ++ rest.
Proof.
  unfold sliceFrom, slice, clampIndex, frame.
  rewrite !len_app. change (len [_; _]) with 2.
  pose proof (len_nonneg message). pose proof (len_nonneg rest).
  destruct (Z.ltb_spec 2 0); [lia|].
  destruct (Z.ltb_spec (2 + len message + len rest) 0); [lia|].
  rewrite Z.min_l by lia. rewrite Z.min_l by lia.
  change (Z.to_nat 2) with 2%nat. simpl drop.
  apply firstn_all2. rewrite length_app. unfold len in *. lia.
Qed.

Lemma slice_prefix (message rest : Buffer) :
  slice (message ++ rest) 0 (len message) = message.
Proof.
  unfold slice, clampIndex. rewrite len_app.
  pose proof (len_nonneg message). pose proof (len_nonneg rest).
  destruct (Z.ltb_spec 0 0); [lia|].
  destruct (Z.ltb_spec (len message) 0); [lia|].
  rewrite Z.min_l by lia. rewrite Z.min_l by lia.
  simpl drop. rewrite Z.sub_0_r. unfold len. rewrite Nat2Z.id.
  apply take_app_length.
Qed.

(** X2. One data event that starts with a complete message: the message
    is dispatched, nothing of what follows it in the event is, and the
    handler leaves [received] one above the number of octets behind the
    length and keeps the last of those octets as the only chunk. *)
Lemma onData_first_message server message rest events :
  len message <= 65535 ->
  Server.dispatch server Server.TCP message = Ok events ->
  Server.onData server Server.onTcpConnection (frame message ++ rest)
  = ({| Server.expecting := -1;
        Server.received := len message + len rest + 1;
        Server.chunks := [sliceFrom (message ++ rest) (-1)] |},
     Ok events).
Proof.
  intros Hlen Hdispatch.
  pose proof (len_nonneg message). pose proof (len_nonneg rest).
  unfold Server.onData, Server.onTcpConnection.
  cbn [Server.expecting Server.received Server.chunks app length].
  assert (len (frame message ++ rest) = 2 + len message + len rest) as Hframe.
  { unfold frame. rewrite !len_app. reflexivity. }
  rewrite Hframe.
  destruct (Z.geb_spec (0 + (2 + len message + len rest)) 2); [|lia].
  cbn [andb Z.ltb Z.compare Server.joinHead].
  rewrite Hframe.
  destruct (Z.ltb_spec (2 + len message + len rest) 2); [lia|].
  cbn [head default from_option id]. rewrite readUInt16BE_frame by assumption.
  cbn [Server.expecting Server.chunks concat].
  destruct (Z.gtb_spec (len message) (-1)); [|lia].
  destruct (Z.geb_spec (0 + (2 + len message + len rest)) (2 + len message));
    [|lia].
  cbn [andb]. rewrite app_nil_r, sliceFrom_frame, slice_prefix, Hdispatch.
  rewrite len_app.
  destruct (Z.gtb_spec (len message + len rest - -1) 0); [|lia].
  repeat f_equal; lia.
Qed.

(** Two queries: the TXT query of the documentation, and an A query for
    [example.org] with id 124. *)
Definition firstQuery : Buffer :=
  [x00; x7b; x01; x00; x00; x01; x00; x00; x00; x00; x00; x00;
   x07; x65; x78; x61; x6d; x70; x6c; x65; x03; x63; x6f; x6d; x00;
   x00; x10; x00; x01].
Definition secondQuery : Buffer :=
  [x00; x7c; x01; x00; x00; x01; x00; x00; x00; x00; x00; x00;
   x07; x65; x78; x61; x6d; x70; x6c; x65; x03; x6f; x72; x67; x00;
   x00; x01; x00; x01].

(** C6 on the code. One data event with two complete queries dispatches
    the first query only: the handler has an [if] where the second message
    would need another pass, and it resets [expecting] to -1 before it
    computes what is left, so that a single octet of the stream stays
    buffered and the next length is read from it. A length split across
    two data events is put together and the message is dispatched. *)
Theorem tcp_second_query_not_dispatched :
  (requestIds
     (snd (Server.onData exampleServer Server.onTcpConnection
             (frame firstQuery ++ frame secondQuery)))
   = Ok [Some 123])
  /\ fst (Server.onData exampleServer Server.onTcpConnection
            (frame firstQuery ++ frame secondQuery))
     = {| Server.expecting := -1; Server.received := 61;
          Server.chunks := [[x01]] |}
  /\ requestIds
       (snd (Server.onDataEvents exampleServer Server.onTcpConnection
               [frame firstQuery ++ frame secondQuery; frame secondQuery]))
     = Ok [Some 123]
  /\ Server.expecting
       (fst (Server.onDataEvents exampleServer Server.onTcpConnection
               [frame firstQuery ++ frame secondQuery; frame secondQuery]))
     = 256
  /\ requestIds
       (snd (Server.onDataEvents exampleServer Server.onTcpConnection
               [[x00]; x1d :: firstQuery]))
     = Ok [Some 123].
Proof. repeat split; vm_compute; reflexivity. Qed.

(** ** EDNS version check *)

(** The TXT query of the documentation with an OPT record in its
    additional section: root name, type 41, a UDP size of 4096, and a TTL
    field of [00 01 00 00], which is EDNS version 1. *)
Definition ednsQuery : Buffer :=
  [x00; x7b; x01; x00; x00; x01; x00; x00; x00; x00; x00; x01;
   x07; x65; x78; x61; x6d; x70; x6c; x65; x03; x63; x6f; x6d; x00;
   x00; x10; x00; x01;
   x00; x00; x29; x10; x00; x00; x01; x00; x00; x00; x00].

(** The EDNS data of that record, and a record that carries EDNS data. *)
Definition ednsVersion1 : Message.EDNS :=
  {| Message.udpSize := 4096; Message.extendedResult := 0;
     Message.version := 1; Message.flagDO := false; Message.flags := 0;
     Message.options := [] |}.

Definition optRecord (edns : Message.EDNS) : Message.DNSRecord :=
  {| Message.r_name := ""; Message.r_type := Some "OPT";
     Message.r_class := Some "IN"; Message.r_ttl := None;
     Message.r_data := Message.DUndefined; Message.r_edns := Some edns |}.

(** The request [ednsQuery] stands for, had the message module kept the
    EDNS data of the record, and the response prepared from the same
    octets. *)
Definition ednsRequest : Message.DNSMessage :=
  {| Message.m_id := Some 123; Message.m_type := Some "request";
     Message.m_responseCode := Some 0; Message.m_opcode := Some "query";
     Message.m_authoritative := false; Message.m_truncated := false;
     Message.m_recursionDesired := true;
     Message.m_recursionAvailable := false;
     Message.m_authenticated := false; Message.m_checkingDisabled := false;
     Message.m_question :=
       [ {| Message.r_name := "example.com"; Message.r_type := Some "TXT";
            Message.r_class := Some "IN"; Message.r_ttl := None;
            Message.r_data := Message.DUndefined;
            Message.r_edns := None |} ];
     Message.m_answer := []; Message.m_authority := [];
     Message.m_additional := [optRecord ednsVersion1] |}.

Definition ednsResponse : Server.DNSResponse :=
  {| Server.message := Server.setType ednsRequest (Some "response");
     Server.requestorEDNS := Some ednsVersion1 |}.

(** C7 on the code. The decoder reads the OPT record of [ednsQuery] with
    version 1, but the record parser of the message module takes it for
    a regular record and asks for the label of a class the raw record
    does not have: the request constructor throws, over UDP and over
    TCP, before [isValidEDNS] is reached, and nothing is transmitted.
    Past the constructor, [isValidEDNS] does keep the handler from
    running, but [end] finds two EDNS records in the response (the one of
    the query and the reply it added) and rejects; and an OPT record with
    extended result 1 cannot be encoded, since its 32 bits of flags are
    written as 16. *)
Theorem badvers_response_not_sent :
  ((fun s => Decode.sectionOf s "additional") <$> Decode.sections ednsQuery
   = Ok (Some [Decode.RawEDNS 41 4096 0 1 false 0 []]))
  /\ Server.onUdp exampleServer ednsQuery = Err InvalidRecordClass
  /\ snd (Server.onData exampleServer Server.onTcpConnection
            (frame ednsQuery)) = Err InvalidRecordClass
  /\ Server.isValidEDNS exampleServer Server.UDP ednsRequest ednsResponse
     = Ok (false, [Server.ConsoleError InvalidEDNSResponse])
  /\ Server.isValidEDNS exampleServer Server.TCP ednsRequest ednsResponse
     = Ok (false, [Server.ConsoleError InvalidEDNSResponse])
  /\ Encode.ednsRecord Encode.create "additional"
       {| Message.udpSize := 4096; Message.extendedResult := 1;
          Message.version := 0; Message.flagDO := false;
          Message.flags := 0; Message.options := [] |}
     = Err RangeError.
Proof. repeat split; vm_compute; reflexivity. Qed.

(** ** Responses without answer and authority *)

(** A plain object for [end] to adopt: an id and an opcode, no records. *)
Definition adoptedReply : Message.DNSMessage :=
  {| Message.m_id := Some 123; Message.m_type := None;
     Message.m_responseCode := None; Message.m_opcode := Some "query";
     Message.m_authoritative := false; Message.m_truncated := false;
     Message.m_recursionDesired := false;
     Message.m_recursionAvailable := false;
     Message.m_authenticated := false; Message.m_checkingDisabled := false;
     Message.m_question := []; Message.m_answer := [];
     Message.m_authority := []; Message.m_additional := [] |}.

(** The handler of the TXT query pushes the SOA record of the zone to the
    authority section of the prepared response and then calls [end] with
    the plain object. *)
Definition endAdopted (transport : Server.Transport) : result Server.Ended :=
  response ← Server.newResponse (Message.OfBuffer firstQuery);
  Server.end_ exampleServer transport
    (Server.onMessage (Server.pushAuthority exampleSOA) response)
    (Server.VObject (Message.OfObject adoptedReply)).

(** The answer section, the authority section and the socket actions of
    what [end] leaves behind. *)
Definition outcome (ended : Server.Ended)
  : list Message.DNSRecord * list Message.DNSRecord
    * result (list Server.SocketAction) :=
  (Message.m_answer (Server.message (Server.that (Server.responses ended))),
   Message.m_authority (Server.message (Server.that (Server.responses ended))),
   Server.promise ended).

(** C9 on the code. The test before [send] reads the answer section of
    the response that is sent and the authority section of the response
    [end] was called on. With an adopted object the two differ: the
    response that is sent has neither answers nor authority records when
    the convenience processing is over, and its twelve octets of header
    go out all the same, as a datagram or behind a TCP length. Without a
    handler's doing, a query outside of every zone is met with silence. *)
Theorem empty_adopted_response_sent :
  outcome <$> endAdopted Server.UDP
    = Ok ([], [],
          Ok [Server.Datagram
                [x00; x7b; x84; x00; x00; x00; x00; x00; x00; x00; x00; x00]])
  /\ outcome <$> endAdopted Server.TCP
     = Ok ([], [],
           Ok [Server.EndConnection
                 (Some [x00; x0c; x00; x7b; x84; x00; x00; x00; x00; x00;
                        x00; x00; x00; x00])])
  /\ (response ← Server.newResponse (Message.OfBuffer secondQuery);
      Server.promise
        <$> Server.end_ exampleServer Server.UDP response Server.VUndefined)
     = Ok (Ok [])
  /\ (response ← Server.newResponse (Message.OfBuffer secondQuery);
      Server.promise
        <$> Server.end_ exampleServer Server.TCP response Server.VUndefined)
     = Ok (Ok [Server.EndConnection None]).
Proof. repeat split; vm_compute; reflexivity. Qed.

(** ** The loops of the decoder end *)

Lemma bind_ends {A B : Type} (c : result A) (k : A -> result B) :
  c <> Err Diverged ->
  (forall a, c = Ok a -> k a <> Err Diverged) ->
  c ≫= k <> Err Diverged.
Proof.
  intros Hc Hk. destruct c as [a|e]; cbn [mbind result_bind].
  - now apply Hk.
  - intros [= ->]. now apply Hc.
Qed.

Lemma readUInt8_ends buf i : readUInt8 buf i <> Err Diverged.
Proof. intros H. apply readUInt8_Err in H. discriminate H. Qed.

Lemma readUInt16BE_ends buf i : readUInt16BE buf i <> Err Diverged.
Proof.
  unfold readUInt16BE.
  repeat (apply bind_ends; [apply readUInt8_ends|intros]). discriminate.
Qed.

Lemma readUInt32BE_ends buf i : readUInt32BE buf i <> Err Diverged.
Proof.
  unfold readUInt32BE.
  repeat (apply bind_ends; [apply readUInt8_ends|intros]). discriminate.
Qed.

Lemma readUInt8_nonneg buf i v : readUInt8 buf i = Ok v -> 0 <= v < 256.
Proof.
  intros H. apply readUInt8_drop in H as (_ & b & -> & _). apply octet_range.
Qed.

Lemma readUInt16BE_nonneg buf i v :
  readUInt16BE buf i = Ok v -> 0 <= v <= 65535.
Proof.
  unfold readUInt16BE.
  destruct (readUInt8 buf i) as [hi|] eqn:Hhi; [|discriminate].
  destruct (readUInt8 buf (i + 1)) as [lo|] eqn:Hlo; [|discriminate].
  apply readUInt8_nonneg in Hhi, Hlo. intros [= <-]. lia.
Qed.

Lemma typeToLabel_ends v : Constants.typeToLabel v <> Err Diverged.
Proof. unfold Constants.typeToLabel. destruct (_ || _); discriminate. Qed.

Lemma classToLabel_ends v : Constants.classToLabel v <> Err Diverged.
Proof. unfold Constants.classToLabel. destruct (_ || _); discriminate. Qed.

(** Every pass over the options moves the offset by four octets at
    least. *)
Lemma extractEDNSOptionsFrom_ends buf : forall fuel offset,
  0 <= offset ->
  len buf - offset <= Z.of_nat fuel ->
  Decode.extractEDNSOptionsFrom fuel buf offset <> Err Diverged.
Proof.
  induction fuel as [|fuel IH]; intros offset H0 Hfuel; simpl;
    destruct (Z.ltb_spec offset (len buf)); try discriminate; [lia|].
  apply bind_ends; [apply readUInt16BE_ends|intros code _].
  apply bind_ends; [apply readUInt16BE_ends|intros length Hlength].
  apply readUInt16BE_nonneg in Hlength.
  apply bind_ends; [apply IH; lia|intros]. discriminate.
Qed.

Lemma extractEDNSOptions_ends buf :
  Decode.extractEDNSOptions buf <> Err Diverged.
Proof.
  apply extractEDNSOptionsFrom_ends; [lia|]. unfold len. lia.
Qed.

Lemma length_sliceFrom (buf : Buffer) k :
  0 <= k -> length (sliceFrom buf k) = (length buf - Z.to_nat k)%nat.
Proof.
  intros Hk. unfold sliceFrom, slice, clampIndex.
  pose proof (len_nonneg buf).
  destruct (Z.ltb_spec k 0); [lia|].
  destruct (Z.ltb_spec (len buf) 0); [lia|].
  rewrite length_take, length_drop. unfold len in *. lia.
Qed.

(** Every pass over the TXT data drops one octet at least. *)
Lemma txtFrom_ends : forall fuel iter,
  (length iter <= fuel)%nat -> Decode.txtFrom fuel iter <> Err Diverged.
Proof.
  induction fuel as [|fuel IH]; intros iter Hfuel; simpl;
    destruct (Z.eqb_spec (len iter) 0) as [Hz|Hz]; try discriminate;
    [unfold len in *; lia|].
  apply bind_ends; [apply readUInt8_ends|intros n Hn].
  apply readUInt8_nonneg in Hn.
  apply bind_ends; [|intros; discriminate].
  apply IH. rewrite length_sliceFrom by lia. unfold len in *. lia.
Qed.

Lemma uncompress_ends msg sub offset :
  Decode.uncompress msg sub offset <> Err Diverged.
Proof.
  unfold Decode.uncompress.
  apply bind_ends; [apply compileName_terminates|intros [segs n] _].
  discriminate.
Qed.

Lemma sectionRecord_ends msg sectionName position :
  Decode.sectionRecord msg sectionName position <> Err Diverged.
Proof.
  unfold Decode.sectionRecord.
  apply bind_ends; [apply compileName_terminates|intros [segs length] _].
  apply bind_ends; [apply readUInt16BE_ends|intros typeValue _].
  apply bind_ends; [apply readUInt16BE_ends|intros classValue _].
  destruct (negb _); [|discriminate].
  apply bind_ends; [apply readUInt32BE_ends|intros ttl _].
  apply bind_ends; [apply readUInt16BE_ends|intros rdataLength _].
  apply bind_ends; [apply typeToLabel_ends|intros label _].
  destruct (bool_decide _); [|discriminate].
  destruct (negb _); [discriminate|].
  apply bind_ends; [apply extractEDNSOptions_ends|intros]. discriminate.
Qed.

Lemma sectionRecords_ends msg sectionName : forall n position,
  Decode.sectionRecords msg sectionName n position <> Err Diverged.
Proof.
  induction n as [|n IH]; intros position; simpl; [discriminate|].
  apply bind_ends; [apply sectionRecord_ends|intros [record p] _].
  apply bind_ends; [apply IH|intros [rest p'] _]. discriminate.
Qed.

Lemma section_ends msg sectionName position :
  Decode.section msg sectionName position <> Err Diverged.
Proof.
  unfold Decode.section. apply bind_ends; [|intros; apply sectionRecords_ends].
  unfold Decode.recordCount.
  repeat (destruct (String.eqb _ _); [apply readUInt16BE_ends|]).
  discriminate.
Qed.

Lemma sections_ends msg : Decode.sections msg <> Err Diverged.
Proof.
  unfold Decode.sections.
  repeat (apply bind_ends; [apply section_ends|intros [? ?] _]).
  discriminate.
Qed.

Lemma parseData_ends body rdata kindOfRecord :
  Message.parseData body rdata kindOfRecord <> Err Diverged.
Proof.
  unfold Message.parseData, Decode.mx, Decode.srv, Decode.soa, Decode.txt.
  repeat match goal with
         | |- (if ?b then _ else _) <> _ => destruct b
         | |- (match ?x with _ => _ end) <> _ => destruct x
         | |- Ok _ <> _ => discriminate
         | |- Err _ <> _ => discriminate
         | |- _ ≫= _ <> _ => apply bind_ends; [|intros]
         | |- readUInt16BE _ _ <> _ => apply readUInt16BE_ends
         | |- readUInt32BE _ _ <> _ => apply readUInt32BE_ends
         | |- Decode.uncompress _ _ _ <> _ => apply uncompress_ends
         | |- Decode.compileName _ _ _ <> _ => apply compileName_terminates
         | |- Decode.txtFrom _ _ <> _ => apply txtFrom_ends; reflexivity
         end.
Qed.

Lemma parseRecord_ends body sectionName i sections :
  Message.parseRecord body sectionName i sections <> Err Diverged.
Proof.
  unfold Message.parseRecord. apply bind_ends.
  - unfold Decode.getRecord.
    repeat match goal with
           | |- (if ?b then _ else _) <> _ => destruct b
           | |- (match ?x with _ => _ end) <> _ => destruct x
           end; discriminate.
  - intros [name class type ttl rdata|] _; [|discriminate].
    apply bind_ends; [apply classToLabel_ends|intros c _].
    apply bind_ends; [apply typeToLabel_ends|intros t _].
    repeat (match goal with
            | |- (if ?b then _ else _) <> _ => destruct b
            end; try discriminate).
    apply bind_ends; [apply parseData_ends|intros]. discriminate.
Qed.

Lemma parseSection_ends body sectionName sections :
  Message.parseSection body sectionName sections <> Err Diverged.
Proof.
  unfold Message.parseSection. apply bind_ends.
  - unfold Decode.recordCount.
    repeat (destruct (String.eqb _ _); [apply readUInt16BE_ends|]).
    discriminate.
  - intros count _. generalize 0. induction (Z.to_nat count) as [|n IH];
      intros i; simpl; [discriminate|].
    apply bind_ends; [apply parseRecord_ends|intros].
    apply bind_ends; [apply IH|intros]. discriminate.
Qed.

(** X8. [decode] comes back on every input, with a message or with an
    exception: the loop that follows compression pointers, the loop over
    the options of an OPT record and the loop over the parts of TXT data
    all end, whatever octets they are given. *)
Theorem decode_ends packet : Dnsd.decode packet <> Err Diverged.
Proof.
  unfold Dnsd.decode, Message.construct, Message.parse.
  unfold Decode.id, Decode.qr, Decode.rcode, Decode.opcode, Decode.aa,
    Decode.tc, Decode.rd, Decode.ra, Decode.ad, Decode.cd.
  repeat match goal with
         | |- Ok _ <> _ => discriminate
         | |- _ ≫= _ <> _ => apply bind_ends; [|intros]
         | |- readUInt8 _ _ <> _ => apply readUInt8_ends
         | |- readUInt16BE _ _ <> _ => apply readUInt16BE_ends
         | |- Decode.sections _ <> _ => apply sections_ends
         | |- Message.parseSection _ _ _ <> _ => apply parseSection_ends
         end.
Qed.

(** ** Header and section walk *)

Lemma readUInt8_Ok_within buf i v : readUInt8 buf i = Ok v -> 0 <= i < len buf.
Proof.
  unfold readUInt8. destruct (Z.ltb_spec i 0); [discriminate|].
  destruct (buf !! Z.to_nat i) eqn:E; [|discriminate].
  apply lookup_lt_Some in E. unfold len. lia.
Qed.

Lemma readUInt16BE_Ok_within buf i v :
  readUInt16BE buf i = Ok v -> 0 <= i /\ i + 1 < len buf.
Proof.
  unfold readUInt16BE.
  destruct (readUInt8 buf i) as [hi|] eqn:Hhi; [|discriminate].
  destruct (readUInt8 buf (i + 1)) as [lo|] eqn:Hlo; [|discriminate].
  apply readUInt8_Ok_within in Hhi, Hlo. lia.
Qed.

(** X9. The section walk gives every section as many records as the
    header counts for it: each of the four lists is as long as the
    16-bit count at octets 4, 6, 8 and 10 says, and a walk that ends has
    read all of the twelve octets of the header. *)
Theorem sections_match_counts msg s :
  Decode.sections msg = Ok s ->
  12 <= len msg
  /\ readUInt16BE msg 4 = Ok (Z.of_nat (length (Decode.question s)))
  /\ readUInt16BE msg 6 = Ok (Z.of_nat (length (Decode.answer s)))
  /\ readUInt16BE msg 8 = Ok (Z.of_nat (length (Decode.authority s)))
  /\ readUInt16BE msg 10 = Ok (Z.of_nat (length (Decode.additional s))).
Proof.
  intros Hs.
  assert (forall sectionName records,
            Decode.sectionOf s sectionName = Some records ->
            Decode.recordCount msg sectionName
            = Ok (Z.of_nat (length records))) as Hcount.
  { intros sectionName records Hof.
    destruct (sections_length _ _ _ _ Hs Hof) as (count & Hcount & ->).
    rewrite Hcount. f_equal. symmetry. apply Z2Nat.id.
    unfold Decode.recordCount in Hcount.
    repeat (destruct (String.eqb sectionName _);
            [apply readUInt16BE_nonneg in Hcount; lia|]).
    discriminate Hcount. }
  pose proof (Hcount "question" _ eq_refl) as Hqd.
  pose proof (Hcount "answer" _ eq_refl) as Han.
  pose proof (Hcount "authority" _ eq_refl) as Hns.
  pose proof (Hcount "additional" _ eq_refl) as Har.
  cbn in Hqd, Han, Hns, Har.
  pose proof (readUInt16BE_Ok_within _ _ _ Har). repeat split; auto; lia.
Qed.

Lemma sections_match_counts_witness :
  exists s,
    Decode.sections firstQuery = Ok s
    /\ 12 <= len firstQuery
    /\ readUInt16BE firstQuery 4 = Ok (Z.of_nat (length (Decode.question s))).
Proof.
  destruct (Decode.sections firstQuery) as [s|] eqn:Hs;
    [|vm_compute in Hs; discriminate Hs].
  exists s. split; [reflexivity|].
  split; apply (sections_match_counts firstQuery s Hs).
Defined.

(** X10. A packet of less than twelve octets is never decoded: [decode]
    throws, be it on a read beyond the packet or on the offset of a first
    record that the counts it could read announce. *)
Theorem decode_short_packet packet :
  len packet < 12 -> exists e, Dnsd.decode packet = Err e.
Proof.
  intros Hlen.
  assert (forall s, Decode.sections packet <> Ok s) as Hno.
  { intros s Hs.
    destruct (sections_length _ _ "additional" _ Hs eq_refl)
      as (count & Hcount & _).
    apply readUInt16BE_Ok_within in Hcount. lia. }
  unfold Dnsd.decode, Message.construct, Message.parse.
  repeat match goal with
         | |- exists _, (?c ≫= _) = _ =>
             let E := fresh "E" in
             destruct c eqn:E; cbn [mbind result_bind];
             [try (exfalso; eapply Hno; reflexivity)|eauto]
         end.
Qed.

Lemma decode_short_packet_witness :
  exists e, Dnsd.decode (take 11 firstQuery) = Err e.
Proof.
  apply (decode_short_packet (take 11 firstQuery)). vm_compute. reflexivity.
Defined.

(** ** Slices *)

Lemma slice_middle (pre mid post : Buffer) :
  slice (pre ++ mid ++ post) (len pre) (len pre + len mid) = mid.
Proof.
  unfold slice, clampIndex. rewrite !len_app.
  pose proof (len_nonneg pre). pose proof (len_nonneg mid).
  pose proof (len_nonneg post).
  destruct (Z.ltb_spec (len pre) 0); [lia|].
  destruct (Z.ltb_spec (len pre + len mid) 0); [lia|].
  rewrite !Z.min_l by lia.
  replace (len pre + len mid - len pre) with (len mid) by lia.
  unfold len. rewrite !Nat2Z.id, drop_app_length. apply take_app_length.
Qed.

Lemma sliceFrom_app (pre post : Buffer) :
  sliceFrom (pre ++ post) (len pre) = post.
Proof.
  unfold sliceFrom, slice, clampIndex. rewrite !len_app.
  pose proof (len_nonneg pre). pose proof (len_nonneg post).
  destruct (Z.ltb_spec (len pre) 0); [lia|].
  destruct (Z.ltb_spec (len pre + len post) 0); [lia|].
  rewrite !Z.min_l by lia.
  replace (len pre + len post - len pre) with (len post) by lia.
  unfold len. rewrite !Nat2Z.id, drop_app_length. apply firstn_all.
Qed.

(** ** TXT data *)

(** A string of 7-bit characters. *)
Definition sevenBit (s : string) : Prop :=
  Encode.allChars (fun c => Encode.charCode c <? 128) s = true.

Lemma charCode_range c : 0 <= Encode.charCode c < 256.
Proof.
  unfold Encode.charCode. pose proof (N_ascii_bounded c). lia.
Qed.

Lemma asciiChar_charCode c :
  Encode.charCode c < 128 -> asciiChar (toByte (Encode.charCode c)) = c.
Proof.
  intros Hc. unfold asciiChar. rewrite octet_toByte.
  pose proof (charCode_range c).
  rewrite (Z.mod_small (Encode.charCode c)) by lia.
  change 127 with (Z.ones 7). rewrite Z.land_ones by lia.
  rewrite Z.mod_small by (change (2 ^ 7) with 128; lia).
  unfold toByte. rewrite Z.mod_small by lia.
  unfold Encode.charCode. rewrite N2Z.id.
  destruct (Byte.of_N (N_of_ascii c)) as [b|] eqn:Hb.
  - apply Byte.to_of_N in Hb.
    now rewrite ascii_of_byte_via_N, Hb, ascii_N_embedding.
  - apply Byte.of_N_None_iff in Hb. pose proof (N_ascii_bounded c). lia.
Qed.

Lemma toByte_charCode c : toByte (Encode.charCode c) = byte_of_ascii c.
Proof.
  unfold toByte. pose proof (charCode_range c).
  rewrite Z.mod_small by lia. unfold Encode.charCode. rewrite N2Z.id.
  now rewrite <- byte_of_ascii_via_N.
Qed.

Lemma utf8_sevenBit s :
  sevenBit s -> Encode.utf8 s = map Encode.charCode (list_ascii_of_string s).
Proof.
  unfold sevenBit, Encode.utf8.
  induction s as [|c s IH]; simpl; [reflexivity|].
  intros H. apply andb_true_iff in H as [Hc Hs]. rewrite Hc.
  simpl. f_equal. now apply IH.
Qed.

Lemma toStringAscii_sevenBit s :
  sevenBit s ->
  toStringAscii (map toByte (map Encode.charCode (list_ascii_of_string s))) 0
    (len (map toByte (map Encode.charCode (list_ascii_of_string s))))
  = s.
Proof.
  intros Hs. unfold toStringAscii.
  set (bytes := map toByte _).
  pose proof (len_nonneg bytes).
  rewrite Z.max_id, Z.min_id, Z.sub_0_r. unfold len. rewrite Nat2Z.id.
  change (Z.to_nat 0) with 0%nat. rewrite drop_0, firstn_all.
  unfold bytes. clear bytes H. unfold sevenBit in Hs.
  induction s as [|c s IH]; simpl; [reflexivity|].
  simpl in Hs. apply andb_true_iff in Hs as [Hc Hs].
  apply Z.ltb_lt in Hc. rewrite asciiChar_charCode by assumption.
  f_equal. now apply IH.
Qed.

Lemma readUInt8_head b (rest : Buffer) : readUInt8 (b :: rest) 0 = Ok (octet b).
Proof. reflexivity. Qed.

(** The parts the decoder reads from what the encoder wrote for them. *)
Lemma txtFrom_parts parts : forall fuel,
  Forall (fun part => sevenBit part /\ Encode.strlen part <= 255) parts ->
  (length parts <= fuel)%nat ->
  Decode.txtFrom fuel (map toByte (flat_map Encode.txtPart parts)) = Ok parts.
Proof.
  induction parts as [|part parts IH]; intros fuel Hparts Hfuel.
  - now destruct fuel.
  - inversion Hparts as [|? ? [Hseven Hshort] Hrest]; subst.
    destruct fuel as [|fuel]; [simpl in Hfuel; lia|].
    cbn [flat_map]. unfold Encode.txtPart at 1.
    rewrite (utf8_sevenBit _ Hseven).
    set (chars := map Encode.charCode (list_ascii_of_string part)).
    set (others := flat_map Encode.txtPart parts).
    assert (Z.of_nat (length chars) = Encode.strlen part) as Hchars.
    { unfold chars, Encode.strlen. rewrite length_map.
      clear. induction part; simpl; [reflexivity|]. lia. }
    cbn [app map]. rewrite map_app.
    set (bytes := map toByte chars). set (tail := map toByte others).
    assert (len bytes = Encode.strlen part) as Hbytes.
    { unfold bytes, len. now rewrite length_map. }
    pose proof (strlen_nonneg part).
    cbn [Decode.txtFrom].
    destruct (Z.eqb_spec (len (toByte (Z.of_nat (length chars)) :: bytes ++ tail)) 0)
      as [Hz|_].
    { unfold len in Hz. simpl in Hz. lia. }
    rewrite readUInt8_head.
    cbn [mbind result_bind]. rewrite octet_toByte, Hchars.
    rewrite (Z.mod_small (Encode.strlen part)) by lia.
    change (toByte (Encode.strlen part) :: bytes ++ tail)
      with ([toByte (Encode.strlen part)] ++ bytes ++ tail).
    replace (slice ([toByte (Encode.strlen part)] ++ bytes ++ tail) 1
               (1 + Encode.strlen part)) with bytes.
    2:{ rewrite <- Hbytes. symmetry.
        apply (slice_middle [toByte (len bytes)] bytes tail). }
    replace (sliceFrom ([toByte (Encode.strlen part)] ++ bytes ++ tail)
               (1 + Encode.strlen part)) with tail.
    2:{ rewrite app_assoc. symmetry.
        replace (1 + Encode.strlen part)
          with (len ([toByte (Encode.strlen part)] ++ bytes))
          by (rewrite len_app, Hbytes; reflexivity).
        apply sliceFrom_app. }
    unfold bytes, chars. rewrite (toStringAscii_sevenBit _ Hseven).
    unfold tail, others. rewrite IH by (try assumption; simpl in Hfuel; lia).
    reflexivity.
Qed.

(** X11. TXT data survive the wire: the parts of a TXT record, each of
    7-bit characters and 255 of them at most, are read by the decoder
    from the octets the encoder writes for them, in order, the empty part
    included. *)
Theorem txt_roundtrip parts msg :
  Forall (fun part => sevenBit part /\ Encode.strlen part <= 255) parts ->
  Decode.txt msg (map toByte (flat_map Encode.txtPart parts)) = Ok parts.
Proof.
  intros Hparts. unfold Decode.txt. apply txtFrom_parts; [assumption|].
  rewrite length_map. clear Hparts.
  induction parts as [|part parts IH]; simpl; [lia|].
  rewrite length_app. simpl. lia.
Qed.

Lemma txt_roundtrip_witness :
  Decode.txt [] (map toByte (flat_map Encode.txtPart ["v=spf1"; ""; "-all"]))
  = Ok ["v=spf1"; ""; "-all"].
Proof.
  apply (txt_roundtrip ["v=spf1"; ""; "-all"] []).
  repeat constructor; vm_compute; discriminate.
Defined.

(** ** Options of an OPT record *)

Lemma readUInt8_app (pre : Buffer) b (post : Buffer) :
  readUInt8 (pre ++ b :: post) (len pre) = Ok (octet b).
Proof.
  unfold readUInt8. pose proof (len_nonneg pre).
  destruct (Z.ltb_spec (len pre) 0); [lia|].
  unfold len. rewrite Nat2Z.id, list_lookup_middle by reflexivity.
  reflexivity.
Qed.

Lemma readUInt16BE_written (pre post : Buffer) v w :
  writeUInt16BE v = Ok w ->
  readUInt16BE (pre ++ w ++ post) (len pre) = Ok v /\ len w = 2.
Proof.
  unfold writeUInt16BE.
  destruct (Z.ltb_spec v 0); [discriminate|].
  destruct (Z.gtb_spec v 65535); [discriminate|].
  intros [= <-]. split; [|reflexivity].
  unfold readUInt16BE. cbn [app]. rewrite readUInt8_app.
  cbn [mbind result_bind].
  replace (pre ++ toByte (v / 256) :: toByte v :: post)
    with ((pre ++ [toByte (v / 256)]) ++ toByte v :: post)
    by (now rewrite <- app_assoc).
  replace (len pre + 1) with (len (pre ++ [toByte (v / 256)]))
    by (rewrite len_app; reflexivity).
  rewrite readUInt8_app. cbn [mbind result_bind].
  rewrite !octet_toByte. f_equal.
  rewrite (Z.mod_small (v / 256)).
  - pose proof (Z.div_mod v 256 ltac:(lia)). lia.
  - split; [apply Z.div_pos; lia|apply Z.div_lt_upper_bound; lia].
Qed.

(** The options the encoder writes: those with a code that is not
    negative. *)
Definition writtenOptions (options : list Decode.EDNSOption)
  : list Decode.EDNSOption :=
  filter (fun o => -1 < Decode.code o) options.

Lemma extractEDNSOptionsFrom_chunks options :
  forall fuel (pre : Buffer) count chunks,
  Encode.optionChunks options = Ok (count, chunks) ->
  (length (writtenOptions options) <= fuel)%nat ->
  Decode.extractEDNSOptionsFrom fuel (pre ++ chunks) (len pre)
  = Ok (writtenOptions options)
  /\ count = len chunks.
Proof.
  induction options as [|o options IH]; intros fuel pre count chunks H Hfuel.
  - injection H as <- <-. rewrite app_nil_r.
    split; [|reflexivity].
    destruct fuel; simpl; now rewrite Z.ltb_irrefl.
  - cbn [Encode.optionChunks] in H. unfold writtenOptions in *.
    destruct (Z.gtb_spec (Decode.code o) (-1)) as [Hkeep|Hskip].
    2:{ rewrite filter_cons_False in Hfuel |- * by lia. now apply IH. }
    rewrite filter_cons_True in Hfuel |- * by lia.
    destruct fuel as [|fuel]; [simpl in Hfuel; lia|].
    destruct (writeUInt16BE (Decode.code o)) as [code|] eqn:Hcode;
      [|discriminate H].
    destruct (writeUInt16BE (len (Decode.data o))) as [size|] eqn:Hsize;
      [|discriminate H].
    destruct (Encode.optionChunks options) as [[count' chunks']|] eqn:Hrest;
      [|discriminate H].
    cbn [mbind result_bind] in H. injection H as <- <-.
    pose proof (len_nonneg pre). pose proof (len_nonneg (Decode.data o)).
    pose proof (len_nonneg chunks').
    destruct (readUInt16BE_written pre (size ++ Decode.data o ++ chunks')
                _ _ Hcode) as [Hr1 Hl1].
    destruct (readUInt16BE_written (pre ++ code) (Decode.data o ++ chunks')
                _ _ Hsize) as [Hr2 Hl2].
    rewrite <- app_assoc in Hr2. rewrite len_app, Hl1 in Hr2.
    destruct (IH fuel (pre ++ code ++ size ++ Decode.data o) _ _ eq_refl
                ltac:(simpl in Hfuel; lia)) as [Hnext ->].
    split.
    2:{ rewrite !len_app, Hl1, Hl2. lia. }
    cbn [Decode.extractEDNSOptionsFrom].
    destruct (Z.ltb_spec (len pre)
                (len (pre ++ code ++ size ++ Decode.data o ++ chunks')))
      as [_|Hge].
    2:{ rewrite !len_app, Hl1 in Hge. lia. }
    rewrite Hr1. cbn [mbind result_bind]. rewrite Hr2.
    cbn [mbind result_bind].
    replace (pre ++ code ++ size ++ Decode.data o ++ chunks')
      with ((pre ++ code ++ size) ++ Decode.data o ++ chunks')
      by (now rewrite <- !app_assoc).
    replace (len pre + 2 + 2) with (len (pre ++ code ++ size))
      by (rewrite !len_app, Hl1, Hl2; lia).
    rewrite slice_middle.
    replace ((pre ++ code ++ size) ++ Decode.data o ++ chunks')
      with ((pre ++ code ++ size ++ Decode.data o) ++ chunks')
      by (now rewrite <- !app_assoc).
    replace (len (pre ++ code ++ size) + len (Decode.data o))
      with (len (pre ++ code ++ size ++ Decode.data o))
      by (rewrite !len_app; lia).
    rewrite Hnext. cbn [mbind result_bind]. now destruct o.
Qed.

(** X12. The options of an OPT record survive the wire: where the encoder
    writes them, which it does for codes and data lengths of 16 bits, the
    count it puts in front is the number of octets it wrote, and the
    decoder reads the same options from these octets, less those with a
    negative code, which the encoder passes over. *)
Theorem edns_options_roundtrip options count chunks :
  Encode.optionChunks options = Ok (count, chunks) ->
  count = len chunks
  /\ Decode.extractEDNSOptions chunks
     = Ok (filter (fun o => -1 < Decode.code o) options).
Proof.
  intros H. unfold Decode.extractEDNSOptions.
  destruct (extractEDNSOptionsFrom_chunks options (length chunks) []
              count chunks H) as [Hread Hlen].
  - revert count chunks H. unfold writtenOptions.
    induction options as [|o options IH]; intros count chunks H;
      [simpl; lia|].
    cbn [Encode.optionChunks] in H.
    destruct (Z.gtb_spec (Decode.code o) (-1)) as [Hkeep|Hskip].
    2:{ rewrite filter_cons_False by lia. now apply (IH count). }
    rewrite filter_cons_True by lia.
    destruct (writeUInt16BE (Decode.code o)) as [code|] eqn:Hcode;
      [|discriminate H].
    destruct (writeUInt16BE (len (Decode.data o))) as [size|];
      [|discriminate H].
    destruct (Encode.optionChunks options) as [[count' chunks']|] eqn:Hrest;
      [|discriminate H].
    cbn [mbind result_bind] in H. injection H as _ <-.
    apply (readUInt16BE_written [] []) in Hcode as [_ Hl].
    specialize (IH _ _ eq_refl). rewrite !length_app. simpl.
    unfold len in Hl. lia.
  - split; assumption.
Qed.

Lemma edns_options_roundtrip_witness :
  19 = len [x00; x0a; x00; x08; x01; x02; x03; x04; x05; x06; x07; x08;
            x00; x08; x00; x03; x00; x01; x18]
  /\ Decode.extractEDNSOptions
       [x00; x0a; x00; x08; x01; x02; x03; x04; x05; x06; x07; x08;
        x00; x08; x00; x03; x00; x01; x18]
     = Ok [ {| Decode.code := 10;
               Decode.data := [x01; x02; x03; x04; x05; x06; x07; x08] |};
            {| Decode.code := 8; Decode.data := [x00; x01; x18] |} ].
Proof.
  apply (edns_options_roundtrip
           [ {| Decode.code := 10;
                Decode.data := [x01; x02; x03; x04; x05; x06; x07; x08] |};
             {| Decode.code := 8; Decode.data := [x00; x01; x18] |} ]).
  vm_compute. reflexivity.
Defined.

(** ** Addresses *)

(** The decimal notation of an octet: digits only, and the number they
    are read as is the octet. *)
Lemma pretty_octet b :
  let digits := pretty (octet b) in
  String.eqb digits "" = false
  /\ Encode.allChars Encode.isDigit digits = true
  /\ Encode.numberOf digits = octet b.
Proof. destruct b; vm_compute; repeat split; reflexivity. Qed.

Lemma splitOn_digits digits rest :
  Encode.allChars Encode.isDigit digits = true ->
  Encode.splitOn "." (digits +:+ String "." rest)
  = digits :: Encode.splitOn "." rest.
Proof.
  induction digits as [|c digits IH]; intros H; [reflexivity|].
  simpl in H. apply andb_true_iff in H as [Hc Hd].
  simpl. destruct (Ascii.eqb_spec c ".") as [->|_]; [discriminate Hc|].
  now rewrite (IH Hd).
Qed.

Lemma splitOn_last digits :
  Encode.allChars Encode.isDigit digits = true ->
  Encode.splitOn "." digits = [digits].
Proof.
  induction digits as [|c digits IH]; intros H; [reflexivity|].
  simpl in H. apply andb_true_iff in H as [Hc Hd].
  simpl. destruct (Ascii.eqb_spec c ".") as [->|_]; [discriminate Hc|].
  now rewrite (IH Hd).
Qed.

(** X13. An IPv4 address survives the wire: the text the decoder renders
    for the four octets of an A record is accepted by the encoder, which
    writes the same four octets for it and leaves the dictionary of names
    alone. *)
Theorem ipv4_roundtrip body rdata e :
  len rdata = 4 ->
  Message.parseData body rdata "IN A"
    = Ok (Message.DString (Message.renderIPv4 rdata))
  /\ Encode.rdataOf e "IN A" (Message.DString (Message.renderIPv4 rdata))
     = Ok (Encode.octets rdata, e).
Proof.
  intros Hlen. split.
  - unfold Message.parseData. cbn [String.eqb Ascii.eqb Bool.eqb].
    rewrite Hlen. reflexivity.
  - destruct rdata as [|a [|b [|c [|d [|]]]]];
      try (unfold len in Hlen; simpl in Hlen; lia).
    unfold Encode.rdataOf. cbn [String.eqb Ascii.eqb Bool.eqb].
    unfold Message.renderIPv4. cbn [take map Decode.join].
    destruct (pretty_octet a) as (Ha0 & Ha1 & Ha2).
    destruct (pretty_octet b) as (Hb0 & Hb1 & Hb2).
    destruct (pretty_octet c) as (Hc0 & Hc1 & Hc2).
    destruct (pretty_octet d) as (Hd0 & Hd1 & Hd2).
    cbn zeta in *.
    set (pa := pretty (octet a)) in *. set (pb := pretty (octet b)) in *.
    set (pc := pretty (octet c)) in *. set (pd := pretty (octet d)) in *.
    assert (truthyS (pa +:+ "." +:+ pb +:+ "." +:+ pc +:+ "." +:+ pd) = true)
      as ->.
    { unfold truthyS. destruct pa; [discriminate Ha0|reflexivity]. }
    unfold Encode.matchIPv4.
    change (pa +:+ "." +:+ pb +:+ "." +:+ pc +:+ "." +:+ pd)
      with (pa +:+ String "." (pb +:+ String "." (pc +:+ String "." pd))).
    rewrite !splitOn_digits, splitOn_last by assumption.
    cbn [forallb]. rewrite Ha0, Ha1, Hb0, Hb1, Hc0, Hc1, Hd0, Hd1.
    cbn [negb andb map]. now rewrite Ha2, Hb2, Hc2, Hd2.
Qed.

Lemma ipv4_roundtrip_witness :
  Message.parseData [] [xc0; x00; x02; x21] "IN A"
    = Ok (Message.DString (Message.renderIPv4 [xc0; x00; x02; x21]))
  /\ Encode.rdataOf Encode.create "IN A"
       (Message.DString (Message.renderIPv4 [xc0; x00; x02; x21]))
     = Ok (Encode.octets [xc0; x00; x02; x21], Encode.create).
Proof.
  apply (ipv4_roundtrip [] [xc0; x00; x02; x21] Encode.create). reflexivity.
Defined.

(** ** Names on the wire *)

(** A name on the wire without compression: its labels and the zero
    label that ends it. *)
Definition wireName (labels : list string) : Buffer :=
  concat (map labelOctets labels) ++ [x00].

Lemma join_prepend labels last :
  Decode.join "." (labels ++ [last]) = prepend labels last.
Proof.
  induction labels as [|l labels IH]; [reflexivity|].
  cbn [app prepend]. rewrite <- IH.
  destruct (labels ++ [last]) eqn:E; [|reflexivity].
  now destruct labels.
Qed.

(** The loop of [encodeName] on a name none of whose suffixes is recorded
    at a usable offset. *)
Lemma encodeNameLoop_literal labels : forall fuel domains c last position,
  Forall isLabel labels ->
  isLabel last ->
  (forall k, (k <= length labels)%nat ->
     Encode.usable (getProperty domains (prepend (drop k labels) last)) c
     = None) ->
  (length labels < fuel)%nat ->
  exists domains',
    Encode.encodeNameLoop fuel domains c (prepend labels last) position
    = Ok (wireName (labels ++ [last]), domains').
Proof.
  induction labels as [|l labels IH];
    intros fuel domains c last position Hlabels Hlast Hnone Hfuel.
  - destruct fuel as [|fuel]; [simpl in Hfuel; lia|].
    cbn [prepend Encode.encodeNameLoop].
    pose proof (isTail_nonempty _ (isLabel_isTail _ Hlast)).
    destruct (Z.gtb_spec (Encode.strlen last) 0); [|lia].
    pose proof (Hnone 0%nat ltac:(simpl; lia)) as Hzero. simpl in Hzero.
    rewrite Hzero, (splitName_label _ Hlast). cbn [default from_option id].
    assert (forall d p, Encode.encodeNameLoop fuel d c "" p = Ok ([x00], d))
      as -> by (intros; now destruct fuel).
    cbn [mbind result_bind]. eexists.
    rewrite (chunk_written last) by (destruct Hlast; lia).
    unfold wireName. cbn [app map concat]. rewrite app_nil_r. reflexivity.
  - destruct fuel as [|fuel]; [simpl in Hfuel; lia|].
    inversion Hlabels as [|? ? Hl Hrest]; subst.
    pose proof (isTail_prepend _ _ Hrest (isLabel_isTail _ Hlast)) as Htail'.
    cbn [Encode.encodeNameLoop].
    pose proof (isTail_nonempty _
                  (isTail_prepend _ _ Hlabels (isLabel_isTail _ Hlast))).
    destruct (Z.gtb_spec (Encode.strlen (prepend (l :: labels) last)) 0);
      [|lia].
    pose proof (Hnone 0%nat ltac:(simpl; lia)) as Hfirst.
    rewrite drop_0 in Hfirst. rewrite Hfirst.
    cbn [prepend]. rewrite (splitName_prepend l _ Hl Htail').
    cbn [default from_option id].
    rewrite (chunk_written l) by (destruct Hl; lia).
    destruct (IH fuel
                (setPrimitive domains (l +:+ "." +:+ prepend labels last)
                   position)
                c last (position + len (labelOctets l))
                Hrest Hlast) as [domains' ->].
    + intros k Hk. rewrite getProperty_set_ne.
      * apply (Hnone (S k)). simpl. lia.
      * intros E.
        destruct (decide (k = 0%nat)) as [->|Hk0].
        -- rewrite drop_0 in E.
           pose proof (strlen_prepend_lt l labels last) as Hlt.
           simpl in Hlt. rewrite E in Hlt. lia.
        -- pose proof (strlen_prepend_drop k labels last ltac:(lia)) as Hlt.
           pose proof (strlen_prepend_lt l labels last) as Hlt'.
           simpl in Hlt'. rewrite E in Hlt'. lia.
    + simpl in Hfuel. lia.
    + cbn [mbind result_bind]. eexists. unfold wireName.
      cbn [app map concat]. rewrite <- !app_assoc. reflexivity.
Qed.

Lemma usable_off o : Encode.usable o false = None.
Proof.
  unfold Encode.usable. destruct o; try reflexivity.
  now rewrite andb_false_r.
Qed.

Lemma dropFinalDot_label l :
  Encode.allChars Encode.isLabelChar l = true -> Encode.dropFinalDot l = l.
Proof.
  induction l as [|c l IH]; intros H; [reflexivity|].
  simpl in H. apply andb_true_iff in H as [Hc Hl]. simpl.
  destruct l as [|c' l].
  - destruct (Ascii.eqb_spec c ".") as [->|_]; [discriminate Hc|reflexivity].
  - now rewrite (IH Hl).
Qed.

Lemma dropFinalDot_append a b :
  b <> "" -> Encode.dropFinalDot (a +:+ b) = a +:+ Encode.dropFinalDot b.
Proof.
  intros Hb. destruct b as [|x b]; [congruence|]. clear Hb.
  induction a as [|c a IH]; [reflexivity|].
  change (String c a +:+ String x b) with (String c (a +:+ String x b)).
  change (String c a +:+ Encode.dropFinalDot (String x b))
    with (String c (a +:+ Encode.dropFinalDot (String x b))).
  rewrite <- IH.
  destruct (a +:+ String x b) eqn:E; [|reflexivity].
  destruct a; discriminate E.
Qed.

Lemma dropFinalDot_prepend labels last :
  isLabel last ->
  Encode.dropFinalDot (prepend labels last) = prepend labels last.
Proof.
  intros [Hlen Hchars]. induction labels as [|l labels IH]; simpl.
  - now apply dropFinalDot_label.
  - assert (prepend labels last <> "") as Hne.
    { destruct labels; simpl.
      - destruct last; [unfold Encode.strlen in Hlen; simpl in Hlen; lia|
                        discriminate].
      - destruct s; discriminate. }
    rewrite dropFinalDot_append.
    + rewrite dropFinalDot_append by assumption. now rewrite IH.
    + destruct (prepend labels last); [congruence|discriminate].
Qed.

(** *** Reading a literal name *)

Lemma small_octet b :
  octet b < 64 -> Z.land (octet b) 192 = 0 /\ Z.land (octet b) 63 = octet b.
Proof.
  destruct b; vm_compute; intros H; try discriminate H; split; reflexivity.
Qed.

Lemma readUInt8_at buf i b rest :
  0 <= i -> drop (Z.to_nat i) buf = b :: rest -> readUInt8 buf i = Ok (octet b).
Proof.
  intros Hi Hdrop. unfold readUInt8. destruct (Z.ltb_spec i 0); [lia|].
  assert (buf !! Z.to_nat i = Some b) as ->; [|reflexivity].
  rewrite <- (Nat.add_0_r (Z.to_nat i)), <- lookup_drop, Hdrop. reflexivity.
Qed.

Lemma asciiChars_sevenBit l :
  sevenBit l -> map asciiChar (Encode.asciiBytes l) = list_ascii_of_string l.
Proof.
  unfold sevenBit, Encode.asciiBytes.
  induction l as [|c l IH]; intros H; [reflexivity|].
  simpl in H. apply andb_true_iff in H as [Hc Hl]. apply Z.ltb_lt in Hc.
  simpl. rewrite <- toByte_charCode, asciiChar_charCode by assumption.
  f_equal. now apply IH.
Qed.

Lemma length_labelOctets l :
  length (labelOctets l) = S (String.length l).
Proof.
  unfold labelOctets. cbn [length]. rewrite length_map. f_equal.
  induction l as [|c l IH]; simpl; [reflexivity|]. now rewrite IH.
Qed.

Lemma len_wireName_cons l labels :
  len (wireName (l :: labels)) = 1 + Encode.strlen l + len (wireName labels).
Proof.
  unfold wireName. cbn [map concat]. rewrite <- app_assoc, len_app.
  unfold len at 1. rewrite length_labelOctets.
  unfold Encode.strlen. lia.
Qed.

Section Literal.
Variable fullMessage : Buffer.
Variable offset : Z.

Lemma iterate_literal_label st l rest :
  drop (Z.to_nat (Decode.cursor st)) (Decode.buffer st)
    = labelOctets l ++ rest ->
  0 <= Decode.cursor st ->
  isLabel l -> sevenBit l ->
  Decode.iterate fullMessage offset st
  = Ok {| Decode.buffer := Decode.buffer st;
          Decode.cursor := Decode.cursor st + 1 + Encode.strlen l;
          Decode.labelLength := Encode.strlen l;
          Decode.segments := Decode.segments st ++ [l];
          Decode.pointersCache := Decode.pointersCache st;
          Decode.numOctets := Decode.numOctets st;
          Decode.metPointer := Decode.metPointer st |}
  /\ drop (Z.to_nat (Decode.cursor st + 1 + Encode.strlen l))
       (Decode.buffer st) = rest.
Proof.
  intros Hdrop Hcur [Hlen Hchars] Hseven.
  rewrite <- (chunk_written l) in Hdrop by lia.
  set (c := Decode.cursor st) in *. set (B := Decode.buffer st) in *.
  set (n := Encode.strlen l) in *.
  assert (drop (Z.to_nat (c + 1)) B = Encode.asciiBytes l ++ rest) as Hdrop1.
  { replace (Z.to_nat (c + 1)) with (S (Z.to_nat c)) by lia.
    rewrite <- drop_drop' with (n1 := 1%nat) || idtac.
    change (S (Z.to_nat c)) with (1 + Z.to_nat c)%nat.
    rewrite Nat.add_comm, <- drop_drop, Hdrop. reflexivity. }
  assert (drop (Z.to_nat (c + 1 + n)) B = rest) as Hdrop2.
  { replace (Z.to_nat (c + 1 + n))
      with (Z.to_nat (c + 1) + length (Encode.asciiBytes l))%nat
      by (rewrite length_asciiBytes; unfold n, Encode.strlen; lia).
    rewrite <- drop_drop, Hdrop1. apply drop_app_length. }
  split; [|exact Hdrop2].
  unfold Decode.iterate. fold c B.
  rewrite (readUInt8_at B c (toByte n) (Encode.asciiBytes l ++ rest))
    by assumption.
  cbn [mbind result_bind]. rewrite octet_toByte, (Z.mod_small n) by lia.
  assert (octet (toByte n) = n) as Hoct
    by (rewrite octet_toByte; apply Z.mod_small; lia).
  destruct (small_octet (toByte n) ltac:(lia)) as [Hkind Hlow].
  rewrite Hoct in Hkind, Hlow. rewrite Hkind, Hlow.
  change (0 =? 192) with false. change (0 =? 0) with true. cbn iota.
  destruct (Z.gtb_spec n 0); [|lia].
  assert (toStringAscii B (c + 1) (c + 1 + n) = l) as ->; [|reflexivity].
  { unfold toStringAscii.
    assert (len B >= c + 1 + n) as HB.
    { assert (length (drop (Z.to_nat (c + 1)) B)
              >= length (Encode.asciiBytes l))%nat as Hl
        by (rewrite Hdrop1, length_app; lia).
      rewrite length_drop, length_asciiBytes in Hl.
      unfold len, n, Encode.strlen in *. lia. }
    rewrite Z.max_r, Z.min_l by lia.
    replace (c + 1 + n - (c + 1)) with n by lia.
    rewrite Hdrop1.
    replace (Z.to_nat n) with (length (Encode.asciiBytes l))
      by (rewrite length_asciiBytes; unfold n, Encode.strlen; lia).
    rewrite take_app_length, asciiChars_sevenBit by assumption.
    apply string_of_list_ascii_of_string. }
Qed.

Lemma iterate_literal_end st rest :
  drop (Z.to_nat (Decode.cursor st)) (Decode.buffer st) = x00 :: rest ->
  0 <= Decode.cursor st ->
  Decode.iterate fullMessage offset st
  = Ok {| Decode.buffer := Decode.buffer st;
          Decode.cursor := Decode.cursor st + 1;
          Decode.labelLength := 0;
          Decode.segments := Decode.segments st;
          Decode.pointersCache := Decode.pointersCache st;
          Decode.numOctets := Decode.numOctets st;
          Decode.metPointer := Decode.metPointer st |}.
Proof.
  intros Hdrop Hcur. unfold Decode.iterate.
  rewrite (readUInt8_at (Decode.buffer st) (Decode.cursor st) x00 rest)
    by assumption.
  reflexivity.
Qed.

Lemma loop_literal labels : forall fuel st post,
  drop (Z.to_nat (Decode.cursor st)) (Decode.buffer st)
    = wireName labels ++ post ->
  0 <= Decode.cursor st ->
  Decode.labelLength st > 0 ->
  Forall isLabel labels -> Forall sevenBit labels ->
  (length labels < fuel)%nat ->
  Decode.loop fullMessage offset fuel st
  = Ok {| Decode.buffer := Decode.buffer st;
          Decode.cursor := Decode.cursor st + len (wireName labels);
          Decode.labelLength := 0;
          Decode.segments := Decode.segments st ++ labels;
          Decode.pointersCache := Decode.pointersCache st;
          Decode.numOctets := Decode.numOctets st;
          Decode.metPointer := Decode.metPointer st |}.
Proof.
  induction labels as [|l labels IH];
    intros fuel st post Hdrop Hcur Hpos Hlabels Hseven Hfuel;
    (destruct fuel as [|fuel]; [simpl in Hfuel; lia|]);
    cbn [Decode.loop]; (destruct (Z.gtb_spec (Decode.labelLength st) 0); [|lia]).
  - rewrite (iterate_literal_end st post) by assumption.
    cbn [mbind result_bind].
    assert (forall st', Decode.labelLength st' = 0 ->
              Decode.loop fullMessage offset fuel st' = Ok st') as Hstop.
    { intros st' Hz. destruct fuel; simpl; now rewrite Hz. }
    rewrite Hstop by reflexivity. rewrite app_nil_r. reflexivity.
  - inversion Hlabels as [|? ? Hl Hrest]; subst.
    inversion Hseven as [|? ? Hs Hsrest]; subst.
    unfold wireName in Hdrop. cbn [map concat] in Hdrop.
    rewrite <- !app_assoc in Hdrop.
    destruct (iterate_literal_label st l _ Hdrop Hcur Hl Hs) as [-> Hnext].
    cbn [mbind result_bind].
    pose proof (strlen_nonneg l). destruct Hl as [Hlen _].
    rewrite (IH fuel _ post); cbn [Decode.cursor Decode.buffer
      Decode.labelLength Decode.segments Decode.pointersCache
      Decode.numOctets Decode.metPointer];
      try assumption; try lia.
    + f_equal. f_equal.
      * rewrite len_wireName_cons. lia.
      * now rewrite <- app_assoc.
    + unfold wireName. rewrite <- app_assoc. exact Hnext.
    + simpl in Hfuel. lia.
Qed.

End Literal.

Lemma len_wireName labels : (Z.of_nat (length labels) < len (wireName labels)).
Proof.
  induction labels as [|l labels IH]; [reflexivity|].
  rewrite len_wireName_cons. pose proof (strlen_nonneg l).
  cbn [length]. lia.
Qed.

(** The decoder on a literal name that stands in a message. *)
Lemma compileName_literal labels (pre post : Buffer) :
  Forall isLabel labels -> Forall sevenBit labels ->
  Decode.compileName (pre ++ wireName labels ++ post) None (len pre)
  = Ok (labels, len (wireName labels)).
Proof.
  intros Hlabels Hseven.
  pose proof (len_nonneg pre). pose proof (len_nonneg post).
  pose proof (len_wireName labels) as Hwire.
  set (full := pre ++ wireName labels ++ post).
  assert (len full = len pre + len (wireName labels) + len post) as Hfull
    by (unfold full; rewrite !len_app; lia).
  rewrite compileName_valid by lia. cbn [default from_option id].
  rewrite (loop_literal full (len pre) labels _ _ post);
    cbn [Decode.initial Decode.cursor Decode.buffer Decode.labelLength
         Decode.segments Decode.metPointer];
    try assumption; try lia.
  - cbn [mbind result_bind Decode.metPointer Decode.segments Decode.cursor].
    do 2 f_equal. lia.
  - unfold len. rewrite Nat2Z.id. unfold full. apply drop_app_length.
  - unfold Decode.enough. rewrite Z.max_id, Hfull. nia.
Qed.

(** X14. A name survives the wire. The encoder, when it may not compress
    (the target of an SRV record) or has recorded no name yet, writes a
    name of labels of 7-bit characters as these labels, each behind its
    length, and a zero label; and wherever these octets stand in a
    message, the decoder reads the labels back and counts exactly these
    octets. *)
Theorem name_roundtrip init last e shift compress :
  let labels := init ++ [last] in
  Forall isLabel labels ->
  Forall sevenBit labels ->
  compress = false \/ Encode.domains e = ∅ ->
  (exists e',
     Encode.encodeName e (Decode.join "." labels) shift compress
     = Ok (wireName labels, e'))
  /\ forall pre post,
       Decode.compileName (pre ++ wireName labels ++ post) None (len pre)
       = Ok (labels, len (wireName labels))
       /\ Decode.uncompress (pre ++ wireName labels ++ post) None (len pre)
          = Ok (Decode.join "." labels).
Proof.
  intros labels Hlabels Hseven Hfresh. split.
  - unfold labels in *. rewrite join_prepend.
    apply Forall_app in Hlabels as [Hinit Hlast].
    apply Forall_inv in Hlast.
    unfold Encode.encodeName. rewrite dropFinalDot_prepend by assumption.
    destruct (encodeNameLoop_literal init
                (String.length (prepend init last)) (Encode.domains e)
                compress last (Encode.position e + shift) Hinit Hlast)
      as [domains' ->].
    + intros k _. destruct Hfresh as [->| ->]; [apply usable_off|].
      unfold Encode.usable, getProperty.
      destruct (String.eqb _ "__proto__"); [reflexivity|].
      rewrite lookup_empty. destruct (inherited _); reflexivity.
    + apply length_prepend, isLabel_isTail, Hlast.
    + cbn [mbind result_bind]. eauto.
  - intros pre post.
    pose proof (compileName_literal labels pre post Hlabels Hseven) as Hname.
    split; [exact Hname|]. unfold Decode.uncompress. now rewrite Hname.
Qed.

Lemma name_roundtrip_witness :
  (exists e',
     Encode.encodeName Encode.create
       (Decode.join "." (["www"; "example"] ++ ["com"])) 8 false
     = Ok (wireName (["www"; "example"] ++ ["com"]), e'))
  /\ forall pre post,
       Decode.compileName
         (pre ++ wireName (["www"; "example"] ++ ["com"]) ++ post) None
         (len pre)
       = Ok (["www"; "example"] ++ ["com"],
             len (wireName (["www"; "example"] ++ ["com"])))
       /\ Decode.uncompress
            (pre ++ wireName (["www"; "example"] ++ ["com"]) ++ post) None
            (len pre)
          = Ok (Decode.join "." (["www"; "example"] ++ ["com"])).
Proof.
  apply (name_roundtrip ["www"; "example"] "com" Encode.create 8 false).
  - repeat constructor; vm_compute; congruence.
  - repeat constructor.
  - left. reflexivity.
Defined.

(** ** Transport: what the sockets write *)

Lemma js_shr_8 n : 0 <= n <= 65535 -> js_shr n 8 = n / 256.
Proof.
  intros Hn. unfold js_shr, int32.
  rewrite Z.shiftr_div_pow2 by lia.
  replace ((n + 2147483648) mod 4294967296) with (n + 2147483648)
    by (symmetry; apply Z.mod_small; lia).
  replace (n + 2147483648 - 2147483648) with n by lia. reflexivity.
Qed.

Lemma js_and_255 n : 0 <= n <= 65535 -> js_and n 255 = n mod 256.
Proof.
  intros Hn. unfold js_and, int32.
  replace ((n + 2147483648) mod 4294967296) with (n + 2147483648)
    by (symmetry; apply Z.mod_small; lia).
  replace (n + 2147483648 - 2147483648) with n by lia.
  change ((255 + 2147483648) mod 4294967296 - 2147483648) with (Z.ones 8).
  rewrite Z.land_ones by lia. change (2 ^ 8) with 256.
  pose proof (Z.mod_pos_bound n 256 ltac:(lia)).
  replace ((n mod 256 + 2147483648) mod 4294967296)
    with (n mod 256 + 2147483648) by (symmetry; apply Z.mod_small; lia).
  lia.
Qed.

Lemma toByte_mod z : toByte (z mod 256) = toByte z.
Proof. unfold toByte. now rewrite Z.mod_mod by lia. Qed.

(** X1. A response of up to 65535 octets goes out over TCP as one write
    that ends the connection: the length of the payload in two octets,
    big endian, and the payload behind it, which is the framing the data
    handler of the server reads; a larger one is refused and nothing is
    written. *)
Theorem tcp_reply_framed payload :
  (len payload <= 65535 ->
   Server.send Server.TCP (Some payload)
     = Ok [Server.EndConnection (Some (frame payload))]
   /\ readUInt16BE (frame payload) 0 = Ok (len payload)
   /\ sliceFrom (frame payload) 2 = payload)
  /\ (65535 < len payload ->
      Server.send Server.TCP (Some payload) = Err ResponseTooLarge).
Proof.
  pose proof (len_nonneg payload) as Hlen. split; intros H.
  - split; [|split].
    + unfold Server.send, frame.
      destruct (Z.gtb_spec (len payload) 65535); [lia|].
      rewrite js_shr_8, js_and_255, toByte_mod by lia. reflexivity.
    + rewrite <- (app_nil_r (frame payload)).
      now apply readUInt16BE_frame.
    + rewrite <- (app_nil_r (frame payload)) at 1.
      rewrite sliceFrom_frame. apply app_nil_r.
  - unfold Server.send.
    destruct (Z.gtb_spec (len payload) 65535); [reflexivity|lia].
Qed.

Lemma tcp_reply_framed_witness :
  Server.send Server.TCP (Some firstQuery)
    = Ok [Server.EndConnection (Some (frame firstQuery))]
  /\ readUInt16BE (frame firstQuery) 0 = Ok (len firstQuery)
  /\ sliceFrom (frame firstQuery) 2 = firstQuery.
Proof.
  apply (proj1 (tcp_reply_framed firstQuery)). vm_compute. discriminate.
Defined.

(** ** Transport: the data handler of a TCP connection *)

(** The data handler once the chunks it holds join to a framed message
    and what follows it. *)
Lemma onData_joined server c chunk message rest events :
  Server.expecting c = -1 ->
  Server.received c + len chunk = 2 + len message + len rest ->
  Server.joinHead (length (Server.chunks c ++ [chunk]))
    (Server.chunks c ++ [chunk]) = Ok [frame message ++ rest] ->
  len message <= 65535 ->
  Server.dispatch server Server.TCP message = Ok events ->
  Server.onData server c chunk
  = ({| Server.expecting := -1;
        Server.received := len message + len rest + 1;
        Server.chunks := [sliceFrom (message ++ rest) (-1)] |},
     Ok events).
Proof.
  intros Hexp Hrec Hjoin Hlen Hdispatch.
  pose proof (len_nonneg message). pose proof (len_nonneg rest).
  unfold Server.onData.
  cbn [Server.expecting Server.received Server.chunks].
  rewrite Hexp, Hrec, Hjoin. change (-1 <? 0) with true.
  destruct (Z.geb_spec (2 + len message + len rest) 2); [|lia].
  cbn [andb head default from_option id].
  rewrite readUInt16BE_frame by assumption.
  cbn [Server.expecting Server.chunks concat].
  destruct (Z.gtb_spec (len message) (-1)); [|lia].
  destruct (Z.geb_spec (2 + len message + len rest) (2 + len message));
    [|lia].
  cbn [andb]. rewrite app_nil_r, sliceFrom_frame, slice_prefix, Hdispatch.
  rewrite len_app.
  destruct (Z.gtb_spec (len message + len rest - -1) 0); [|lia].
  repeat f_equal; lia.
Qed.

(** The events the server answers the TXT query of the documentation
    with, over TCP. *)
Definition firstQueryEvents : list Server.Event :=
  match Server.dispatch exampleServer Server.TCP firstQuery with
  | Ok events => events
  | Err _ => []
  end.

Lemma onData_first_message_witness :
  Server.onData exampleServer Server.onTcpConnection
    (frame firstQuery ++ frame secondQuery)
  = ({| Server.expecting := -1;
        Server.received := len firstQuery + len (frame secondQuery) + 1;
        Server.chunks :=
          [sliceFrom (firstQuery ++ frame secondQuery) (-1)] |},
     Ok firstQueryEvents).
Proof.
  apply (onData_first_message exampleServer firstQuery (frame secondQuery)
           firstQueryEvents).
  - vm_compute. discriminate.
  - vm_compute. reflexivity.
Defined.

(** X3. A length prefix that arrives split over two data events is put
    together: the first event, of one octet, dispatches nothing, and the
    second dispatches the message the two octets announce, once. *)
Theorem tcp_split_length_joined server message rest events :
  len message <= 65535 ->
  Server.dispatch server Server.TCP message = Ok events ->
  Server.onDataEvents server Server.onTcpConnection
    [take 1 (frame message); drop 1 (frame message) ++ rest]
  = ({| Server.expecting := -1;
        Server.received := len message + len rest + 1;
        Server.chunks := [sliceFrom (message ++ rest) (-1)] |},
     Ok events).
Proof.
  intros Hlen Hdispatch.
  pose proof (len_nonneg message). pose proof (len_nonneg rest).
  unfold frame. cbn [take drop app Server.onDataEvents].
  set (b0 := toByte (len message / 256)). set (b1 := toByte (len message)).
  assert (Server.onData server Server.onTcpConnection [b0]
          = ({| Server.expecting := -1; Server.received := 1;
                Server.chunks := [[b0]] |}, Ok [])) as ->
    by reflexivity.
  rewrite (onData_joined server _ (b1 :: message ++ rest) message rest events);
    try assumption; try reflexivity.
  - now rewrite app_nil_r.
  - cbn [Server.received]. change (b1 :: message ++ rest)
      with ([b1] ++ message ++ rest). rewrite !len_app.
    change (len [b1]) with 1. lia.
  - cbn [Server.chunks app length Server.joinHead].
    change (len [b0] <? 2) with true. cbn iota.
    assert (len (frame message ++ rest) = 2 + len message + len rest) as Hf.
    { unfold frame. rewrite !len_app. reflexivity. }
    match goal with
    | |- context [len ?joined <? 2] =>
        change joined with (frame message ++ rest)
    end.
    rewrite Hf. destruct (Z.ltb_spec (2 + len message + len rest) 2); [lia|].
    reflexivity.
Qed.

Lemma tcp_split_length_joined_witness :
  Server.onDataEvents exampleServer Server.onTcpConnection
    [take 1 (frame firstQuery); drop 1 (frame firstQuery) ++ []]
  = ({| Server.expecting := -1;
        Server.received := len firstQuery + len (@nil byte) + 1;
        Server.chunks := [sliceFrom (firstQuery ++ []) (-1)] |},
     Ok firstQueryEvents).
Proof.
  apply (tcp_split_length_joined exampleServer firstQuery [] firstQueryEvents).
  - vm_compute. discriminate.
  - vm_compute. reflexivity.
Defined.

(** ** [DNSResponse.end] *)

(** The two responses of [end] are one object unless an object was
    adopted. *)
Definition coherent (st : Server.Responses) : Prop :=
  Server.same st = true -> Server.this st = Server.that st.

Lemma onThat_same f st : Server.same (Server.onThat f st) = Server.same st.
Proof. unfold Server.onThat. now destruct (Server.same st) eqn:Hs. Qed.

Lemma onThis_same f st : Server.same (Server.onThis f st) = Server.same st.
Proof. unfold Server.onThis. now destruct (Server.same st) eqn:Hs. Qed.

Lemma onThat_coherent f st : coherent (Server.onThat f st).
Proof.
  unfold coherent, Server.onThat. destruct (Server.same st); simpl;
    [reflexivity|discriminate].
Qed.

Lemma onThis_coherent f st : coherent (Server.onThis f st).
Proof.
  unfold coherent, Server.onThis. destruct (Server.same st); simpl;
    [reflexivity|discriminate].
Qed.

Lemma perQuestion_coherent server value n st question st' :
  Server.perQuestion server value n st question = Ok (Server.Continue st') ->
  coherent st ->
  coherent st' /\ Server.same st' = Server.same st.
Proof.
  unfold Server.perQuestion. intros H Hco.
  destruct (Server.findZoneForName _ _) as [[soaRecord| |]|];
    cbn [mbind result_bind] in H; try discriminate H.
  3:{ injection H as <-. auto. }
  2:{ match type of H with
      | (if ?b then _ else _) = _ => destruct b; discriminate H
      end. }
  match type of H with
  | match ?switched with _ => _ end = _ =>
      assert (forall st0, switched = Server.Continue st0 ->
                coherent st0 /\ Server.same st0 = Server.same st) as Hsw;
      [|destruct switched as [st0|]; [|discriminate H];
        destruct (Hsw st0 eq_refl) as [Hco0 Hs0]; clear Hsw]
  end.
  { intros st0.
    repeat match goal with
           | |- context [if ?b then _ else _] => destruct b
           | |- context [match ?o with Some _ => _ | None => _ end] =>
               destruct o
           end;
      intros [= <-]; auto using onThat_coherent, onThat_same. }
  destruct (Server.soaTtl soaRecord); cbn [mbind result_bind] in H;
    [|discriminate H].
  injection H as <-. split; [apply onThat_coherent|].
  rewrite onThat_same.
  destruct (_ && _); [rewrite onThat_same|]; assumption.
Qed.

Lemma perQuestions_coherent server value n questions : forall st st',
  Server.perQuestions server value n st questions
    = Ok (Server.Continue st') ->
  coherent st ->
  coherent st' /\ Server.same st' = Server.same st.
Proof.
  induction questions as [|question rest IH]; intros st st' H Hco; simpl in H.
  - injection H as <-. auto.
  - destruct (Server.perQuestion _ _ _ _ _) as [[st1|]|] eqn:H1;
      cbn [mbind result_bind] in H; try discriminate H.
    apply perQuestion_coherent in H1 as [Hco1 Hs1]; [|assumption].
    apply IH in H as [Hco' Hs']; [|assumption].
    split; [assumption|congruence].
Qed.

Lemma ensureEDNS_coherent st st' :
  Server.ensureEDNS st = Server.Continue st' ->
  coherent st ->
  coherent st' /\ Server.same st' = Server.same st.
Proof.
  unfold Server.ensureEDNS. intros H Hco.
  repeat match type of H with
         | context [if ?b then _ else _] => destruct b
         end;
    try discriminate H; injection H as <-;
    rewrite ?onThis_same; auto using onThis_coherent.
Qed.

(** X4. When [end] is called without an object to adopt and the response
    holds neither answers nor authority records once the convenience
    processing is over, whatever the promise resolves with has put no
    payload on the wire: no datagram over UDP, and over TCP the
    connection is ended without data. *)
Theorem end_without_records_silent server transport r value ended actions :
  (forall body, value <> Server.VObject body) ->
  Server.end_ server transport r value = Ok ended ->
  Message.m_answer (Server.message (Server.that (Server.responses ended)))
    = [] ->
  Message.m_authority (Server.message (Server.that (Server.responses ended)))
    = [] ->
  Server.promise ended = Ok actions ->
  Server.transmitted actions = [].
Proof.
  intros Hvalue Hend Han Hns Hok. unfold Server.end_ in Hend.
  destruct (Server.adopt r value) as [[st text]|] eqn:Hadopt;
    cbn [mbind result_bind] in Hend; [|discriminate Hend].
  assert (coherent st /\ Server.same st = true) as [Hco Hsame].
  { destruct value; simpl in Hadopt; try (injection Hadopt as <- _);
      try (split; [intros _|]; reflexivity).
    now destruct (Hvalue body). }
  destruct (Server.perQuestions _ _ _ _ _) as [[st1|]|] eqn:Hpass;
    cbn [mbind result_bind] in Hend; [| |discriminate Hend].
  2:{ injection Hend as <-. discriminate Hok. }
  apply perQuestions_coherent in Hpass as [Hco1 Hs1];
    [|apply onThat_coherent].
  rewrite onThat_same in Hs1.
  destruct (Server.ensureEDNS st1) as [st2|] eqn:Hedns.
  2:{ injection Hend as <-. discriminate Hok. }
  apply ensureEDNS_coherent in Hedns as [Hco2 Hs2]; [|assumption].
  assert (Server.hasPayload st2 = false -> ended
            = {| Server.responses := st2;
                 Server.promise := Server.send transport None |}) as Hquiet.
  { intros Hq. rewrite Hq in Hend. cbn [mbind result_bind] in Hend.
    now injection Hend as <-. }
  destruct (Server.hasPayload st2) eqn:Hpay.
  - destruct (Encode.messageToBinary _);
      cbn [fmap result_fmap mbind result_bind] in Hend;
      [|discriminate Hend].
    injection Hend as <-. simpl in Han, Hns.
    unfold Server.hasPayload in Hpay.
    rewrite (Hco2 ltac:(congruence)), Han, Hns in Hpay.
    rewrite !bool_decide_eq_true_2 in Hpay by reflexivity. discriminate Hpay.
  - rewrite (Hquiet eq_refl) in Hok. simpl in Hok.
    destruct transport; injection Hok as <-; reflexivity.
Qed.

(** The response prepared for an A query for [example.org], which no zone
    of [exampleServer] covers, and what [end] leaves of it over TCP. *)
Definition strangerResponse : Server.DNSResponse :=
  {| Server.message :=
       {| Message.m_id := Some 124; Message.m_type := Some "response";
          Message.m_responseCode := Some 0; Message.m_opcode := Some "query";
          Message.m_authoritative := false; Message.m_truncated := false;
          Message.m_recursionDesired := true;
          Message.m_recursionAvailable := false;
          Message.m_authenticated := false;
          Message.m_checkingDisabled := false;
          Message.m_question :=
            [ {| Message.r_name := "example.org"; Message.r_type := Some "A";
                 Message.r_class := Some "IN"; Message.r_ttl := None;
                 Message.r_data := Message.DUndefined;
                 Message.r_edns := None |} ];
          Message.m_answer := []; Message.m_authority := [];
          Message.m_additional := [] |};
     Server.requestorEDNS := None |}.

Definition strangerEnded : Server.Ended :=
  {| Server.responses :=
       {| Server.same := true;
          Server.this :=
            Server.onMessage Server.markAuthoritative strangerResponse;
          Server.that :=
            Server.onMessage Server.markAuthoritative strangerResponse |};
     Server.promise := Ok [Server.EndConnection None] |}.

Lemma end_without_records_silent_witness :
  Server.end_ exampleServer Server.TCP strangerResponse Server.VUndefined
    = Ok strangerEnded
  /\ Server.transmitted [Server.EndConnection None] = [].
Proof.
  assert (Server.end_ exampleServer Server.TCP strangerResponse
            Server.VUndefined = Ok strangerEnded) as Hend
    by (vm_compute; reflexivity).
  split; [exact Hend|].
  apply (end_without_records_silent exampleServer Server.TCP strangerResponse
           Server.VUndefined strangerEnded).
  - discriminate.
  - exact Hend.
  - reflexivity.
  - reflexivity.
  - reflexivity.
Defined.

(** *** Questions outside of every zone *)

Lemma perQuestions_out_of_zone server value n st questions :
  Forall (fun question =>
            Server.findZoneForName server (Message.r_name question)
            = Ok Server.Missing) questions ->
  Server.perQuestions server value n st questions = Ok (Server.Continue st).
Proof.
  induction 1 as [|question rest Hq _ IH]; simpl; [reflexivity|].
  unfold Server.perQuestion. rewrite Hq. cbn [mbind result_bind]. exact IH.
Qed.

(** A response without answers and authority records. *)
Definition bare (r : Server.DNSResponse) : Prop :=
  Message.m_answer (Server.message r) = []
  /\ Message.m_authority (Server.message r) = [].

Lemma onFirstEDNSOf_bare f r :
  bare r -> bare (Server.onMessage (Server.onFirstEDNSOf f) r).
Proof.
  intros [Han Hns]. unfold bare, Server.onMessage, Server.onFirstEDNSOf.
  cbn [Server.message]. rewrite Han, Hns. cbn [Server.onFirstEDNS].
  destruct (Server.onFirstEDNS f (Message.m_question _)); [now split|].
  destruct (Server.onFirstEDNS f (Message.m_additional _)); now split.
Qed.

Lemma addEDNSReply_bare r requestor :
  bare r -> bare (Server.addEDNSReply r requestor).
Proof. intros [Han Hns]. now split. Qed.

Lemma ensureEDNS_bare st st' :
  Server.ensureEDNS st = Server.Continue st' ->
  bare (Server.this st) -> bare (Server.this st').
Proof.
  unfold Server.ensureEDNS. intros H Hbare.
  assert (forall g st0, (forall r, bare r -> bare (g r)) ->
            bare (Server.this st0) ->
            bare (Server.this (Server.onThis g st0))) as Hon.
  { intros g st0 Hg Hb. unfold Server.onThis.
    destruct (Server.same st0); apply Hg, Hb. }
  repeat match type of H with
         | context [if ?b then _ else _] => destruct b
         end;
    try discriminate H; injection H as <-;
    repeat first [assumption
                 | apply Hon; [intros r0 Hr0|]
                 | apply onFirstEDNSOf_bare
                 | apply addEDNSReply_bare].
Qed.

(** [end] called without a value, or with a string. *)
Definition plainValue (value : Server.EndValue) : Prop :=
  value = Server.VUndefined \/ exists text, value = Server.VString text.

(** X5. A query for names that no registered zone covers is met with
    silence: when the handler has pushed neither answers nor authority
    records and ends the response without a value or with a string, [end]
    adds no record to the two sections, and its promise either resolves
    after [send] was given no payload, or is rejected for the EDNS
    records of the response. *)
Theorem out_of_zone_silent server transport r value :
  plainValue value ->
  Forall (fun question =>
            Server.findZoneForName server (Message.r_name question)
            = Ok Server.Missing)
    (Message.m_question (Server.message r)) ->
  bare r ->
  exists ended,
    Server.end_ server transport r value = Ok ended
    /\ bare (Server.that (Server.responses ended))
    /\ (Server.promise ended = Server.send transport None
        \/ Server.promise ended = Err InvalidEDNSResponse).
Proof.
  intros Hvalue Hzone [Han Hns]. unfold Server.end_.
  set (st := {| Server.same := true; Server.this := r; Server.that := r |}).
  assert (exists text, Server.adopt r value = Ok (st, text)) as [text ->].
  { destruct Hvalue as [->|[text ->]]; simpl; eauto. }
  cbn [mbind result_bind].
  rewrite perQuestions_out_of_zone by exact Hzone.
  cbn [mbind result_bind].
  set (st1 := Server.onThat Server.markAuthoritative st).
  assert (bare (Server.this st1)) as Hbare1 by (split; assumption).
  destruct (Server.ensureEDNS st1) as [st2|e] eqn:Hedns.
  - pose proof (ensureEDNS_bare _ _ Hedns Hbare1) as [Han2 Hns2].
    apply ensureEDNS_coherent in Hedns as [Hco2 Hs2];
      [|apply onThat_coherent].
    assert (Server.this st2 = Server.that st2) as Hsame
      by (apply Hco2; rewrite Hs2; reflexivity).
    assert (Server.hasPayload st2 = false) as ->.
    { unfold Server.hasPayload. rewrite <- Hsame, Han2, Hns2.
      now rewrite !bool_decide_eq_true_2 by reflexivity. }
    cbn [mbind result_bind]. eexists. split; [reflexivity|].
    cbn [Server.responses Server.promise]. rewrite <- Hsame.
    split; [split; assumption|now left].
  - eexists. split; [reflexivity|].
    cbn [Server.responses Server.promise].
    split; [split; assumption|right].
    unfold Server.ensureEDNS in Hedns.
    repeat match type of Hedns with
           | context [if ?b then _ else _] => destruct b
           end; congruence.
Qed.

Lemma out_of_zone_silent_witness :
  exists ended,
    Server.end_ exampleServer Server.UDP strangerResponse Server.VUndefined
      = Ok ended
    /\ bare (Server.that (Server.responses ended))
    /\ (Server.promise ended = Server.send Server.UDP None
        \/ Server.promise ended = Err InvalidEDNSResponse).
Proof.
  apply (out_of_zone_silent exampleServer Server.UDP strangerResponse
           Server.VUndefined).
  - left. reflexivity.
  - repeat constructor.
  - split; reflexivity.
Defined.

(** *** Flags of the response *)

(** The two flags [end] forces on the response it sends. *)
Definition authoritativeOnly (msg : Message.DNSMessage) : Prop :=
  Message.m_authoritative msg = true
  /\ Message.m_recursionAvailable msg = false.

Definition keepsFlags (f : Message.DNSMessage -> Message.DNSMessage) : Prop :=
  forall msg, authoritativeOnly msg -> authoritativeOnly (f msg).

Lemma onFirstEDNSOf_keepsFlags f : keepsFlags (Server.onFirstEDNSOf f).
Proof.
  intros msg H. unfold Server.onFirstEDNSOf.
  repeat match goal with
         | |- context [match ?o with Some _ => _ | None => _ end] =>
             destruct o
         end; exact H.
Qed.

Lemma onThat_flags f st :
  keepsFlags f ->
  authoritativeOnly (Server.message (Server.that st)) ->
  coherent st ->
  authoritativeOnly (Server.message (Server.that (Server.onThat f st))).
Proof.
  intros Hf H Hco. unfold Server.onThat.
  destruct (Server.same st) eqn:Hs; cbn [Server.that Server.onMessage Server.message].
  - apply Hf. now rewrite (Hco Hs).
  - apply Hf, H.
Qed.

Lemma onThis_flags f st :
  keepsFlags f ->
  authoritativeOnly (Server.message (Server.that st)) ->
  coherent st ->
  authoritativeOnly
    (Server.message (Server.that (Server.onThis (Server.onMessage f) st))).
Proof.
  intros Hf H Hco. unfold Server.onThis.
  destruct (Server.same st) eqn:Hs; cbn [Server.that Server.onMessage Server.message].
  - apply Hf. now rewrite (Hco Hs).
  - exact H.
Qed.

Lemma perQuestion_flags server value n st question st' :
  Server.perQuestion server value n st question = Ok (Server.Continue st') ->
  coherent st ->
  authoritativeOnly (Server.message (Server.that st)) ->
  authoritativeOnly (Server.message (Server.that st')).
Proof.
  unfold Server.perQuestion. intros H Hco Hflags.
  destruct (Server.findZoneForName _ _) as [[soaRecord| |]|];
    cbn [mbind result_bind] in H; try discriminate H.
  3:{ now injection H as <-. }
  2:{ match type of H with
      | (if ?b then _ else _) = _ => destruct b; discriminate H
      end. }
  match type of H with
  | match ?switched with _ => _ end = _ =>
      assert (forall st0, switched = Server.Continue st0 ->
                coherent st0
                /\ authoritativeOnly (Server.message (Server.that st0)))
        as Hsw;
      [|destruct switched as [st0|]; [|discriminate H];
        destruct (Hsw st0 eq_refl) as [Hco0 Hf0]; clear Hsw]
  end.
  { intros st0.
    repeat match goal with
           | |- context [if ?b then _ else _] => destruct b
           | |- context [match ?o with Some _ => _ | None => _ end] =>
               destruct o
           end;
      intros [= <-]; split;
      auto using onThat_coherent;
      apply onThat_flags; auto; intros msg Hm; exact Hm. }
  destruct (Server.soaTtl soaRecord); cbn [mbind result_bind] in H;
    [|discriminate H].
  injection H as <-.
  apply onThat_flags; [intros msg Hm; exact Hm| |].
  - destruct (_ && _); [|assumption].
    apply onThat_flags; auto. intros msg Hm; exact Hm.
  - destruct (_ && _); [apply onThat_coherent|assumption].
Qed.

Lemma perQuestions_flags server value n questions : forall st st',
  Server.perQuestions server value n st questions
    = Ok (Server.Continue st') ->
  coherent st ->
  authoritativeOnly (Server.message (Server.that st)) ->
  authoritativeOnly (Server.message (Server.that st')).
Proof.
  induction questions as [|question rest IH]; intros st st' H Hco Hf;
    simpl in H.
  - now injection H as <-.
  - destruct (Server.perQuestion _ _ _ _ _) as [[st1|]|] eqn:H1;
      cbn [mbind result_bind] in H; try discriminate H.
    pose proof (perQuestion_flags _ _ _ _ _ _ H1 Hco Hf) as Hf1.
    apply perQuestion_coherent in H1 as [Hco1 _]; [|assumption].
    eapply IH; eassumption.
Qed.

Lemma ensureEDNS_flags st st' :
  Server.ensureEDNS st = Server.Continue st' ->
  coherent st ->
  authoritativeOnly (Server.message (Server.that st)) ->
  authoritativeOnly (Server.message (Server.that st')).
Proof.
  unfold Server.ensureEDNS. intros H Hco Hf.
  assert (forall st0,
            coherent st0 ->
            authoritativeOnly (Server.message (Server.that st0)) ->
            authoritativeOnly
              (Server.message
                 (Server.that
                    (Server.onThis
                       (fun r => Server.addEDNSReply r (Server.requestorEDNS r))
                       st0)))) as Hadd.
  { intros st0 Hco0 Hf0. unfold Server.onThis.
    destruct (Server.same st0) eqn:Hs; cbn [Server.that]; [|exact Hf0].
    rewrite (Hco0 Hs). exact Hf0. }
  repeat match type of H with
         | context [if ?b then _ else _] => destruct b
         end;
    try discriminate H; injection H as <-;
    repeat first [assumption
                 | apply Hadd
                 | apply onFirstEDNSOf_keepsFlags
                 | apply onThis_coherent
                 | apply onThis_flags].
Qed.

(** X6. Whatever [end] is called with, the response it goes on to send is
    marked authoritative and does not offer recursion; the flags of the
    adopted object and those the handler has set do not survive. *)
Theorem end_forces_authoritative server transport r value ended :
  Server.end_ server transport r value = Ok ended ->
  authoritativeOnly (Server.message (Server.that (Server.responses ended))).
Proof.
  unfold Server.end_. intros Hend.
  destruct (Server.adopt r value) as [[st text]|] eqn:Hadopt;
    cbn [mbind result_bind] in Hend; [|discriminate Hend].
  set (st0 := Server.onThat Server.markAuthoritative st) in *.
  assert (coherent st0) as Hco0 by apply onThat_coherent.
  assert (authoritativeOnly (Server.message (Server.that st0))) as Hf0.
  { unfold st0, Server.onThat.
    destruct (Server.same st); split; reflexivity. }
  destruct (Server.perQuestions _ _ _ _ _) as [[st1|]|] eqn:Hpass;
    cbn [mbind result_bind] in Hend; [| |discriminate Hend].
  2:{ injection Hend as <-. exact Hf0. }
  pose proof (perQuestions_flags _ _ _ _ _ _ Hpass Hco0 Hf0) as Hf1.
  apply perQuestions_coherent in Hpass as [Hco1 _]; [|assumption].
  destruct (Server.ensureEDNS st1) as [st2|] eqn:Hedns.
  2:{ injection Hend as <-. exact Hf1. }
  pose proof (ensureEDNS_flags _ _ Hedns Hco1 Hf1) as Hf2.
  destruct (if Server.hasPayload st2 then _ else _);
    cbn [mbind result_bind] in Hend; [|discriminate Hend].
  injection Hend as <-. exact Hf2.
Qed.

Lemma end_forces_authoritative_witness :
  authoritativeOnly
    (Server.message (Server.that (Server.responses strangerEnded))).
Proof.
  apply (end_forces_authoritative exampleServer Server.TCP strangerResponse
           Server.VUndefined strangerEnded).
  vm_compute. reflexivity.
Defined.

(** ** Zones *)



(** X18. The zone lookup returns what [zones] holds under the first name
    that finds something, going from the full name towards the root one
    label at a time: a name made of [labels] in front of [suffix], none of
    which finds anything before [suffix] does, is answered with what
    [zones] holds under [suffix]. *)
Theorem zone_lookup_first_match server labels suffix :
  Forall isLabel labels ->
  isTail suffix ->
  Server.zoneAt (Server.zones server) suffix <> Server.Missing ->
  (forall k, (k < length labels)%nat ->
     Server.zoneAt (Server.zones server) (prepend (drop k labels) suffix)
     = Server.Missing) ->
  Server.findZoneForName server (prepend labels suffix)
  = Ok (Server.zoneAt (Server.zones server) suffix).
Proof.
  intros Hlabels Htail Hzone Hlonger. unfold Server.findZoneForName.
  apply findZoneLoop_suffix; try assumption.
  now apply length_prepend.
Qed.

Lemma zone_lookup_first_match_witness :
  Server.findZoneForName exampleServer (prepend ["foo"; "bar"] "example.com")
  = Ok (Server.zoneAt (Server.zones exampleServer) "example.com").
Proof.
  apply (zone_lookup_first_match exampleServer ["foo"; "bar"] "example.com").
  - repeat constructor; apply label_checked; reflexivity.
  - split; [eexists _, _; split; reflexivity|reflexivity].
  - vm_compute. discriminate.
  - intros k Hk. destruct k as [|[|k]]; [reflexivity|reflexivity|].
    simpl in Hk. lia.
Defined.

(** X19. A name made of labels none of whose suffixes finds anything in
    [zones] has no zone: the lookup returns [null] and throws nothing. *)
Theorem zone_lookup_none server labels last :
  Forall isLabel labels ->
  isLabel last ->
  (forall k, (k <= length labels)%nat ->
     Server.zoneAt (Server.zones server) (prepend (drop k labels) last)
     = Server.Missing) ->
  Server.findZoneForName server (prepend labels last) = Ok Server.Missing.
Proof.
  intros Hlabels Hlast Hnone. unfold Server.findZoneForName.
  apply findZoneLoop_none; try assumption.
  apply length_prepend. now apply isLabel_isTail.
Qed.

Lemma zone_lookup_none_witness :
  Server.findZoneForName exampleServer (prepend ["example"] "org")
  = Ok Server.Missing.
Proof.
  apply (zone_lookup_none exampleServer ["example"] "org").
  - repeat constructor; apply label_checked; reflexivity.
  - apply label_checked; reflexivity.
  - intros k Hk. destruct k as [|[|k]]; [reflexivity|reflexivity|].
    simpl in Hk. lia.
Defined.

(** ** What the encoder writes *)

(** The chunks of a section by its name. *)
Definition chunksOf (e : Encode.Encoder) (sectionName : string)
  : list Buffer :=
  if String.eqb sectionName "question" then Encode.question e
  else if String.eqb sectionName "answer" then Encode.answer e
  else if String.eqb sectionName "authority" then Encode.authority e
  else if String.eqb sectionName "additional" then Encode.additional e
  else [].

(** The records of a section of a message by its name. *)
Definition recordsOf (msg : Message.DNSMessage) (sectionName : string)
  : list Message.DNSRecord :=
  if String.eqb sectionName "question" then Message.m_question msg
  else if String.eqb sectionName "answer" then Message.m_answer msg
  else if String.eqb sectionName "authority" then Message.m_authority msg
  else if String.eqb sectionName "additional" then Message.m_additional msg
  else [].

(** Two states of the encoder that differ in the dictionary of names at
    most. *)
Definition sameOutput (e e' : Encode.Encoder) : Prop :=
  Encode.header e' = Encode.header e
  /\ Encode.position e' = Encode.position e
  /\ forall sectionName, chunksOf e' sectionName = chunksOf e sectionName.

Lemma sameOutput_refl e : sameOutput e e.
Proof. now repeat split. Qed.

Lemma sameOutput_trans e1 e2 e3 :
  sameOutput e1 e2 -> sameOutput e2 e3 -> sameOutput e1 e3.
Proof.
  intros (Hh & Hp & Hs) (Hh' & Hp' & Hs').
  split; [congruence|split; [congruence|]].
  intros s. now rewrite Hs', Hs.
Qed.

Lemma encodeName_sameOutput e fqdn shift c buf e' :
  Encode.encodeName e fqdn shift c = Ok (buf, e') -> sameOutput e e'.
Proof.
  unfold Encode.encodeName.
  destruct (Encode.encodeNameLoop _ _ _ _ _) as [[b d]|]; [|discriminate].
  cbn [mbind result_bind]. intros [= _ <-]. now repeat split.
Qed.

Lemma rdataOf_sameOutput e kindOfRecord data rdata e' :
  Encode.rdataOf e kindOfRecord data = Ok (rdata, e') -> sameOutput e e'.
Proof.
  unfold Encode.rdataOf. intros H.
  repeat match type of H with
         | context [if String.eqb ?a ?b then _ else _] =>
             destruct (String.eqb a b)
         | context [if ?a || ?b then _ else _] => destruct (a || b)
         end;
    destruct data; try discriminate H;
    repeat match type of H with
           | context [Encode.encodeName ?e0 ?n ?s ?c] =>
               let E := fresh "E" in
               destruct (Encode.encodeName e0 n s c) as [[? ?]|] eqn:E;
               [apply encodeName_sameOutput in E|discriminate H];
               cbn [mbind result_bind] in H
           | context [Encode.buf16 ?v] =>
               destruct (Encode.buf16 v); [|discriminate H];
               cbn [mbind result_bind] in H
           | context [Encode.buf32 ?v] =>
               destruct (Encode.buf32 v); [|discriminate H];
               cbn [mbind result_bind] in H
           | context [Encode.hexPairs ?v] =>
               destruct (Encode.hexPairs v); [|discriminate H];
               cbn [mbind result_bind] in H
           | context [match ?x with Some _ => _ | None => _ end] =>
               destruct x; try discriminate H
           | context [if ?b then _ else _] =>
               destruct b; try discriminate H
           end;
    try (injection H as _ <-);
    eauto using sameOutput_refl, sameOutput_trans.
Qed.

Lemma setPosition_sameSections e p sectionName :
  chunksOf (Encode.setPosition e p) sectionName = chunksOf e sectionName.
Proof. reflexivity. Qed.

(** [pushSection] appends the chunk to the section it names and touches
    nothing else. *)
Lemma pushSection_output e sectionName chunk e' :
  Encode.pushSection e sectionName chunk = Ok e' ->
  Encode.header e' = Encode.header e
  /\ Encode.position e' = Encode.position e
  /\ forall name,
       chunksOf e' name
       = if String.eqb name sectionName then chunksOf e name ++ [chunk]
         else chunksOf e name.
Proof.
  unfold Encode.pushSection. intros H.
  repeat match type of H with
         | context [if String.eqb ?a ?b then _ else _] =>
             destruct (String.eqb_spec a b) as [->|?]
         end; try discriminate H; injection H as <-;
    (split; [reflexivity|split; [reflexivity|]]);
    intros name; unfold chunksOf;
    repeat match goal with
           | |- context [String.eqb name ?b] =>
               destruct (String.eqb_spec name b) as [->|?]
           end; try reflexivity; try congruence.
Qed.

Lemma len_concat_snoc (chunks : list Buffer) chunk :
  len (concat (chunks ++ [chunk])) = len (concat chunks) + len chunk.
Proof. rewrite concat_app, len_app. simpl. now rewrite app_nil_r. Qed.

(** The octets of the sections an encoder holds. *)
Definition written (e : Encode.Encoder) : Z :=
  len (concat (chunksOf e "question")) + len (concat (chunksOf e "answer"))
  + len (concat (chunksOf e "authority"))
  + len (concat (chunksOf e "additional")).

Lemma pushSection_written e sectionName chunk e' :
  Encode.pushSection e sectionName chunk = Ok e' ->
  written e' = written e + len chunk.
Proof.
  intros H. pose proof (pushSection_output _ _ _ _ H) as (_ & _ & Hs).
  unfold written. rewrite !Hs.
  unfold Encode.pushSection in H.
  repeat match type of H with
         | context [if String.eqb ?a ?b then _ else _] =>
             destruct (String.eqb_spec a b) as [->|?]
         end; try discriminate H;
    cbn [String.eqb Ascii.eqb Bool.eqb]; rewrite len_concat_snoc; lia.
Qed.

Lemma writeUInt16BE_len v w : writeUInt16BE v = Ok w -> len w = 2.
Proof.
  unfold writeUInt16BE. destruct (_ || _); [discriminate|].
  now intros [= <-].
Qed.

Lemma writeUInt32BE_len v w : writeUInt32BE v = Ok w -> len w = 4.
Proof.
  unfold writeUInt32BE. destruct (_ || _); [discriminate|].
  now intros [= <-].
Qed.

(** A regular record: one chunk more in its section, and the position
    moved by the length of the chunk. *)
Lemma record_output e sectionName r e' :
  Encode.record e sectionName r = Ok e' ->
  exists chunk,
    Encode.header e' = Encode.header e
    /\ Encode.position e' = Encode.position e + len chunk
    /\ written e' = written e + len chunk
    /\ forall name,
         chunksOf e' name
         = if String.eqb name sectionName then chunksOf e name ++ [chunk]
           else chunksOf e name.
Proof.
  unfold Encode.record. intros H.
  destruct (Encode.encodeName e (Message.r_name r) 0 true)
    as [[name e1]|] eqn:Hname; [|discriminate H].
  apply encodeName_sameOutput in Hname as (Hh1 & Hp1 & Hs1).
  cbn [mbind result_bind] in H.
  destruct (Constants.typeToNumber _); [|discriminate H].
  cbn [mbind result_bind] in H.
  destruct (Constants.classToNumber _); [|discriminate H].
  cbn [mbind result_bind] in H.
  destruct (writeUInt16BE a) as [typeBuf|] eqn:Ht; [|discriminate H].
  cbn [mbind result_bind] in H.
  destruct (writeUInt16BE a0) as [classBuf|] eqn:Hc; [|discriminate H].
  cbn [mbind result_bind] in H.
  apply writeUInt16BE_len in Ht, Hc.
  destruct (negb _).
  - destruct (writeUInt32BE _) as [ttlBuf|] eqn:Httl; [|discriminate H].
    cbn [mbind result_bind] in H. apply writeUInt32BE_len in Httl.
    destruct (Encode.rdataOf _ _ _) as [[rdata e2]|] eqn:Hrdata;
      [|discriminate H].
    apply rdataOf_sameOutput in Hrdata as (Hh2 & Hp2 & Hs2).
    cbn [Encode.setPosition Encode.header Encode.position] in Hh2, Hp2.
    cbn [mbind result_bind] in H.
    destruct (writeUInt16BE _) as [lengthBuf|] eqn:Hl; [|discriminate H].
    cbn [mbind result_bind] in H. apply writeUInt16BE_len in Hl.
    pose proof (pushSection_written _ _ _ _ H) as Hw.
    apply pushSection_output in H as (Hh3 & Hp3 & Hs3).
    exists (name ++ typeBuf ++ classBuf ++ ttlBuf ++ lengthBuf
              ++ map toByte rdata).
    split; [|split; [|split]].
    + rewrite Hh3. cbn [Encode.setPosition Encode.header]. congruence.
    + rewrite Hp3. cbn [Encode.setPosition Encode.position].
      rewrite Hp2, Hp1, !len_app.
      replace (len (map toByte rdata)) with (Z.of_nat (length rdata))
        by (unfold len; now rewrite length_map).
      lia.
    + rewrite Hw. f_equal. unfold written.
      rewrite !setPosition_sameSections, !Hs2, !setPosition_sameSections, !Hs1.
      reflexivity.
    + intros s. rewrite Hs3, !setPosition_sameSections, Hs2,
        !setPosition_sameSections, Hs1. reflexivity.
  - pose proof (pushSection_written _ _ _ _ H) as Hw.
    apply pushSection_output in H as (Hh3 & Hp3 & Hs3).
    exists (name ++ typeBuf ++ classBuf).
    split; [|split; [|split]].
    + rewrite Hh3. cbn [Encode.setPosition Encode.header]. congruence.
    + rewrite Hp3. cbn [Encode.setPosition Encode.position].
      rewrite Hp1, !len_app. lia.
    + rewrite Hw. f_equal. unfold written.
      rewrite !setPosition_sameSections, !Hs1. reflexivity.
    + intros s. rewrite Hs3, !setPosition_sameSections, Hs1. reflexivity.
Qed.

(** An OPT record: one chunk more in its section; the position is not
    moved over the two octets of the RDATA length and the options. *)
Lemma ednsRecord_output e sectionName edns e' :
  Encode.ednsRecord e sectionName edns = Ok e' ->
  exists chunk count optionOctets,
    Encode.optionChunks (Message.options edns) = Ok (count, optionOctets)
    /\ Encode.header e' = Encode.header e
    /\ Encode.position e' + 2 + len optionOctets
       = Encode.position e + len chunk
    /\ written e' = written e + len chunk
    /\ forall name,
         chunksOf e' name
         = if String.eqb name sectionName then chunksOf e name ++ [chunk]
           else chunksOf e name.
Proof.
  unfold Encode.ednsRecord. intros H.
  destruct (Encode.encodeName e "" 0 true) as [[name e1]|] eqn:Hname;
    [|discriminate H].
  apply encodeName_sameOutput in Hname as (Hh1 & Hp1 & Hs1).
  cbn [mbind result_bind] in H.
  destruct (writeUInt16BE 41) as [typeBuf|] eqn:Ht; [|discriminate H].
  cbn [mbind result_bind] in H.
  destruct (writeUInt16BE (Message.udpSize edns)) as [sizeBuf|] eqn:Hsz;
    [|discriminate H].
  cbn [mbind result_bind] in H.
  match type of H with
  | writeUInt16BE ?flags ≫= _ = _ =>
      destruct (writeUInt16BE flags) as [flagsBuf|] eqn:Hf; [|discriminate H]
  end.
  cbn [mbind result_bind] in H.
  destruct (Encode.optionChunks _) as [[count optionOctets]|] eqn:Ho;
    [|discriminate H].
  cbn [mbind result_bind] in H.
  destruct (writeUInt16BE count) as [optionsLength|] eqn:Hl;
    [|discriminate H].
  cbn [mbind result_bind] in H.
  apply writeUInt16BE_len in Ht, Hsz, Hf, Hl.
  pose proof (pushSection_written _ _ _ _ H) as Hw.
  apply pushSection_output in H as (Hh3 & Hp3 & Hs3).
  exists (name ++ typeBuf ++ sizeBuf ++ flagsBuf ++ [x00; x00]
            ++ optionsLength ++ optionOctets), count, optionOctets.
  split; [reflexivity|]. split; [|split; [|split]].
  - rewrite Hh3. cbn [Encode.setPosition Encode.header]. congruence.
  - rewrite Hp3. cbn [Encode.setPosition Encode.position].
    rewrite Hp1, !len_app. change (len [x00; x00]) with 2. lia.
  - rewrite Hw. f_equal. unfold written.
    rewrite !setPosition_sameSections, !Hs1. reflexivity.
  - intros s. rewrite Hs3, !setPosition_sameSections, Hs1. reflexivity.
Qed.

(** The records of one section: the header stays, every record adds one
    chunk to the section, and regular records move the position by what
    they add to the output. *)
Lemma records_output sectionName rs : forall e e',
  Encode.records e sectionName rs = Ok e' ->
  Encode.header e' = Encode.header e
  /\ (forall name,
        length (chunksOf e' name)
        = (length (chunksOf e name)
           + if String.eqb name sectionName then length rs else 0)%nat)
  /\ (Forall (fun r => Message.r_edns r = None) rs ->
      Encode.position e' - written e' = Encode.position e - written e).
Proof.
  induction rs as [|r rs IH]; intros e e' H; simpl in H.
  - injection H as <-. split; [reflexivity|split; [|reflexivity]].
    intros name. destruct (String.eqb _ _); cbn [length]; lia.
  - destruct (match Message.r_edns r with
              | Some edns => Encode.ednsRecord e sectionName edns
              | None => Encode.record e sectionName r
              end) as [e1|] eqn:Hfirst; [|discriminate H].
    cbn [mbind result_bind] in H.
    destruct (IH _ _ H) as (Hh & Hs & Hp).
    assert (Encode.header e1 = Encode.header e
            /\ (forall name,
                  length (chunksOf e1 name)
                  = (length (chunksOf e name)
                     + if String.eqb name sectionName then 1 else 0)%nat)
            /\ (Message.r_edns r = None ->
                Encode.position e1 - written e1
                = Encode.position e - written e)) as (Hh1 & Hs1 & Hp1).
    { destruct (Message.r_edns r) as [edns|].
      - apply ednsRecord_output in Hfirst
          as (chunk & count & optionOctets & _ & Hh1 & _ & _ & Hs1).
        split; [assumption|]. split; [|discriminate].
        intros name. rewrite Hs1.
        destruct (String.eqb _ _); [rewrite length_app; simpl|]; lia.
      - apply record_output in Hfirst as (chunk & Hh1 & Hp1 & Hw1 & Hs1).
        split; [assumption|]. split; [|lia].
        intros name. rewrite Hs1.
        destruct (String.eqb _ _); [rewrite length_app; simpl|]; lia. }
    split; [congruence|]. split.
    + intros name. rewrite Hs, Hs1. cbn [length].
      destruct (String.eqb _ _); lia.
    + intros Hall. inversion Hall; subst. rewrite Hp, Hp1 by assumption.
      reflexivity.
Qed.

(** ** The header of an encoded message *)

(** The two octets of flags as [message] composes them. *)
Definition firstFlags (msg : Message.DNSMessage) (opcode : Z) : Z :=
  js_or
    (js_or
       (js_or
          (js_or
             (js_or 0 (if bool_decide (Message.m_type msg = Some "response")
                       then 128 else 0))
             (if Message.m_authoritative msg then 4 else 0))
          (if Message.m_truncated msg then 2 else 0))
       (if Message.m_recursionDesired msg then 1 else 0))
    (js_shl (js_and opcode 15) 3).

Definition secondFlags (msg : Message.DNSMessage) : Z :=
  js_or
    (js_or
       (js_or
          (js_or 0 (if Message.m_recursionAvailable msg then 128 else 0))
          (if Message.m_authenticated msg then 32 else 0))
       (if Message.m_checkingDisabled msg then 16 else 0))
    (js_and (default 0 (Message.m_responseCode msg)) 15).

(** The count of a section as the header holds it. *)
Definition countOf (msg : Message.DNSMessage) (sectionName : string) : Z :=
  Z.of_nat (length (recordsOf msg sectionName)).

Lemma firstFlags_eq msg opcode :
  firstFlags msg opcode
  = js_or
      (js_or
         (js_or
            (js_or
               (js_or 0 (if bool_decide (Message.m_type msg = Some "response")
                         then 128 else 0))
               (if Message.m_authoritative msg then 4 else 0))
            (if Message.m_truncated msg then 2 else 0))
         (if Message.m_recursionDesired msg then 1 else 0))
      (js_shl (js_and opcode 15) 3).
Proof. reflexivity. Qed.

Lemma secondFlags_eq msg :
  secondFlags msg
  = js_or
      (js_or
         (js_or
            (js_or 0 (if Message.m_recursionAvailable msg then 128 else 0))
            (if Message.m_authenticated msg then 32 else 0))
         (if Message.m_checkingDisabled msg then 16 else 0))
      (js_and (default 0 (Message.m_responseCode msg)) 15).
Proof. reflexivity. Qed.

(** The three phases of [message]. *)
Definition flagsHeader (idBuf : Buffer) (byte1 byte2 : Z)
  : result Encode.Encoder :=
  flags1 ← writeUInt8 byte1;
  flags2 ← writeUInt8 byte2;
  Ok (Encode.setPosition
        (Encode.setHeader Encode.create
           (Encode.patch
              (Encode.patch
                 (Encode.patch (Encode.header Encode.create) 0 idBuf)
                 2 flags1)
              3 flags2))
        12).

Definition startHeader (msg : Message.DNSMessage) : result Encode.Encoder :=
  idBuf ← writeUInt16BE (default 0 (Message.m_id msg));
  match Message.m_opcode msg with
  | None => Err UnknownOpcode
  | Some name =>
      match Encode.indexOf Message.opcodeNames name 0 with
      | None => Err UnknownOpcode
      | Some opcode =>
          flagsHeader idBuf (firstFlags msg opcode) (secondFlags msg)
      end
  end.

Definition allRecords (e : Encode.Encoder) (msg : Message.DNSMessage)
  : result Encode.Encoder :=
  e ← Encode.records e "question" (Message.m_question msg);
  e ← Encode.records e "answer" (Message.m_answer msg);
  e ← Encode.records e "authority" (Message.m_authority msg);
  Encode.records e "additional" (Message.m_additional msg).

Definition finishHeader (e : Encode.Encoder) : result Encode.Encoder :=
  qd ← writeUInt16BE (Z.of_nat (length (Encode.question e)));
  an ← writeUInt16BE (Z.of_nat (length (Encode.answer e)));
  ns ← writeUInt16BE (Z.of_nat (length (Encode.authority e)));
  ar ← writeUInt16BE (Z.of_nat (length (Encode.additional e)));
  Ok (Encode.setHeader e
        (Encode.patch
           (Encode.patch
              (Encode.patch (Encode.patch (Encode.header e) 4 qd) 6 an) 8 ns)
           10 ar)).

Lemma message_phases msg :
  Encode.message Encode.create msg
  = (e ← startHeader msg; e ← allRecords e msg; finishHeader e).
Proof.
  unfold Encode.message, startHeader, flagsHeader, allRecords, finishHeader.
  destruct (writeUInt16BE (default 0 (Message.m_id msg))) as [idBuf|];
    [|reflexivity].
  cbn [mbind result_bind].
  destruct (Message.m_opcode msg) as [name|]; [|reflexivity].
  destruct (Encode.indexOf Message.opcodeNames name 0) as [opcode|];
    [|reflexivity].
  rewrite firstFlags_eq, secondFlags_eq.
  repeat match goal with
         | |- context [writeUInt8 (js_or ?a ?b)] =>
             generalize (js_or a b); intro
         end.
  match goal with
  | |- writeUInt8 ?byte ≫= _ = _ => destruct (writeUInt8 byte); [|reflexivity]
  end.
  cbn [mbind result_bind].
  match goal with
  | |- writeUInt8 ?byte ≫= _ = _ => destruct (writeUInt8 byte); [|reflexivity]
  end.
  cbn [mbind result_bind].
  unfold Encode.setHeader, Encode.setPosition, Encode.create.
  cbn [Encode.header Encode.position Encode.question Encode.answer
       Encode.authority Encode.additional Encode.domains].
  repeat match goal with
  | |- Encode.records ?e ?s ?rs ≫= _ = _ =>
      destruct (Encode.records e s rs); [|reflexivity]; cbn [mbind result_bind]
  end.
  repeat match goal with
  | |- writeUInt16BE ?v ≫= _ = _ =>
      destruct (writeUInt16BE v); [|reflexivity]; cbn [mbind result_bind]
  end.
  reflexivity.
Qed.

Lemma writeUInt8_Ok v w :
  writeUInt8 v = Ok w -> 0 <= v <= 255 /\ w = [toByte v].
Proof.
  unfold writeUInt8.
  destruct (Z.ltb_spec v 0); [discriminate|].
  destruct (Z.gtb_spec v 255); [discriminate|].
  intros [= <-]. split; [lia|reflexivity].
Qed.

Lemma writeUInt16BE_Ok_octets v w :
  writeUInt16BE v = Ok w ->
  0 <= v <= 65535 /\ w = [toByte (v / 256); toByte v].
Proof.
  unfold writeUInt16BE.
  destruct (Z.ltb_spec v 0); [discriminate|].
  destruct (Z.gtb_spec v 65535); [discriminate|].
  intros [= <-]. split; [lia|reflexivity].
Qed.

Lemma flagsHeader_output hi lo byte1 byte2 e :
  flagsHeader [hi; lo] byte1 byte2 = Ok e ->
  0 <= byte1 <= 255
  /\ 0 <= byte2 <= 255
  /\ e = Encode.setPosition
           (Encode.setHeader Encode.create
              [ hi; lo; toByte byte1; toByte byte2;
                x00; x00; x00; x00; x00; x00; x00; x00 ])
           12.
Proof.
  unfold flagsHeader. intros H.
  destruct (writeUInt8 byte1) as [flags1|] eqn:H1; [|discriminate H].
  destruct (writeUInt8 byte2) as [flags2|] eqn:H2; [|discriminate H].
  apply writeUInt8_Ok in H1 as [Hr1 ->]. apply writeUInt8_Ok in H2 as [Hr2 ->].
  injection H as <-. repeat split; lia.
Qed.

Lemma startHeader_output msg e :
  startHeader msg = Ok e ->
  exists name opcode,
    Message.m_opcode msg = Some name
    /\ Encode.indexOf Message.opcodeNames name 0 = Some opcode
    /\ 0 <= default 0 (Message.m_id msg) <= 65535
    /\ 0 <= firstFlags msg opcode <= 255
    /\ 0 <= secondFlags msg <= 255
    /\ e = Encode.setPosition
             (Encode.setHeader Encode.create
                [ toByte (default 0 (Message.m_id msg) / 256);
                  toByte (default 0 (Message.m_id msg));
                  toByte (firstFlags msg opcode); toByte (secondFlags msg);
                  x00; x00; x00; x00; x00; x00; x00; x00 ])
             12.
Proof.
  unfold startHeader. intros H.
  destruct (writeUInt16BE (default 0 (Message.m_id msg))) as [idBuf|] eqn:Hid;
    [|discriminate H].
  cbn [mbind result_bind] in H.
  destruct (Message.m_opcode msg) as [name|] eqn:Hop; [|discriminate H].
  destruct (Encode.indexOf Message.opcodeNames name 0) as [opcode|] eqn:Hidx;
    [|discriminate H].
  apply writeUInt16BE_Ok_octets in Hid as [Hrange ->].
  apply flagsHeader_output in H as (Hf1 & Hf2 & ->).
  exists name, opcode. auto 10.
Qed.

Lemma allRecords_output e msg e' :
  allRecords e msg = Ok e' ->
  Encode.header e' = Encode.header e
  /\ (forall sectionName,
        length (chunksOf e' sectionName)
        = (length (chunksOf e sectionName)
           + length (recordsOf msg sectionName))%nat)
  /\ ((forall sectionName,
         Forall (fun r => Message.r_edns r = None)
           (recordsOf msg sectionName)) ->
      Encode.position e' - written e' = Encode.position e - written e).
Proof.
  unfold allRecords. intros H.
  destruct (Encode.records e "question" _) as [e1|] eqn:H1;
    cbn [mbind result_bind] in H; [|discriminate H].
  destruct (Encode.records e1 "answer" _) as [e2|] eqn:H2;
    cbn [mbind result_bind] in H; [|discriminate H].
  destruct (Encode.records e2 "authority" _) as [e3|] eqn:H3;
    cbn [mbind result_bind] in H; [|discriminate H].
  apply records_output in H1 as (Hh1 & Hs1 & Hp1).
  apply records_output in H2 as (Hh2 & Hs2 & Hp2).
  apply records_output in H3 as (Hh3 & Hs3 & Hp3).
  apply records_output in H as (Hh4 & Hs4 & Hp4).
  split; [congruence|]. split.
  - intros s. rewrite Hs4, Hs3, Hs2, Hs1. unfold recordsOf.
    repeat match goal with
           | |- context [String.eqb s ?b] =>
               destruct (String.eqb_spec s b) as [->|?]
           end; cbn [String.eqb Ascii.eqb Bool.eqb length]; lia.
  - intros Hall.
    rewrite (Hp4 (Hall "additional")), (Hp3 (Hall "authority")),
      (Hp2 (Hall "answer")), (Hp1 (Hall "question")).
    reflexivity.
Qed.

(** The number of chunks [e] holds for a section. *)
Definition chunkCount (e : Encode.Encoder) (sectionName : string) : Z :=
  Z.of_nat (length (chunksOf e sectionName)).

Lemma finishHeader_output e e' h0 h1 h2 h3 rest :
  finishHeader e = Ok e' ->
  Encode.header e = [h0; h1; h2; h3] ++ rest ->
  length rest = 8%nat ->
  (forall sectionName, 0 <= chunkCount e sectionName <= 65535)
  /\ Encode.header e'
     = [ h0; h1; h2; h3;
         toByte (chunkCount e "question" / 256);
         toByte (chunkCount e "question");
         toByte (chunkCount e "answer" / 256);
         toByte (chunkCount e "answer");
         toByte (chunkCount e "authority" / 256);
         toByte (chunkCount e "authority");
         toByte (chunkCount e "additional" / 256);
         toByte (chunkCount e "additional") ]
  /\ Encode.position e' = Encode.position e
  /\ forall sectionName, chunksOf e' sectionName = chunksOf e sectionName.
Proof.
  unfold finishHeader. intros H Hheader Hrest.
  change (Z.of_nat (length (Encode.question e)))
    with (chunkCount e "question") in H.
  change (Z.of_nat (length (Encode.answer e)))
    with (chunkCount e "answer") in H.
  change (Z.of_nat (length (Encode.authority e)))
    with (chunkCount e "authority") in H.
  change (Z.of_nat (length (Encode.additional e)))
    with (chunkCount e "additional") in H.
  destruct (writeUInt16BE (chunkCount e "question")) as [qd|] eqn:Hqd;
    [|discriminate H].
  destruct (writeUInt16BE (chunkCount e "answer")) as [an|] eqn:Han;
    [|discriminate H].
  destruct (writeUInt16BE (chunkCount e "authority")) as [ns|] eqn:Hns;
    [|discriminate H].
  destruct (writeUInt16BE (chunkCount e "additional")) as [ar|] eqn:Har;
    [|discriminate H].
  cbn [mbind result_bind] in H. injection H as <-.
  apply writeUInt16BE_Ok_octets in Hqd as [Rqd ->].
  apply writeUInt16BE_Ok_octets in Han as [Ran ->].
  apply writeUInt16BE_Ok_octets in Hns as [Rns ->].
  apply writeUInt16BE_Ok_octets in Har as [Rar ->].
  split; [|split; [|split; [reflexivity|reflexivity]]].
  - intros s. unfold chunkCount, chunksOf in *.
    cbn [String.eqb Ascii.eqb Bool.eqb] in Rqd, Ran, Rns, Rar.
    repeat match goal with
           | |- context [String.eqb s ?b] => destruct (String.eqb s b)
           end; cbn [length]; lia.
  - cbn [Encode.setHeader Encode.header]. rewrite Hheader.
    destruct rest as [|r0 [|r1 [|r2 [|r3 [|r4 [|r5 [|r6 [|r7 [|]]]]]]]]];
      try discriminate Hrest.
    reflexivity.
Qed.

(** What [message] leaves in a fresh encoder. *)
Lemma message_output msg e :
  Encode.message Encode.create msg = Ok e ->
  exists name opcode,
    Message.m_opcode msg = Some name
    /\ Encode.indexOf Message.opcodeNames name 0 = Some opcode
    /\ 0 <= default 0 (Message.m_id msg) <= 65535
    /\ 0 <= firstFlags msg opcode <= 255
    /\ 0 <= secondFlags msg <= 255
    /\ (forall sectionName, 0 <= countOf msg sectionName <= 65535)
    /\ Encode.header e
       = [ toByte (default 0 (Message.m_id msg) / 256);
           toByte (default 0 (Message.m_id msg));
           toByte (firstFlags msg opcode); toByte (secondFlags msg);
           toByte (countOf msg "question" / 256);
           toByte (countOf msg "question");
           toByte (countOf msg "answer" / 256);
           toByte (countOf msg "answer");
           toByte (countOf msg "authority" / 256);
           toByte (countOf msg "authority");
           toByte (countOf msg "additional" / 256);
           toByte (countOf msg "additional") ]
    /\ (forall sectionName,
          length (chunksOf e sectionName)
          = length (recordsOf msg sectionName))
    /\ ((forall sectionName,
           Forall (fun r => Message.r_edns r = None)
             (recordsOf msg sectionName)) ->
        Encode.position e = 12 + written e).
Proof.
  rewrite message_phases. intros H.
  destruct (startHeader msg) as [e0|] eqn:Hstart;
    cbn [mbind result_bind] in H; [|discriminate H].
  destruct (allRecords e0 msg) as [e4|] eqn:Hrecords;
    cbn [mbind result_bind] in H; [|discriminate H].
  apply startHeader_output in Hstart
    as (name & opcode & Hop & Hidx & Hid & Hf1 & Hf2 & ->).
  apply allRecords_output in Hrecords as (Hh & Hs & Hp).
  cbn [Encode.setPosition Encode.setHeader Encode.header] in Hh.
  destruct (finishHeader_output _ _ _ _ _ _ _ H Hh eq_refl)
    as (Hrange & Hheader & Hposition & Hsections).
  assert (forall sectionName,
            chunkCount e4 sectionName = countOf msg sectionName) as Hcount.
  { intros s. unfold chunkCount. rewrite Hs. unfold countOf.
    replace (length (chunksOf _ s)) with 0%nat; [reflexivity|].
    unfold chunksOf.
    repeat match goal with
           | |- context [String.eqb s ?b] => destruct (String.eqb s b)
           end; reflexivity. }
  exists name, opcode. repeat (split; [assumption|]).
  split; [intros s; rewrite <- Hcount; apply Hrange|].
  split; [rewrite Hheader, !Hcount; reflexivity|].
  split.
  - intros s. rewrite Hsections. apply Nat2Z.inj.
    change (Z.of_nat (length (chunksOf e4 s))) with (chunkCount e4 s).
    rewrite Hcount. reflexivity.
  - intros Hall. specialize (Hp Hall). rewrite Hposition.
    unfold written in *. rewrite !Hsections.
    change (len (concat (chunksOf (Encode.setPosition _ 12) "question")))
      with 0 in Hp.
    change (len (concat (chunksOf (Encode.setPosition _ 12) "answer")))
      with 0 in Hp.
    change (len (concat (chunksOf (Encode.setPosition _ 12) "authority")))
      with 0 in Hp.
    change (len (concat (chunksOf (Encode.setPosition _ 12) "additional")))
      with 0 in Hp.
    cbn [Encode.setPosition Encode.position] in Hp. lia.
Qed.

(** ** The encoded message as a whole *)

Lemma len_toBinary e :
  len (Encode.toBinary e) = len (Encode.header e) + written e.
Proof.
  unfold Encode.toBinary, written, chunksOf.
  cbn [String.eqb Ascii.eqb Bool.eqb]. rewrite !len_app. lia.
Qed.

Lemma recordsOf_plain msg :
  Forall (fun r => Message.r_edns r = None)
    (Message.m_question msg ++ Message.m_answer msg
       ++ Message.m_authority msg ++ Message.m_additional msg) ->
  forall sectionName,
    Forall (fun r => Message.r_edns r = None) (recordsOf msg sectionName).
Proof.
  intros Hall sectionName.
  apply Forall_app in Hall as [Hqd Hall].
  apply Forall_app in Hall as [Han Hall].
  apply Forall_app in Hall as [Hns Har].
  unfold recordsOf.
  repeat (destruct (String.eqb sectionName _); [assumption|]).
  constructor.
Qed.

(** X15. When a message without OPT records is encoded, the position of
    the encoder, which is where it takes the next name to start and what it
    records for the suffixes it writes, is the number of octets of the
    message written so far: at the end it is the length of the packet. *)
Theorem position_tracks_output msg e :
  Encode.message Encode.create msg = Ok e ->
  Forall (fun r => Message.r_edns r = None)
    (Message.m_question msg ++ Message.m_answer msg
       ++ Message.m_authority msg ++ Message.m_additional msg) ->
  Encode.position e = len (Encode.toBinary e).
Proof.
  intros H Hall.
  apply message_output in H
    as (name & opcode & _ & _ & _ & _ & _ & _ & Hheader & _ & Hp).
  rewrite len_toBinary, (Hp (recordsOf_plain msg Hall)), Hheader.
  reflexivity.
Qed.

Lemma position_tracks_output_witness :
  exists e,
    Encode.message Encode.create sharedOwner = Ok e
    /\ Encode.position e = len (Encode.toBinary e).
Proof.
  destruct (Encode.message Encode.create sharedOwner) as [e|] eqn:He;
    [|vm_compute in He; discriminate He].
  exists e. split; [reflexivity|].
  apply (position_tracks_output sharedOwner e He). repeat constructor.
Defined.

Lemma encodeName_empty e shift compress :
  Encode.encodeName e "" shift compress = Ok ([x00], e).
Proof. destruct e. reflexivity. Qed.

(** X16. An OPT record moves the position of the encoder by nine octets,
    the empty name and the eight octets behind it, while it adds eleven
    octets and the octets of its options to the message: the two octets of
    the RDATA length and the options are not counted, so that from an OPT
    record on the position lags behind the octets written. *)
Theorem opt_record_lags_position e sectionName edns e' :
  Encode.ednsRecord e sectionName edns = Ok e' ->
  exists count optionOctets,
    Encode.optionChunks (Message.options edns) = Ok (count, optionOctets)
    /\ Encode.position e' = Encode.position e + 9
    /\ len (Encode.toBinary e')
       = len (Encode.toBinary e) + 11 + len optionOctets.
Proof.
  intros H.
  destruct (ednsRecord_output _ _ _ _ H)
    as (chunk & count & optionOctets & Ho & Hh & Hp & Hw & _).
  exists count, optionOctets. split; [assumption|].
  assert (len chunk = 11 + len optionOctets) as Hchunk.
  { unfold Encode.ednsRecord in H. rewrite encodeName_empty in H.
    cbn [mbind result_bind] in H.
    change (writeUInt16BE 41) with (@Ok Buffer [x00; x29]) in H.
    cbn [mbind result_bind] in H.
    destruct (writeUInt16BE (Message.udpSize edns)) as [sizeBuf|] eqn:Hsz;
      [|discriminate H].
    cbn [mbind result_bind] in H.
    match type of H with
    | writeUInt16BE ?flags ≫= _ = _ =>
        destruct (writeUInt16BE flags) as [flagsBuf|] eqn:Hf;
        [|discriminate H]
    end.
    cbn [mbind result_bind] in H. rewrite Ho in H.
    cbn [mbind result_bind] in H.
    destruct (writeUInt16BE count) as [optionsLength|] eqn:Hl;
      [|discriminate H].
    cbn [mbind result_bind] in H.
    apply writeUInt16BE_len in Hsz, Hf, Hl.
    pose proof (pushSection_written _ _ _ _ H) as Hw'.
    rewrite Hw in Hw'. unfold written in Hw'.
    rewrite !setPosition_sameSections in Hw'.
    rewrite !len_app in Hw'.
    change (len [x00]) with 1 in Hw'.
    change (len [x00; x00]) with 2 in Hw'.
    change (len [x00; x29]) with 2 in Hw'. lia. }
  split; [lia|]. rewrite !len_toBinary, Hh, Hw. lia.
Qed.

Lemma opt_record_lags_position_witness :
  exists e' count optionOctets,
    Encode.ednsRecord Encode.create "additional"
      {| Message.udpSize := 4096; Message.extendedResult := 0;
         Message.version := 0; Message.flagDO := false; Message.flags := 0;
         Message.options := [ {| Decode.code := 10;
                                 Decode.data := [x01; x02; x03] |} ] |}
    = Ok e'
    /\ Encode.optionChunks
         [ {| Decode.code := 10; Decode.data := [x01; x02; x03] |} ]
       = Ok (count, optionOctets)
    /\ Encode.position e' = Encode.position Encode.create + 9
    /\ len (Encode.toBinary e')
       = len (Encode.toBinary Encode.create) + 11 + len optionOctets.
Proof.
  eexists.
  match goal with
  | |- exists count optionOctets, ?run = Ok ?e' /\ _ =>
      assert (run = Ok e') as Hrun by (vm_compute; reflexivity)
  end.
  destruct (opt_record_lags_position _ _ _ _ Hrun)
    as (count & optionOctets & Ho & Hp & Hl).
  exists count, optionOctets. auto.
Defined.

(** *** The header read back *)

Lemma indexOf_opcode name opcode :
  Encode.indexOf Message.opcodeNames name 0 = Some opcode ->
  In opcode [0; 1; 2; 4; 5].
Proof.
  unfold Message.opcodeNames. cbn [Encode.indexOf].
  repeat case_bool_decide; intros [= <-]; cbn; first [lia|congruence].
Qed.

Lemma firstFlags_read (response aa tc rd : bool) opcode :
  In opcode [0; 1; 2; 4; 5] ->
  let byte :=
    js_or
      (js_or
         (js_or
            (js_or (js_or 0 (if response then 128 else 0))
               (if aa then 4 else 0))
            (if tc then 2 else 0))
         (if rd then 1 else 0))
      (js_shl (js_and opcode 15) 3) in
  js_shr byte 7 = Z.b2z response
  /\ js_and (js_shr byte 3) 15 = opcode
  /\ js_and (js_shr byte 2) 1 = Z.b2z aa
  /\ js_and (js_shr byte 1) 1 = Z.b2z tc
  /\ js_and byte 1 = Z.b2z rd.
Proof.
  intros Hin.
  repeat (destruct Hin as [<-|Hin]);
    [| | | | |contradiction Hin];
    destruct response, aa, tc, rd; vm_compute; repeat split; reflexivity.
Qed.

Lemma js_and_15 z : js_and z 15 = z mod 16.
Proof.
  unfold js_and. change (int32 15) with (Z.ones 4).
  rewrite Z.land_ones by lia. change (2 ^ 4) with 16.
  assert (int32 z mod 16 = z mod 16) as ->.
  { unfold int32.
    pose proof (Z.div_mod (z + 2147483648) 4294967296 ltac:(lia)) as Hdm.
    replace ((z + 2147483648) mod 4294967296 - 2147483648)
      with (z + (- 268435456 * ((z + 2147483648) / 4294967296)) * 16) by lia.
    apply Z.mod_add. lia. }
  pose proof (Z.mod_pos_bound z 16 ltac:(lia)).
  unfold int32. rewrite Z.mod_small by lia. lia.
Qed.

Lemma secondFlags_read (ra ad cd : bool) code :
  0 <= code < 16 ->
  let byte :=
    js_or
      (js_or
         (js_or (js_or 0 (if ra then 128 else 0)) (if ad then 32 else 0))
         (if cd then 16 else 0))
      code in
  js_shr byte 7 = Z.b2z ra
  /\ js_and (js_shr byte 5) 1 = Z.b2z ad
  /\ js_and (js_shr byte 4) 1 = Z.b2z cd
  /\ js_and byte 15 = code.
Proof.
  intros Hcode.
  assert (In code [0; 1; 2; 3; 4; 5; 6; 7; 8; 9; 10; 11; 12; 13; 14; 15])
    as Hin.
  { assert (code = 0 \/ code = 1 \/ code = 2 \/ code = 3 \/ code = 4
            \/ code = 5 \/ code = 6 \/ code = 7 \/ code = 8 \/ code = 9
            \/ code = 10 \/ code = 11 \/ code = 12 \/ code = 13
            \/ code = 14 \/ code = 15) as H by lia.
    simpl. intuition auto. }
  clear Hcode.
  repeat (destruct Hin as [<-|Hin]); try contradiction Hin;
    destruct ra, ad, cd; vm_compute; repeat split; reflexivity.
Qed.

Lemma octet_small z : 0 <= z <= 255 -> octet (toByte z) = z.
Proof. intros Hz. rewrite octet_toByte. apply Z.mod_small. lia. Qed.

Lemma readUInt16BE_pair (pre post : Buffer) v :
  0 <= v <= 65535 ->
  readUInt16BE (pre ++ [toByte (v / 256); toByte v] ++ post) (len pre) = Ok v.
Proof.
  intros Hv.
  apply (readUInt16BE_written pre post v [toByte (v / 256); toByte v]).
  unfold writeUInt16BE.
  destruct (Z.ltb_spec v 0); [lia|].
  destruct (Z.gtb_spec v 65535); [lia|]. reflexivity.
Qed.

(** The header [message] leaves, read by the decoder. *)
Lemma header_read number byte1 byte2 qd an ns ar (body : Buffer) :
  0 <= number <= 65535 -> 0 <= byte1 <= 255 -> 0 <= byte2 <= 255 ->
  0 <= qd <= 65535 -> 0 <= an <= 65535 ->
  0 <= ns <= 65535 -> 0 <= ar <= 65535 ->
  let packet :=
    [ toByte (number / 256); toByte number; toByte byte1; toByte byte2;
      toByte (qd / 256); toByte qd; toByte (an / 256); toByte an;
      toByte (ns / 256); toByte ns; toByte (ar / 256); toByte ar ] ++ body in
  Decode.id packet = Ok number
  /\ readUInt8 packet 2 = Ok byte1
  /\ readUInt8 packet 3 = Ok byte2
  /\ Decode.recordCount packet "question" = Ok qd
  /\ Decode.recordCount packet "answer" = Ok an
  /\ Decode.recordCount packet "authority" = Ok ns
  /\ Decode.recordCount packet "additional" = Ok ar.
Proof.
  intros Hnumber H1 H2 Hqd Han Hns Har packet.
  unfold Decode.id, Decode.recordCount.
  cbn [String.eqb Ascii.eqb Bool.eqb].
  split; [exact (readUInt16BE_pair [] _ number Hnumber)|].
  split.
  { pose proof (readUInt8_app [toByte (number / 256); toByte number]
                  (toByte byte1)
                  ([toByte byte2; toByte (qd / 256); toByte qd;
                    toByte (an / 256); toByte an; toByte (ns / 256);
                    toByte ns; toByte (ar / 256); toByte ar] ++ body)) as R.
    rewrite octet_small in R by assumption. exact R. }
  split.
  { pose proof (readUInt8_app
                  [toByte (number / 256); toByte number; toByte byte1]
                  (toByte byte2)
                  ([toByte (qd / 256); toByte qd; toByte (an / 256);
                    toByte an; toByte (ns / 256); toByte ns;
                    toByte (ar / 256); toByte ar] ++ body)) as R.
    rewrite octet_small in R by assumption. exact R. }
  split;
    [exact (readUInt16BE_pair
              [toByte (number / 256); toByte number; toByte byte1;
               toByte byte2] _ qd Hqd)|].
  split;
    [exact (readUInt16BE_pair
              [toByte (number / 256); toByte number; toByte byte1;
               toByte byte2; toByte (qd / 256); toByte qd] _ an Han)|].
  split;
    [exact (readUInt16BE_pair
              [toByte (number / 256); toByte number; toByte byte1;
               toByte byte2; toByte (qd / 256); toByte qd;
               toByte (an / 256); toByte an] _ ns Hns)|].
  exact (readUInt16BE_pair
           [toByte (number / 256); toByte number; toByte byte1;
            toByte byte2; toByte (qd / 256); toByte qd;
            toByte (an / 256); toByte an; toByte (ns / 256); toByte ns]
           _ ar Har).
Qed.

(** X17. The header of an encoded message reads back: for every message
    the encoder accepts, the decoder finds in the packet the id, the kind
    of the message, the index of its opcode, the six flags, the four low
    bits of the response code, and for every section the number of its
    records. *)
Theorem header_roundtrip msg e :
  Encode.message Encode.create msg = Ok e ->
  let packet := Encode.toBinary e in
  Decode.id packet = Ok (default 0 (Message.m_id msg))
  /\ Decode.qr packet
     = Ok (Z.b2z (bool_decide (Message.m_type msg = Some "response")))
  /\ (exists name opcode,
        Message.m_opcode msg = Some name
        /\ Encode.indexOf Message.opcodeNames name 0 = Some opcode
        /\ Decode.opcode packet = Ok opcode)
  /\ Decode.aa packet = Ok (Z.b2z (Message.m_authoritative msg))
  /\ Decode.tc packet = Ok (Z.b2z (Message.m_truncated msg))
  /\ Decode.rd packet = Ok (Z.b2z (Message.m_recursionDesired msg))
  /\ Decode.ra packet = Ok (Z.b2z (Message.m_recursionAvailable msg))
  /\ Decode.ad packet = Ok (Z.b2z (Message.m_authenticated msg))
  /\ Decode.cd packet = Ok (Z.b2z (Message.m_checkingDisabled msg))
  /\ Decode.rcode packet
     = Ok (default 0 (Message.m_responseCode msg) mod 16)
  /\ Decode.recordCount packet "question"
     = Ok (Z.of_nat (length (Message.m_question msg)))
  /\ Decode.recordCount packet "answer"
     = Ok (Z.of_nat (length (Message.m_answer msg)))
  /\ Decode.recordCount packet "authority"
     = Ok (Z.of_nat (length (Message.m_authority msg)))
  /\ Decode.recordCount packet "additional"
     = Ok (Z.of_nat (length (Message.m_additional msg))).
Proof.
  intros H packet.
  apply message_output in H
    as (name & opcode & Hop & Hidx & Hid & Hf1 & Hf2 & Hcounts & Hheader
        & _ & _).
  pose proof (indexOf_opcode _ _ Hidx) as Hin.
  pose proof (firstFlags_read
                (bool_decide (Message.m_type msg = Some "response"))
                (Message.m_authoritative msg) (Message.m_truncated msg)
                (Message.m_recursionDesired msg) opcode Hin) as Hbits1.
  pose proof (Z.mod_pos_bound (default 0 (Message.m_responseCode msg)) 16
                ltac:(lia)) as Hcode.
  pose proof (secondFlags_read (Message.m_recursionAvailable msg)
                (Message.m_authenticated msg)
                (Message.m_checkingDisabled msg)
                (default 0 (Message.m_responseCode msg) mod 16) Hcode)
    as Hbits2.
  cbn zeta in Hbits1, Hbits2.
  rewrite <- js_and_15 in Hbits2.
  rewrite <- firstFlags_eq in Hbits1. rewrite <- secondFlags_eq in Hbits2.
  remember (firstFlags msg opcode) as byte1 eqn:E1.
  remember (secondFlags msg) as byte2 eqn:E2.
  clear E1 E2.
  pose proof (header_read (default 0 (Message.m_id msg)) byte1 byte2
                (countOf msg "question") (countOf msg "answer")
                (countOf msg "authority") (countOf msg "additional")
                (concat (Encode.question e) ++ concat (Encode.answer e)
                   ++ concat (Encode.authority e)
                   ++ concat (Encode.additional e))
                Hid Hf1 Hf2 (Hcounts _) (Hcounts _) (Hcounts _) (Hcounts _))
    as Hread.
  cbn zeta in Hread. rewrite <- Hheader in Hread.
  change (Encode.header e ++ _) with packet in Hread.
  destruct Hread as (Rid & R2 & R3 & Rqd & Ran & Rns & Rar).
  destruct Hbits1 as (Bqr & Bop & Baa & Btc & Brd).
  destruct Hbits2 as (Bra & Bad & Bcd & Brc).
  unfold Decode.qr, Decode.opcode, Decode.aa, Decode.tc, Decode.rd,
    Decode.ra, Decode.ad, Decode.cd, Decode.rcode.
  rewrite R2, R3. cbn [mbind result_bind].
  rewrite Bqr, Bop, Baa, Btc, Brd, Bra, Bad, Bcd, Brc, js_and_15.
  repeat split; try assumption; try reflexivity.
  exists name, opcode. auto.
Qed.

Lemma header_roundtrip_witness :
  exists e,
    Encode.message Encode.create sharedOwner = Ok e
    /\ Decode.id (Encode.toBinary e) = Ok 1
    /\ Decode.qr (Encode.toBinary e) = Ok 1
    /\ Decode.aa (Encode.toBinary e) = Ok 1
    /\ Decode.recordCount (Encode.toBinary e) "answer" = Ok 1.
Proof.
  destruct (Encode.message Encode.create sharedOwner) as [e|] eqn:He;
    [|vm_compute in He; discriminate He].
  exists e. split; [reflexivity|].
  pose proof (header_roundtrip sharedOwner e He) as H. cbn zeta in H.
  destruct H as (Hid & Hqr & _ & Haa & _ & _ & _ & _ & _ & _ & _ & Han & _).
  auto.
Defined.
